(** * app-siave-2025: the aggregation functions of [app.py]

    A shallow embedding of the data loaders and of the five aggregation
    functions of [src/app.py] (a Streamlit dashboard over two pandas
    tables), together with the properties the specification states about
    them.

    Modelling conventions.
    - A Python [str] is the list of its Unicode code points ([pystr]).
    - A spreadsheet cell is a [cell]: missing ([NA], pandas' NaN/None), a
      string, an integer or a boolean.  Numeric cells are integers (school
      codes); Python's cross-type equality [True == 1] is not modelled.
    - A [DataFrame] is a list of column labels and a list of rows.  Looking a
      column up by label raises [KeyError] when the label is absent, exactly
      as [df["X"]] does.
    - Exceptions are values of the [result] type.
    - float64 values are modelled by [fval]: an exact rational, an infinity
      or NaN.  Rounding to the nearest double is abstracted away; it is
      monotone and fixes 0 and 100, so order and bound statements carry
      over to the doubles. *)

From Stdlib Require Import String Ascii.
From Stdlib Require Import List ZArith NArith QArith Bool Lia.
From Stdlib Require Import Permutation Sorted.
Import ListNotations.

Local Open Scope string_scope.
Local Open Scope nat_scope.
Local Open Scope list_scope.

(* ================================================================= *)
(** ** Python strings *)

Module PyStr.

Definition pystr := list N.

(** The code points of an ASCII literal. *)
Fixpoint py (s : string) : pystr :=
  match s with
  | EmptyString => []
  | String c s' => N_of_ascii c :: py s'
  end.

Fixpoint eqb (a b : pystr) : bool :=
  match a, b with
  | [], [] => true
  | x :: a', y :: b' => N.eqb x y && eqb a' b'
  | _, _ => false
  end.

(** Code-point lexicographic order, Python's [<=] on [str]. *)
Fixpoint leb (a b : pystr) : bool :=
  match a, b with
  | [], _ => true
  | _ :: _, [] => false
  | x :: a', y :: b' =>
      if N.ltb x y then true
      else if N.eqb x y then leb a' b' else false
  end.

(** [str.isspace] on one code point: the ASCII table of CPython
    ([_Py_ascii_whitespace]) and the Unicode white-space code points
    ([_PyUnicode_IsWhitespace]). *)
Definition isspace (c : N) : bool :=
  ((9 <=? c) && (c <=? 13) || (28 <=? c) && (c <=? 32)
   || (c =? 133) || (c =? 160) || (c =? 5760)
   || (8192 <=? c) && (c <=? 8202)
   || (c =? 8232) || (c =? 8233) || (c =? 8239) || (c =? 8287)
   || (c =? 12288))%N.

Fixpoint lstrip (s : pystr) : pystr :=
  match s with
  | [] => []
  | c :: s' => if isspace c then lstrip s' else s
  end.

Definition rstrip (s : pystr) : pystr := rev (lstrip (rev s)).

(** [str.strip()] with no argument. *)
Definition strip (s : pystr) : pystr := rstrip (lstrip s).

(** [str.lower] restricted to Basic Latin and Latin-1 Supplement; code
    points from U+0100 on are left unchanged.  The aggregation code takes
    the lower-casing function as a parameter; this instance serves the
    worked examples. *)
Definition lower_cp_latin1 (c : N) : N :=
  (if (65 <=? c) && (c <=? 90) then c + 32
   else if (192 <=? c) && (c <=? 222) && negb (c =? 215) then c + 32
   else c)%N.

Definition lower_latin1 (s : pystr) : pystr := map lower_cp_latin1 s.

End PyStr.

Import PyStr.

(* ================================================================= *)
(** ** Cells *)

Inductive cell : Type :=
| NA
| Str (s : pystr)
| Num (z : Z)
| Bool (b : bool).

Definition isna (c : cell) : bool :=
  match c with NA => true | _ => false end.

(** Identity of cells, as pandas' hash tables see it (group keys, join keys
    and column labels): a missing value matches a missing value. *)
Definition cell_eqb (a b : cell) : bool :=
  match a, b with
  | NA, NA => true
  | Str s, Str t => PyStr.eqb s t
  | Num x, Num y => Z.eqb x y
  | Bool x, Bool y => Bool.eqb x y
  | _, _ => false
  end.

(** The element-wise [==] of a Series with a scalar: NaN equals nothing. *)
Definition py_eq (a b : cell) : bool :=
  negb (isna a) && cell_eqb a b.

(** Order used when pandas sorts group keys: numbers before strings before
    missing values ([_sort_mixed]); within a kind, the natural order. *)
Definition cell_rank (c : cell) : nat :=
  match c with Num _ | Bool _ => 0 | Str _ => 1 | NA => 2 end.

Definition cell_num (c : cell) : Z :=
  match c with Num z => z | Bool true => 1 | _ => 0 end.

Definition cell_leb (a b : cell) : bool :=
  match a, b with
  | Str s, Str t => PyStr.leb s t
  | _, _ =>
      if Nat.ltb (cell_rank a) (cell_rank b) then true
      else if Nat.eqb (cell_rank a) (cell_rank b)
           then Z.leb (cell_num a) (cell_num b)
           else false
  end.

(* ================================================================= *)
(** ** Exceptions *)

Inductive error : Type :=
| KeyError (label : cell)        (* label absent from the columns *)
| NotASeries (label : cell)      (* duplicated label: [df[l]] is a frame *)
| IndexError                     (* [iloc[0]] on an empty frame *)
| TypeError                      (* a mask that is not boolean *)
| MergeError                     (* suffixes produced duplicate labels *)
| AttributeError                 (* [.str] on values that are not strings *)
| ValueError.                    (* the truth value of a Series *)

Inductive result (A : Type) : Type :=
| Ok (a : A)
| Err (e : error).

Arguments Ok {A} a.
Arguments Err {A} e.

Definition bind {A B} (m : result A) (f : A -> result B) : result B :=
  match m with
  | Ok a => f a
  | Err e => Err e
  end.

Notation "x <- m ;; k" := (bind m (fun x => k))
  (at level 61, m at next level, right associativity).

(* ================================================================= *)
(** ** Data frames *)

Record DataFrame : Type := mkDF {
  columns : list cell;
  rows : list (list cell)
}.

(** The positions at which a label occurs among the columns. *)
Fixpoint positions_from (i : nat) (l : cell) (cols : list cell) : list nat :=
  match cols with
  | [] => []
  | c :: cols' =>
      if cell_eqb l c then i :: positions_from (S i) l cols'
      else positions_from (S i) l cols'
  end.

Definition positions (l : cell) (cols : list cell) : list nat :=
  positions_from 0 l cols.

Definition has_label (l : cell) (df : DataFrame) : bool :=
  existsb (cell_eqb l) (columns df).

(** [df[l]] where a Series is expected. *)
Definition getcol (l : cell) (df : DataFrame) : result (list cell) :=
  match positions l (columns df) with
  | [] => Err (KeyError l)
  | [i] => Ok (map (fun r => nth i r NA) (rows df))
  | _ => Err (NotASeries l)
  end.

(** A row brought to the width of the frame. *)
Definition fit (n : nat) (r : list cell) : list cell :=
  firstn n (r ++ repeat NA n).

Fixpoint set_at (ps : list nat) (v : cell) (i : nat) (r : list cell)
  : list cell :=
  match r with
  | [] => []
  | c :: r' =>
      (if existsb (Nat.eqb i) ps then v else c) :: set_at ps v (S i) r'
  end.

(** The value assigned at position [i] when the values are dealt out to the
    positions [ps], one value to each. *)
Fixpoint value_for (i : nat) (ps : list nat) (vals : list cell) : option cell :=
  match ps, vals with
  | p :: ps', v :: vals' =>
      if Nat.eqb i p then Some v else value_for i ps' vals'
  | _, _ => None
  end.

Fixpoint set_each (ps : list nat) (vals : list cell) (i : nat) (r : list cell)
  : list cell :=
  match r with
  | [] => []
  | c :: r' =>
      match value_for i ps vals with
      | Some v => v
      | None => c
      end :: set_each ps vals (S i) r'
  end.

(** [df[l] = values] ([DataFrame.__setitem__]), [values] being a Series
    aligned with the rows.
    - An absent label appends a column.
    - A label carried by one column overwrites that column.
    - A label carried by several columns: when there are as many values as
      such columns, [__setitem__] takes the values as one scalar for each
      column ([_setitem_array], "Column to set is duplicated"): the j-th of
      these columns is filled with the j-th value in every row (the value
      at index j, the index being 0, 1, ... as [reset_index] leaves it).
      Otherwise each of these columns receives the whole Series
      ([_set_item] tiles it). *)
Definition setcol (l : cell) (vals : list cell) (df : DataFrame) : DataFrame :=
  let n := length (columns df) in
  match positions l (columns df) with
  | [] =>
      mkDF (columns df ++ [l])
           (map (fun rv => fit n (fst rv) ++ [snd rv])
                (combine (rows df) vals))
  | ps =>
      if Nat.ltb 1 (length ps) && Nat.eqb (length ps) (length vals)
      then
        mkDF (columns df)
             (map (fun r => set_each ps vals 0 (fit n r)) (rows df))
      else
        mkDF (columns df)
             (map (fun rv => set_at ps (snd rv) 0 (fit n (fst rv)))
                  (combine (rows df) vals))
  end.

(** Boolean indexing [df[mask]]. *)
Fixpoint filter_by {A} (mask : list bool) (l : list A) : list A :=
  match mask, l with
  | b :: mask', x :: l' =>
      if b then x :: filter_by mask' l' else filter_by mask' l'
  | _, _ => []
  end.

Definition filter_rows (mask : list bool) (df : DataFrame) : DataFrame :=
  mkDF (columns df) (filter_by mask (rows df)).

(** A column used as a mask must be boolean. *)
Fixpoint as_mask (c : list cell) : result (list bool) :=
  match c with
  | [] => Ok []
  | Bool b :: c' => m <- as_mask c' ;; Ok (b :: m)
  | _ :: _ => Err TypeError
  end.

(** [df[[l1; ...; lk]]]: the columns carrying the labels, in the order of
    the labels. *)
Fixpoint select_positions (labels cols : list cell) : result (list nat) :=
  match labels with
  | [] => Ok []
  | l :: labels' =>
      match positions l cols with
      | [] => Err (KeyError l)
      | ps => rest <- select_positions labels' cols ;; Ok (ps ++ rest)
      end
  end.

Definition select (labels : list cell) (df : DataFrame) : result DataFrame :=
  ps <- select_positions labels (columns df) ;;
  Ok (mkDF (map (fun i => nth i (columns df) NA) ps)
           (map (fun r => map (fun i => nth i r NA) ps) (rows df))).

(* ================================================================= *)
(** ** Column labels and literals of the program *)

Definition GRE : cell := Str (py "GRE").
Definition INEP : cell := Str (py "INEP").
Definition ESCOLA : cell := Str (py "ESCOLA").
Definition REDE : cell := Str (py "REDE").
Definition POLO : cell := Str (py "POLO").
Definition COORDENADOR : cell := Str (py "COORDENADOR").
Definition NOME_DO_COORDENADOR : cell := Str (py "NOME DO COORDENADOR").
Definition TEM_COORDENADOR : cell := Str (py "TEM_COORDENADOR").
Definition STATUS_COORDENADOR : cell := Str (py "STATUS_COORDENADOR").

(** ["sem informação"]: U+00E7 is 231 and U+00E3 is 227. *)
Definition sem_informacao : pystr :=
  py "sem informa" ++ [231%N; 227%N] ++ py "o".

(** ["Sem informação"], the default coordinator name of the detail table. *)
Definition Sem_informacao : pystr :=
  py "Sem informa" ++ [231%N; 227%N] ++ py "o".

Definition Com_Coordenador : cell := Str (py "Com Coordenador").
Definition Sem_Coordenador : cell := Str (py "Sem Coordenador").

(* ================================================================= *)
(** ** 1. Loaders *)

(** [Series.fillna(v)]. *)
Definition fillna (v : cell) (c : cell) : cell :=
  match c with NA => v | _ => c end.

(** One element of
    [~col.fillna('').str.strip().str.lower().eq('sem informação')].
    The [.str] accessor yields NaN on a value that is not a string, [eq]
    is then false and the negation true.  [lower] stands for Python's
    [str.lower], whose Unicode case table is not part of the program. *)
Definition tem_coordenador (lower : pystr -> pystr) (c : cell) : bool :=
  match fillna (Str []) c with
  | Str s => negb (PyStr.eqb (lower (strip s)) sem_informacao)
  | _ => true
  end.

Definition is_num (c : cell) : bool :=
  match c with Num _ => true | _ => false end.

Definition is_bool (c : cell) : bool :=
  match c with Bool _ => true | _ => false end.

(** The check made by the [.str] accessor of an object column
    ([StringMethods._validate], on [infer_dtype(values, skipna=True)]): the
    accessor is refused when the values that are not missing are all
    integers ("integer") or all booleans ("boolean").  Strings ("string"),
    a mixture of kinds ("mixed", "mixed-integer") and a column without any
    value ("empty") are accepted. *)
Definition str_accessor_ok (col : list cell) : bool :=
  match filter (fun c => negb (isna c)) col with
  | [] => true
  | v => negb (forallb is_num v) && negb (forallb is_bool v)
  end.

(** [Series.map({True: "Com Coordenador", False: "Sem Coordenador"})]. *)
Definition status_of (c : cell) : cell :=
  match c with
  | Bool true => Com_Coordenador
  | Bool false => Sem_Coordenador
  | _ => NA
  end.

(** The [rename(columns={...})] of the loader: every entry except one maps a
    name to itself. *)
Definition rename_label (l : cell) : cell :=
  if cell_eqb l NOME_DO_COORDENADOR then COORDENADOR else l.

(** [load_data_coordenadores], from the frame that [pd.read_excel] returns.
    The first row becomes the header and is dropped from the data.  The
    coordinator column, its missing values filled with the empty string,
    must be acceptable to the [.str] accessor. *)
Definition load_data_coordenadores (lower : pystr -> pystr) (raw : DataFrame)
  : result DataFrame :=
  match rows raw with
  | [] => Err IndexError
  | header :: data =>
      let df := mkDF (map rename_label (fit (length (columns raw)) header))
                     data in
      coord <- getcol COORDENADOR df ;;
      if str_accessor_ok (map (fillna (Str [])) coord) then
        let df := setcol TEM_COORDENADOR
                         (map (fun c => Bool (tem_coordenador lower c)) coord)
                         df in
        tem <- getcol TEM_COORDENADOR df ;;
        Ok (setcol STATUS_COORDENADOR (map status_of tem) df)
      else Err AttributeError
  end.

(** [load_data_totais] only normalises the header of the frame it reads
    ([strip] and [upper] on the labels); its rows are passed through.  The
    aggregation functions below take the frame it returns. *)

(* ================================================================= *)
(** ** pandas primitives on columns *)

Definition dropna (l : list cell) : list cell :=
  filter (fun c => negb (isna c)) l.

Definition remove_cell (x : cell) (l : list cell) : list cell :=
  filter (fun y => negb (cell_eqb x y)) l.

(** [Series.unique()]: the distinct values in order of first appearance. *)
Fixpoint unique (l : list cell) : list cell :=
  match l with
  | [] => []
  | x :: l' => x :: remove_cell x (unique l')
  end.

(** [Series.nunique()]: missing values are not counted. *)
Definition nunique (l : list cell) : nat :=
  length (unique (dropna l)).

Section Sorting.
Context {A : Type} (first : A -> A -> bool).

(** Stable insertion: [x], which preceded every element of [l] in the
    input, goes in front of the first [y] with [first x y]. *)
Fixpoint insert (x : A) (l : list A) : list A :=
  match l with
  | [] => [x]
  | y :: l' => if first x y then x :: l else y :: insert x l'
  end.

Definition sort (l : list A) : list A := fold_right insert [] l.
End Sorting.

(** The keys of a [groupby]: distinct, not missing, sorted. *)
Definition group_keys (keys : list cell) : list cell :=
  sort cell_leb (unique (dropna keys)).

(** The values of the rows whose key is [k]. *)
Definition group_of {A} (k : cell) (kv : list (cell * A)) : list A :=
  map snd (filter (fun p => cell_eqb k (fst p)) kv).

(** [df.groupby(k)[v].nunique()] on the zipped key and value columns. *)
Definition groupby_nunique (kv : list (cell * cell)) : list (cell * nat) :=
  map (fun k => (k, nunique (group_of k kv))) (group_keys (map fst kv)).

(** [df.groupby(k)[v].max()] on a boolean column: the disjunction. *)
Definition groupby_max (kv : list (cell * bool)) : list (cell * bool) :=
  map (fun k => (k, existsb (fun b => b) (group_of k kv)))
      (group_keys (map fst kv)).

(** [df.groupby(k).size()]. *)
Definition groupby_size (keys : list cell) : list (cell * nat) :=
  map (fun k => (k, length (filter (cell_eqb k) keys))) (group_keys keys).

(** The aggregation ["first"]: the first value of the group that is not
    missing. *)
Definition first_valid (l : list cell) : cell :=
  match dropna l with
  | x :: _ => x
  | [] => NA
  end.

(** [Series.map(d)] with a dictionary: a key that is absent maps to NaN. *)
Definition map_dict (d : list (cell * bool)) (c : cell) : cell :=
  match find (fun p => cell_eqb c (fst p)) d with
  | Some p => Bool (snd p)
  | None => NA
  end.

(** Left join: the rows of the left table in order, each with its matches in
    the right table in order, or with no partner. *)
Fixpoint left_join {A B} (ka : A -> cell) (kb : B -> cell)
    (L : list A) (R : list B) : list (A * option B) :=
  match L with
  | [] => []
  | a :: L' =>
      match filter (fun b => cell_eqb (ka a) (kb b)) R with
      | [] => [(a, None)]
      | ms => map (fun b => (a, Some b)) ms
      end ++ left_join ka kb L' R
  end.

Definition groupby_nunique_df (k v : cell) (df : DataFrame)
  : result (list (cell * nat)) :=
  ks <- getcol k df ;;
  vs <- getcol v df ;;
  Ok (groupby_nunique (combine ks vs)).

(* ================================================================= *)
(** ** float64 values *)

Inductive fval : Type :=
| FNaN
| FInf (negative : bool)
| FFin (q : Q).

(** Element-wise division of two columns of counts: a zero divisor gives
    an infinity, or NaN for 0/0, and no exception. *)
Definition f_div_counts (a b : nat) : fval :=
  match b, a with
  | O, O => FNaN
  | O, S _ => FInf false
  | S _, _ => FFin (inject_Z (Z.of_nat a) / inject_Z (Z.of_nat b))
  end.

Definition f_mul100 (x : fval) : fval :=
  match x with
  | FFin q => FFin (q * 100)
  | _ => x
  end.

Definition f_fillna0 (x : fval) : fval :=
  match x with
  | FNaN => FFin 0
  | _ => x
  end.

Definition f_isnan (x : fval) : bool :=
  match x with FNaN => true | _ => false end.

(** [x >= y] on floats: false as soon as one side is NaN. *)
Definition f_geb (x y : fval) : bool :=
  match x, y with
  | FNaN, _ | _, FNaN => false
  | FInf false, _ => true
  | _, FInf true => true
  | FInf true, _ => false
  | _, FInf false => false
  | FFin a, FFin b => Qle_bool b a
  end.

(** The order of [sort_values(ascending=False)]: larger first, NaN last. *)
Definition desc_first (x y : fval) : bool :=
  f_isnan y || f_geb x y.

(* ================================================================= *)
(** ** 2. Aggregation functions *)

(** [df[l]]: a Series when one column carries the label, the frame of the
    columns that carry it when several do. *)
Inductive selection : Type :=
| Series (c : list cell)
| Frame (cs : list (list cell)).

Definition getitem (l : cell) (df : DataFrame) : result selection :=
  match positions l (columns df) with
  | [] => Err (KeyError l)
  | [i] => Ok (Series (map (fun r => nth i r NA) (rows df)))
  | ps => Ok (Frame (map (fun i => map (fun r => nth i r NA) (rows df)) ps))
  end.

(** [.nunique()]: an integer on a Series; on a frame, one count for each
    column (a Series of counts). *)
Inductive counts : Type :=
| Count (n : nat)
| CountPerColumn (ns : list nat).

Definition nunique_of (s : selection) : counts :=
  match s with
  | Series c => Count (nunique c)
  | Frame cs => CountPerColumn (map nunique cs)
  end.

(** What [calcular_percentual_conclusao_diretores] returns: a float, or a
    Series of floats when the coordinator table has several ESCOLA
    columns. *)
Inductive percentage : Type :=
| Float (v : fval)
| FloatSeries (vs : list fval).

(** [calcular_percentual_conclusao_diretores].  Both counts are computed
    first.  The test [total_escolas == 0] raises on a Series of counts
    (the totals table has several ESCOLA columns); the division is
    element-wise on a Series of counts of the coordinator table. *)
Definition calcular_percentual_conclusao_diretores (df_coord df_total : DataFrame)
  : result percentage :=
  escola_t <- getitem ESCOLA df_total ;;
  let total_escolas := nunique_of escola_t in
  tem <- getcol TEM_COORDENADOR df_coord ;;
  mask <- as_mask tem ;;
  escola_c <- getitem ESCOLA (filter_rows mask df_coord) ;;
  let escolas_com_coord := nunique_of escola_c in
  match total_escolas with
  | CountPerColumn _ => Err ValueError
  | Count total =>
      let pct com :=
        FFin (inject_Z (Z.of_nat com) / inject_Z (Z.of_nat total) * 100) in
      if Nat.eqb total 0 then Ok (Float (FFin 0))
      else
        match escolas_com_coord with
        | Count com => Ok (Float (pct com))
        | CountPerColumn coms => Ok (FloatSeries (map pct coms))
        end
  end.

(** A row of the summaries of [agg_por_gre] and [agg_por_polo]; [chave] is
    the GRE or POLO column. *)
Record AggRow : Type := mkAgg {
  chave : cell;
  total_escolas : nat;
  escolas_com_coord : nat;
  perc_com_coord : fval
}.

(** [pd.merge(totais, com_coord, on=..., how="left").fillna(0)] followed by
    the percentage column. *)
Definition resumo_rows (totais com_coord : list (cell * nat)) : list AggRow :=
  map (fun p =>
         let c := match snd p with Some kc => snd kc | None => 0 end in
         let t := snd (fst p) in
         mkAgg (fst (fst p)) t c (f_fillna0 (f_mul100 (f_div_counts c t))))
      (left_join fst fst totais com_coord).

Definition sort_by_perc (l : list AggRow) : list AggRow :=
  sort (fun x y => desc_first (perc_com_coord x) (perc_com_coord y)) l.

Definition agg_por_gre (df_coord df_total : DataFrame) : result (list AggRow) :=
  gre_totais <- groupby_nunique_df GRE ESCOLA df_total ;;
  tem <- getcol TEM_COORDENADOR df_coord ;;
  mask <- as_mask tem ;;
  gre_com_coord <- groupby_nunique_df GRE ESCOLA (filter_rows mask df_coord) ;;
  Ok (sort_by_perc (resumo_rows gre_totais gre_com_coord)).

Definition eq_mask (col : list cell) (v : cell) : list bool :=
  map (fun c => py_eq c v) col.

Fixpoint and_mask (a b : list bool) : list bool :=
  match a, b with
  | x :: a', y :: b' => (x && y) :: and_mask a' b'
  | _, _ => []
  end.

Definition agg_por_polo (df_coord df_total : DataFrame) (gre : cell)
  : result (list AggRow) :=
  gre_t <- getcol GRE df_total ;;
  total_polos <-
    groupby_nunique_df POLO ESCOLA (filter_rows (eq_mask gre_t gre) df_total) ;;
  gre_c <- getcol GRE df_coord ;;
  tem <- getcol TEM_COORDENADOR df_coord ;;
  mask <- as_mask tem ;;
  polos_com_coord <-
    groupby_nunique_df POLO ESCOLA
      (filter_rows (and_mask (eq_mask gre_c gre) mask) df_coord) ;;
  Ok (sort_by_perc (resumo_rows total_polos polos_com_coord)).

(** The rows of the totals table of one region and hub. *)
Definition registros_do_polo (df_total : DataFrame) (gre polo : cell)
  : result DataFrame :=
  gre_t <- getcol GRE df_total ;;
  polo_t <- getcol POLO df_total ;;
  Ok (filter_rows (and_mask (eq_mask gre_t gre) (eq_mask polo_t polo)) df_total).

Record StatusRow : Type := mkStatus {
  status : cell;
  qtd_registros : nat;
  percentual : fval
}.

(** [resumo["qtd_registros"].sum()]. *)
Definition sum_qtd (l : list (cell * nat)) : nat :=
  list_sum (map snd l).

Definition resumo_status_polo (df_coord df_total : DataFrame) (gre polo : cell)
  : result (list StatusRow * DataFrame) :=
  total_registros_polo <- registros_do_polo df_total gre polo ;;
  escola_c <- getcol ESCOLA df_coord ;;
  tem_c <- getcol TEM_COORDENADOR df_coord ;;
  flags <- as_mask tem_c ;;
  let mapa_coord := groupby_max (combine escola_c flags) in
  escola <- getcol ESCOLA total_registros_polo ;;
  let total_registros_polo :=
    setcol TEM_COORDENADOR
           (map (fun e => fillna (Bool false) (map_dict mapa_coord e)) escola)
           total_registros_polo in
  tem <- getcol TEM_COORDENADOR total_registros_polo ;;
  let total_registros_polo :=
    setcol STATUS_COORDENADOR (map status_of tem) total_registros_polo in
  st <- getcol STATUS_COORDENADOR total_registros_polo ;;
  let resumo := groupby_size st in
  let total := sum_qtd resumo in
  Ok (map (fun p => mkStatus (fst p) (snd p)
                      (f_fillna0 (f_mul100 (f_div_counts (snd p) total))))
          resumo,
      total_registros_polo).

(* ================================================================= *)
(** ** Merging frames *)

Fixpoint drop_nth {A} (n : nat) (l : list A) : list A :=
  match n, l with
  | _, [] => []
  | O, _ :: l' => l'
  | S n', x :: l' => x :: drop_nth n' l'
  end.

(** The [renamer] of [merge]: a label present on both sides, the key
    excepted, receives the suffix of its side.  Such a label is a label of
    the right frame, a string in this program. *)
Definition add_suffix (sfx : pystr) (c : cell) : cell :=
  match c with
  | Str s => Str (s ++ sfx)
  | _ => c
  end.

Definition renamer (to_rename : cell -> bool) (sfx : pystr) (c : cell) : cell :=
  if to_rename c then add_suffix sfx c else c.

(** [Index.duplicated()]: true at a position whose value occurred before. *)
Fixpoint duplicated_from (seen l : list cell) : list bool :=
  match l with
  | [] => []
  | c :: l' => existsb (cell_eqb c) seen :: duplicated_from (c :: seen) l'
  end.

Definition duplicated (l : list cell) : list bool := duplicated_from [] l.

(** Duplicates among the renamed labels that the original labels did not
    have: [merge] refuses them. *)
Definition suffix_dups (orig renamed : list cell) : bool :=
  existsb (fun p => fst p && negb (snd p))
          (combine (duplicated renamed) (duplicated orig)).

(** [left.merge(right, how="left", left_on=key, right_on=key)]: one key
    column, at its place in the left frame; the other columns of the right
    frame follow those of the left. *)
Definition merge_left_on (key : cell) (left right : DataFrame)
  : result DataFrame :=
  match positions key (columns left) with
  | [] => Err (KeyError key)
  | [i] =>
      match positions key (columns right) with
      | [] => Err (KeyError key)
      | [j] =>
          let lcols := columns left in
          let rcols := drop_nth j (columns right) in
          let to_rename c :=
            existsb (cell_eqb c) lcols && existsb (cell_eqb c) rcols in
          let llabels := map (renamer to_rename (py "_x")) lcols in
          let rlabels := map (renamer to_rename (py "_y")) rcols in
          if suffix_dups lcols llabels || suffix_dups rcols rlabels
          then Err MergeError
          else
            Ok (mkDF (llabels ++ rlabels)
                  (map (fun p =>
                          fit (length lcols) (fst p) ++
                          match snd p with
                          | Some r =>
                              drop_nth j (fit (length (columns right)) r)
                          | None => repeat NA (length rcols)
                          end)
                       (left_join (fun r => nth i r NA) (fun r => nth j r NA)
                                  (rows left) (rows right))))
      | _ => Err (NotASeries key)
      end
  | _ => Err (NotASeries key)
  end.

(** The auxiliary table of [detalhe_escolas]:
    [df_coord.groupby("ESCOLA").agg({...}).reset_index()]. *)
Definition aux_por_escola (df_coord : DataFrame) : result DataFrame :=
  escola <- getcol ESCOLA df_coord ;;
  inep <- getcol INEP df_coord ;;
  coord <- getcol COORDENADOR df_coord ;;
  tem <- getcol TEM_COORDENADOR df_coord ;;
  flags <- as_mask tem ;;
  st <- getcol STATUS_COORDENADOR df_coord ;;
  Ok (mkDF [ESCOLA; INEP; COORDENADOR; TEM_COORDENADOR; STATUS_COORDENADOR]
        (map (fun k =>
                [k;
                 first_valid (group_of k (combine escola inep));
                 first_valid (group_of k (combine escola coord));
                 Bool (existsb (fun b => b) (group_of k (combine escola flags)));
                 first_valid (group_of k (combine escola st))])
             (group_keys escola))).

Definition colunas_finais (registros : DataFrame) : list cell :=
  (if has_label GRE registros then [GRE] else []) ++
  (if has_label POLO registros then [POLO] else []) ++
  [ESCOLA] ++
  (if has_label INEP registros then [INEP] else []) ++
  [COORDENADOR; STATUS_COORDENADOR].

Definition detalhe_escolas (df_coord df_total : DataFrame) (gre polo : cell)
  : result DataFrame :=
  registros <- registros_do_polo df_total gre polo ;;
  aux <- aux_por_escola df_coord ;;
  registros <- merge_left_on ESCOLA registros aux ;;
  st <- getcol STATUS_COORDENADOR registros ;;
  let registros :=
    setcol STATUS_COORDENADOR (map (fillna Sem_Coordenador) st) registros in
  co <- getcol COORDENADOR registros ;;
  let registros :=
    setcol COORDENADOR (map (fillna (Str Sem_informacao)) co) registros in
  select (colunas_finais registros) registros.

(* ================================================================= *)
(** ** Worked tables *)

Module Examples.

(** A text cell from an ASCII literal. *)
Definition txt (s : string) : cell := Str (py s).

(** The sheet of the coordinators as [read_excel] returns it: the real
    header is the first data row. *)
Definition raw_coord : DataFrame :=
  mkDF [txt "Unnamed: 0"; txt "Unnamed: 1"; txt "Unnamed: 2"; txt "Unnamed: 3";
        txt "Unnamed: 4"; txt "Unnamed: 5"]
    [ [txt "GRE"; txt "INEP"; txt "ESCOLA"; txt "REDE"; txt "POLO";
       txt "NOME DO COORDENADOR"];
      [txt "R1"; Num 1; txt "A"; txt "EST"; txt "P1";
       Str (py "  Sem Informa" ++ [199%N; 195%N] ++ py "O ")];
      [txt "R1"; Num 2; txt "B"; txt "EST"; txt "P1"; Str (py "Jo" ++ [227%N] ++ py "o")];
      [txt "R1"; Num 4; txt "D"; txt "EST"; txt "P1"; NA];
      [txt "R2"; Num 5; txt "E"; txt "EST"; txt "P2"; txt "Maria"] ].

Definition df_total : DataFrame :=
  mkDF [txt "GRE"; txt "POLO"; txt "ESCOLA"; txt "TURMA"]
    [ [txt "R1"; txt "P1"; txt "A"; txt "T1"];
      [txt "R1"; txt "P1"; txt "B"; txt "T1"];
      [txt "R1"; txt "P1"; txt "B"; txt "T2"];
      [txt "R1"; txt "P1"; txt "C"; txt "T1"];
      [txt "R3"; txt "P9"; txt "Z"; txt "T1"] ].

Definition df_total_inep : DataFrame :=
  mkDF [txt "GRE"; txt "POLO"; txt "ESCOLA"; txt "INEP"]
    [ [txt "R1"; txt "P1"; txt "A"; Num 1];
      [txt "R1"; txt "P1"; txt "B"; Num 2] ].

Definition df_total_sem_gre : DataFrame :=
  mkDF [txt "POLO"; txt "ESCOLA"]
    [ [txt "P1"; txt "A"] ].

Definition df_coord : DataFrame :=
  match load_data_coordenadores lower_latin1 raw_coord with
  | Ok df => df
  | Err _ => mkDF [] []
  end.

(** Two schools with a coordinator, and a totals table that knows only
    one of them. *)
Definition raw_coord_ab : DataFrame :=
  mkDF [txt "Unnamed: 0"; txt "Unnamed: 1"; txt "Unnamed: 2"; txt "Unnamed: 3";
        txt "Unnamed: 4"; txt "Unnamed: 5"]
    [ [txt "GRE"; txt "INEP"; txt "ESCOLA"; txt "REDE"; txt "POLO"; txt "COORDENADOR"];
      [txt "R1"; Num 1; txt "A"; txt "EST"; txt "P1"; txt "Ana"];
      [txt "R1"; Num 2; txt "B"; txt "EST"; txt "P1"; txt "Bia"] ].

Definition df_coord_ab : DataFrame :=
  match load_data_coordenadores lower_latin1 raw_coord_ab with
  | Ok df => df
  | Err _ => mkDF [] []
  end.

Definition df_total_a : DataFrame :=
  mkDF [txt "GRE"; txt "POLO"; txt "ESCOLA"]
    [ [txt "R1"; txt "P1"; txt "A"] ].

(** The scenario of the specification: region R1 with the schools A, B
    and C; A is marked "Sem informação" and B has a coordinator. *)
Definition raw_coord_cenario : DataFrame :=
  mkDF [txt "Unnamed: 0"; txt "Unnamed: 1"; txt "Unnamed: 2"; txt "Unnamed: 3";
        txt "Unnamed: 4"; txt "Unnamed: 5"]
    [ [txt "GRE"; txt "INEP"; txt "ESCOLA"; txt "REDE"; txt "POLO";
       txt "NOME DO COORDENADOR"];
      [txt "R1"; Num 1; txt "A"; txt "EST"; txt "P1";
       Str (py "Sem informa" ++ [231%N; 227%N] ++ py "o")];
      [txt "R1"; Num 2; txt "B"; txt "EST"; txt "P1";
       Str (py "Jo" ++ [227%N] ++ py "o")] ].

Definition df_coord_cenario : DataFrame :=
  match load_data_coordenadores lower_latin1 raw_coord_cenario with
  | Ok df => df
  | Err _ => mkDF [] []
  end.

Definition df_total_cenario : DataFrame :=
  mkDF [txt "GRE"; txt "POLO"; txt "ESCOLA"]
    [ [txt "R1"; txt "P1"; txt "A"];
      [txt "R1"; txt "P1"; txt "B"];
      [txt "R1"; txt "P1"; txt "C"] ].

End Examples.

(* ================================================================= *)
(** ** Notions of the specification *)

(** "The number of distinct schools (regions, ...) of a column is [n]": the
    values that are present, each counted once. *)
Definition distinct_count (l : list cell) (n : nat) : Prop :=
  exists u, NoDup u /\ (forall x, In x u <-> In x l /\ x <> NA) /\ length u = n.

(** "The schools of the coordinator table whose has_coordinator flag is
    true": the school of every row whose flag cell is [True]. *)
Definition flagged (escola tem : list cell) : list cell :=
  map fst (filter (fun p => cell_eqb (snd p) (Bool true)) (combine escola tem)).

(** "The coordinator value, trimmed and lower-cased, equals the sentinel". *)
Definition no_information (lower : pystr -> pystr) (c : cell) : Prop :=
  exists s, c = Str s /\ lower (strip s) = sem_informacao.

(** "Sorted by percentage in descending order": every row's percentage is
    greater than or equal to the next row's. *)
Definition desc_by_perc (l : list AggRow) : Prop :=
  forall i x y,
    nth_error l i = Some x -> nth_error l (S i) = Some y ->
    f_geb (perc_com_coord x) (perc_com_coord y) = true.

(** The rows of the totals table "whose region and hub equal the selected
    region and hub", counted on the two columns. *)
Definition count_region_hub (gre_col polo_col : list cell) (gre polo : cell)
  : nat :=
  length (filter (fun p => py_eq (fst p) gre && py_eq (snd p) polo)
                 (combine gre_col polo_col)).

(** The number of rows of a column that hold [k]. *)
Definition count_cell (l : list cell) (k : cell) : nat :=
  length (filter (cell_eqb k) l).

(** The status column that the summarizer groups by: the label of the flag
    looked up for each school, [False] when the school is unknown. *)
Definition status_do_polo (mapa_coord : list (cell * bool))
    (escola : list cell) : list cell :=
  map status_of
      (map (fun e => fillna (Bool false) (map_dict mapa_coord e)) escola).

(** "The table has exactly one column with this label." *)
Definition has_once (l : cell) (df : DataFrame) : bool :=
  Nat.eqb (length (positions l (columns df))) 1.

Definition bool_column (l : cell) (df : DataFrame) : bool :=
  match getcol l df with
  | Ok c => match as_mask c with Ok _ => true | Err _ => false end
  | Err _ => false
  end.

(** A coordinator table as the loader produces it from a sheet with the
    expected header: the columns that [detalhe_escolas] reads, the flag
    being boolean. *)
Definition coord_table_ok (df : DataFrame) : bool :=
  has_once ESCOLA df && has_once INEP df && has_once COORDENADOR df
  && has_once STATUS_COORDENADOR df && bool_column TEM_COORDENADOR df.

(** A totals table with the three structural columns and none of the
    columns that the join brings in from the coordinator table. *)
Definition totals_table_ok (df : DataFrame) : bool :=
  has_once GRE df && has_once POLO df && has_once ESCOLA df
  && negb (has_label INEP df) && negb (has_label COORDENADOR df)
  && negb (has_label TEM_COORDENADOR df)
  && negb (has_label STATUS_COORDENADOR df).

(** The columns that the join brings in from the auxiliary table. *)
Definition aux_values : list cell :=
  [INEP; COORDENADOR; TEM_COORDENADOR; STATUS_COORDENADOR].

(* ================================================================= *)
(** ** The totals table loader and the figures of the report *)

(** One step of [df.columns.str.strip().str.upper()] on a label: a label
    that is not a string becomes NaN. *)
Definition str_label (f : pystr -> pystr) (l : cell) : cell :=
  match l with
  | Str s => Str (f s)
  | _ => NA
  end.

(** [load_data_totais], from the frame that [pd.read_excel] returns.  The
    [.str] accessor first checks the labels as a whole and raises
    [AttributeError] ([None] here) when they do not qualify; that check
    ([str_ok]) and [str.upper] ([upper]) belong to the libraries and are
    parameters.  The rows are not touched. *)
Definition load_data_totais (str_ok : list cell -> bool)
    (upper : pystr -> pystr) (raw : DataFrame) : option DataFrame :=
  if str_ok (columns raw) then
    let stripped := map (str_label strip) (columns raw) in
    if str_ok stripped then
      Some (mkDF (map (str_label upper) stripped) (rows raw))
    else None
  else None.

(** The header that [load_data_coordenadores] installs: the first row of
    the sheet, renamed. *)
Definition cabecalho (raw : DataFrame) : list cell :=
  match rows raw with
  | [] => []
  | header :: _ => map rename_label (fit (length (columns raw)) header)
  end.

(** The three figures of the block "Resumo do Polo" of
    [mostrar_relatorio_alocacao_diretores]: [total_polo], [com_coord] and
    [sem_coord], computed from the summary of [resumo_status_polo].  The
    counts are far below the range of int64. *)
Definition resumo_do_polo (resumo_status : list StatusRow) : Z * Z * Z :=
  let total_polo :=
    Z.of_nat (list_sum (map qtd_registros resumo_status)) in
  let com_coord :=
    Z.of_nat (list_sum (map qtd_registros
                (filter (fun r => py_eq (status r) Com_Coordenador)
                        resumo_status))) in
  let sem_coord := (total_polo - com_coord)%Z in
  (total_polo, com_coord, sem_coord).

(* ================================================================= *)
(** ** Further notions used in the statements *)

(** "[n] distinct present values satisfy [P]". *)
Definition distinct_where (P : cell -> Prop) (n : nat) : Prop :=
  exists u, NoDup u /\ (forall e, In e u <-> P e /\ e <> NA) /\ length u = n.

(** "Some row of the coordinator table names this school with a true
    flag." *)
Definition escola_com_coordenador (escola tem : list cell) (e : cell) : bool :=
  negb (isna e) &&
  existsb (fun p => cell_eqb e (fst p) && cell_eqb (snd p) (Bool true))
          (combine escola tem).

(** "The first value that is present among the rows of the coordinator
    table that name this school"; missing when there is none or when the
    school itself is missing. *)
Definition primeiro_da_escola (escola vals : list cell) (e : cell) : cell :=
  if isna e then NA else first_valid (group_of e (combine escola vals)).

(** The percentage that the aggregators attach to a pair of counts. *)
Definition perc_of (com total : nat) : fval :=
  match total, com with
  | O, O => FFin 0
  | O, S _ => FInf false
  | S _, _ => FFin (inject_Z (Z.of_nat com) / inject_Z (Z.of_nat total) * 100)
  end.

(* ================================================================= *)
(** ** Further worked tables *)

Module Casos.

(** [str.upper] restricted to Basic Latin and Latin-1 Supplement; three
    code points of that range leave it or grow (U+00B5, U+00DF, U+00FF). *)
Definition upper_cp_latin1 (c : N) : list N :=
  (if (97 <=? c) && (c <=? 122) then [c - 32]
   else if c =? 181 then [924]
   else if c =? 223 then [83; 83]
   else if (224 <=? c) && (c <=? 254) && negb (c =? 247) then [c - 32]
   else if c =? 255 then [376]
   else [c])%N.

Definition upper_latin1 (s : pystr) : pystr := flat_map upper_cp_latin1 s.

(** The check of the [.str] accessor on a header made of strings, which it
    accepts. *)
Definition header_of_strings (l : list cell) : bool :=
  forallb (fun c => match c with Str _ => true | _ => false end) l.

(** The columns of [Examples.df_total] and of [Examples.df_coord]. *)
Definition gre_t : list cell :=
  map Examples.txt ["R1"; "R1"; "R1"; "R1"; "R3"]%string.
Definition polo_t : list cell :=
  map Examples.txt ["P1"; "P1"; "P1"; "P1"; "P9"]%string.
Definition escola_t : list cell :=
  map Examples.txt ["A"; "B"; "B"; "C"; "Z"]%string.
Definition gre_c : list cell :=
  map Examples.txt ["R1"; "R1"; "R1"; "R2"]%string.
Definition polo_c : list cell :=
  map Examples.txt ["P1"; "P1"; "P1"; "P2"]%string.
Definition escola_c : list cell :=
  map Examples.txt ["A"; "B"; "D"; "E"]%string.
Definition inep_c : list cell := [Num 1; Num 2; Num 4; Num 5].
Definition flags_c : list bool := [false; true; true; true].
Definition tem_c : list cell := map Bool flags_c.
Definition coordenador_c : list cell :=
  [Str (py "  Sem Informa" ++ [199%N; 195%N] ++ py "O ");
   Str (py "Jo" ++ [227%N] ++ py "o"); NA; Examples.txt "Maria"].

(** Sheets that the coordinator table loader refuses. *)
Definition sheet_vazia : DataFrame :=
  mkDF [Examples.txt "Unnamed: 0"; Examples.txt "Unnamed: 1"] [].

Definition sheet_sem_coordenador : DataFrame :=
  mkDF [Examples.txt "Unnamed: 0"; Examples.txt "Unnamed: 1"]
    [ [Examples.txt "GRE"; Examples.txt "ESCOLA"];
      [Examples.txt "R1"; Examples.txt "A"] ].

Definition sheet_dois_nomes : DataFrame :=
  mkDF [Examples.txt "Unnamed: 0"; Examples.txt "Unnamed: 1";
        Examples.txt "Unnamed: 2"]
    [ [Examples.txt "ESCOLA"; Examples.txt "NOME DO COORDENADOR";
       Examples.txt "COORDENADOR"];
      [Examples.txt "A"; Examples.txt "Ana"; Examples.txt "Ana"] ].


(** A sheet that names the school column twice: the loader accepts it and
    the loaded table has two ESCOLA columns. *)
Definition sheet_duas_escolas : DataFrame :=
  mkDF [Examples.txt "Unnamed: 0"; Examples.txt "Unnamed: 1";
        Examples.txt "Unnamed: 2"; Examples.txt "Unnamed: 3"]
    [ [Examples.txt "GRE"; Examples.txt "ESCOLA"; Examples.txt "ESCOLA";
       Examples.txt "NOME DO COORDENADOR"];
      [Examples.txt "R1"; Examples.txt "A"; Examples.txt "A";
       Examples.txt "Ana"];
      [Examples.txt "R1"; Examples.txt "B"; Examples.txt "A";
       Examples.txt "Rui"] ].

Definition df_coord_duas_escolas : DataFrame :=
  match load_data_coordenadores lower_latin1 sheet_duas_escolas with
  | Ok df => df
  | Err _ => mkDF [] []
  end.

(** A sheet that already names STATUS_COORDENADOR twice and has two data
    rows, as many as such columns. *)
Definition sheet_status_repetido : DataFrame :=
  mkDF [Examples.txt "Unnamed: 0"; Examples.txt "Unnamed: 1";
        Examples.txt "Unnamed: 2"]
    [ [Examples.txt "NOME DO COORDENADOR"; Examples.txt "STATUS_COORDENADOR";
       Examples.txt "STATUS_COORDENADOR"];
      [Examples.txt "Ana"; Examples.txt "x"; Examples.txt "y"];
      [Str (py "sem informa" ++ [231%N; 227%N] ++ py "o"); Examples.txt "z";
       Examples.txt "w"] ].

(** Totals sheets as [read_excel] returns them, before the header is
    normalised. *)
Definition raw_total : DataFrame :=
  mkDF [Examples.txt " gre "; Examples.txt "Polo"; Examples.txt "escola"]
    [ [Examples.txt "R1"; Examples.txt "P1"; Examples.txt "A"];
      [Examples.txt "R1"; Examples.txt "P1"; Examples.txt "B"] ].

Definition raw_total_dup : DataFrame :=
  mkDF [Examples.txt "GRE"; Examples.txt "gre "; Examples.txt "POLO";
        Examples.txt "ESCOLA"]
    [ [Examples.txt "R1"; Examples.txt "R1"; Examples.txt "P1";
       Examples.txt "A"] ].

(** A coordinator sheet that lists school B twice, first without and then
    with a coordinator. *)
Definition raw_coord_repetida : DataFrame :=
  mkDF [Examples.txt "Unnamed: 0"; Examples.txt "Unnamed: 1";
        Examples.txt "Unnamed: 2"; Examples.txt "Unnamed: 3";
        Examples.txt "Unnamed: 4"; Examples.txt "Unnamed: 5"]
    [ [Examples.txt "GRE"; Examples.txt "INEP"; Examples.txt "ESCOLA";
       Examples.txt "REDE"; Examples.txt "POLO";
       Examples.txt "NOME DO COORDENADOR"];
      [Examples.txt "R1"; Num 1; Examples.txt "A"; Examples.txt "EST";
       Examples.txt "P1"; Examples.txt "Ana"];
      [Examples.txt "R1"; Num 2; Examples.txt "B"; Examples.txt "EST";
       Examples.txt "P1"; Str (py "Sem informa" ++ [231%N; 227%N] ++ py "o")];
      [Examples.txt "R1"; Num 2; Examples.txt "B"; Examples.txt "EST";
       Examples.txt "P1"; Str (py "Jo" ++ [227%N] ++ py "o")] ].

Definition df_coord_repetida : DataFrame :=
  match load_data_coordenadores lower_latin1 raw_coord_repetida with
  | Ok df => df
  | Err _ => mkDF [] []
  end.

End Casos.

(* ================================================================= *)
(** * Properties *)

(** ** Equality tests *)

Lemma pystr_eqb_eq (a b : pystr) : PyStr.eqb a b = true <-> a = b.
Proof.
  revert b. induction a as [|x a IH]; intros [|y b]; simpl; split;
    try congruence; try reflexivity.
  - intros H. apply andb_true_iff in H. destruct H as [Hx Hab].
    apply N.eqb_eq in Hx. apply IH in Hab. congruence.
  - intros H. injection H as -> ->. rewrite N.eqb_refl. simpl.
    apply IH. reflexivity.
Qed.

Lemma cell_eqb_eq (a b : cell) : cell_eqb a b = true <-> a = b.
Proof.
  destruct a, b; simpl; split; try congruence; try reflexivity.
  - intros H. apply pystr_eqb_eq in H. congruence.
  - intros H. injection H as ->. apply pystr_eqb_eq. reflexivity.
  - intros H. apply Z.eqb_eq in H. congruence.
  - intros H. injection H as ->. apply Z.eqb_refl.
  - intros H. apply Bool.eqb_prop in H. congruence.
  - intros H. injection H as ->. apply Bool.eqb_reflx.
Qed.

Lemma cell_eqb_refl (a : cell) : cell_eqb a a = true.
Proof. apply cell_eqb_eq. reflexivity. Qed.

Lemma cell_eqb_neq (a b : cell) : cell_eqb a b = false <-> a <> b.
Proof.
  split.
  - intros H E. apply cell_eqb_eq in E. congruence.
  - intros H. destruct (cell_eqb a b) eqn:E; [|reflexivity].
    apply cell_eqb_eq in E. contradiction.
Qed.

Lemma cell_eqb_sym (a b : cell) : cell_eqb a b = cell_eqb b a.
Proof.
  destruct (cell_eqb a b) eqn:E.
  - apply cell_eqb_eq in E. subst. symmetry. apply cell_eqb_refl.
  - symmetry. apply cell_eqb_neq. apply cell_eqb_neq in E. congruence.
Qed.

Lemma cell_eq_dec (a b : cell) : {a = b} + {a <> b}.
Proof.
  destruct (cell_eqb a b) eqn:E.
  - left. apply cell_eqb_eq. exact E.
  - right. apply cell_eqb_neq. exact E.
Qed.

Lemma existsb_cell_eqb (x : cell) (l : list cell) :
  existsb (cell_eqb x) l = true <-> In x l.
Proof.
  rewrite existsb_exists. split.
  - intros [y [Hy E]]. apply cell_eqb_eq in E. congruence.
  - intros H. exists x. split; [exact H | apply cell_eqb_refl].
Qed.

(** ** The error monad *)

Lemma bind_Ok_inv {A B} (m : result A) (f : A -> result B) (b : B) :
  bind m f = Ok b -> exists a, m = Ok a /\ f a = Ok b.
Proof.
  destruct m as [a|e]; simpl; intros H; [|discriminate].
  exists a. split; [reflexivity | exact H].
Qed.

Ltac inv_bind H :=
  let x := fresh "x" in
  let Hx := fresh "Hx" in
  apply bind_Ok_inv in H; destruct H as [x [Hx H]].

(** ** Column lookup *)

Lemma positions_from_app (i : nat) (l : cell) (a b : list cell) :
  positions_from i l (a ++ b) =
  positions_from i l a ++ positions_from (i + length a) l b.
Proof.
  revert i. induction a as [|c a IH]; intros i; simpl.
  - rewrite Nat.add_0_r. reflexivity.
  - rewrite IH. replace (S i + length a) with (i + S (length a)) by lia.
    destruct (cell_eqb l c); reflexivity.
Qed.

Lemma positions_from_In (i : nat) (l : cell) (cols : list cell) (p : nat) :
  In p (positions_from i l cols) ->
  i <= p /\ p - i < length cols /\ nth (p - i) cols NA = l.
Proof.
  revert i. induction cols as [|c cols IH]; intros i; simpl; [tauto|].
  destruct (cell_eqb l c) eqn:E.
  - intros [<- | H].
    + rewrite Nat.sub_diag. apply cell_eqb_eq in E. repeat split; auto; lia.
    + apply IH in H. destruct H as [H1 [H2 H3]].
      replace (p - i) with (S (p - S i)) by lia. repeat split; auto; lia.
  - intros H. apply IH in H. destruct H as [H1 [H2 H3]].
    replace (p - i) with (S (p - S i)) by lia. repeat split; auto; lia.
Qed.

Lemma positions_In (l : cell) (cols : list cell) (p : nat) :
  In p (positions l cols) -> p < length cols /\ nth p cols NA = l.
Proof.
  intros H. apply positions_from_In in H. rewrite Nat.sub_0_r in H. tauto.
Qed.

Lemma positions_from_nil (i : nat) (l : cell) (cols : list cell) :
  positions_from i l cols = [] <-> existsb (cell_eqb l) cols = false.
Proof.
  revert i. induction cols as [|c cols IH]; intros i; simpl; [tauto|].
  destruct (cell_eqb l c); simpl; [split; discriminate | apply IH].
Qed.

Lemma positions_nil (l : cell) (cols : list cell) :
  positions l cols = [] <-> ~ In l cols.
Proof.
  unfold positions. rewrite positions_from_nil.
  rewrite <- existsb_cell_eqb. destruct (existsb (cell_eqb l) cols);
    split; congruence.
Qed.

Lemma positions_from_shift (i : nat) (l : cell) (cols : list cell) :
  positions_from (S i) l cols = map S (positions_from i l cols).
Proof.
  revert i. induction cols as [|c cols IH]; intros i; simpl; [reflexivity|].
  rewrite IH. destruct (cell_eqb l c); reflexivity.
Qed.

Lemma getcol_inv (l : cell) (df : DataFrame) (c : list cell) :
  getcol l df = Ok c ->
  exists i, positions l (columns df) = [i] /\
            i < length (columns df) /\
            c = map (fun r => nth i r NA) (rows df).
Proof.
  unfold getcol. destruct (positions l (columns df)) as [|i [|j ps]] eqn:E;
    try discriminate.
  intros H. injection H as <-. exists i. repeat split.
  apply (positions_In l). rewrite E. left. reflexivity.
Qed.

Lemma getcol_length (l : cell) (df : DataFrame) (c : list cell) :
  getcol l df = Ok c -> length c = length (rows df).
Proof.
  intros H. apply getcol_inv in H. destruct H as [i [_ [_ ->]]].
  apply length_map.
Qed.

Lemma getcol_of_positions (l : cell) (df : DataFrame) (i : nat) :
  positions l (columns df) = [i] ->
  getcol l df = Ok (map (fun r => nth i r NA) (rows df)).
Proof. intros H. unfold getcol. rewrite H. reflexivity. Qed.

(** ** Boolean indexing *)

Lemma filter_by_map {A B} (f : A -> B) (m : list bool) (l : list A) :
  filter_by m (map f l) = map f (filter_by m l).
Proof.
  revert l. induction m as [|b m IH]; intros [|x l]; simpl; try reflexivity.
  rewrite IH. destruct b; reflexivity.
Qed.

Lemma filter_by_combine {A B} (m : list bool) (a : list A) (b : list B) :
  filter_by m (combine a b) = combine (filter_by m a) (filter_by m b).
Proof.
  revert a b. induction m as [|x m IH]; intros [|u a] [|v b]; simpl;
    try reflexivity.
  - destruct (if x then u :: filter_by m a else filter_by m a); reflexivity.
  - rewrite IH. destruct x; reflexivity.
Qed.

Lemma filter_by_In {A} (m : list bool) (l : list A) (x : A) :
  In x (filter_by m l) -> In x l.
Proof.
  revert l. induction m as [|b m IH]; intros [|y l]; simpl; try tauto.
  destruct b; simpl; intros H.
  - destruct H as [H | H]; [left; exact H | right; apply IH; exact H].
  - right. apply IH. exact H.
Qed.

Lemma getcol_filter_rows (l : cell) (m : list bool) (df : DataFrame) :
  getcol l (filter_rows m df) =
  (c <- getcol l df ;; Ok (filter_by m c)).
Proof.
  unfold getcol, filter_rows. simpl.
  destruct (positions l (columns df)) as [|i [|j ps]]; simpl; try reflexivity.
  rewrite filter_by_map. reflexivity.
Qed.

Lemma as_mask_length (c : list cell) (m : list bool) :
  as_mask c = Ok m -> length m = length c.
Proof.
  revert m. induction c as [|x c IH]; simpl; intros m H.
  - injection H as <-. reflexivity.
  - destruct x; try discriminate. inv_bind H. injection H as <-.
    simpl. f_equal. apply IH. exact Hx.
Qed.

Lemma as_mask_map_Bool (c : list cell) (m : list bool) :
  as_mask c = Ok m -> c = map Bool m.
Proof.
  revert m. induction c as [|x c IH]; simpl; intros m H.
  - injection H as <-. reflexivity.
  - destruct x; try discriminate. inv_bind H. injection H as <-.
    simpl. f_equal. apply IH. exact Hx.
Qed.

Lemma as_mask_of_Bool (m : list bool) : as_mask (map Bool m) = Ok m.
Proof.
  induction m as [|b m IH]; simpl; [reflexivity|]. rewrite IH. reflexivity.
Qed.

(** ** Column assignment *)

Lemma length_fit (n : nat) (r : list cell) : length (fit n r) = n.
Proof.
  unfold fit. rewrite length_firstn, length_app, repeat_length. lia.
Qed.

Lemma nth_fit (n i : nat) (r : list cell) :
  i < n -> nth i (fit n r) NA = nth i r NA.
Proof.
  intros Hi. unfold fit. rewrite nth_firstn.
  apply Nat.ltb_lt in Hi. rewrite Hi.
  destruct (Nat.lt_ge_cases i (length r)) as [Hlt | Hge].
  - apply app_nth1. exact Hlt.
  - rewrite app_nth2 by exact Hge. rewrite nth_repeat.
    symmetry. apply nth_overflow. exact Hge.
Qed.

Lemma nth_set_at (ps : list nat) (v : cell) (k i : nat) (r : list cell) :
  i < length r ->
  nth i (set_at ps v k r) NA =
  if existsb (Nat.eqb (k + i)) ps then v else nth i r NA.
Proof.
  revert k i. induction r as [|c r IH]; intros k i Hi; simpl in *; [lia|].
  destruct i as [|i].
  - rewrite Nat.add_0_r. reflexivity.
  - rewrite IH by lia. replace (S k + i) with (k + S i) by lia. reflexivity.
Qed.

Lemma map_combine_snd {A B C} (f : A -> B -> C) (g : C -> B)
    (a : list A) (b : list B) :
  length b = length a ->
  (forall x y, g (f x y) = y) ->
  map g (map (fun p => f (fst p) (snd p)) (combine a b)) = b.
Proof.
  intros Hlen Hg. revert b Hlen.
  induction a as [|x a IH]; intros [|y b] Hlen; simpl in *;
    try reflexivity; try discriminate.
  rewrite Hg. f_equal. apply IH. lia.
Qed.

Lemma map_combine_fst {A B C D} (f : A -> B -> C) (g : C -> D) (h : A -> D)
    (a : list A) (b : list B) :
  length b = length a ->
  (forall x y, g (f x y) = h x) ->
  map g (map (fun p => f (fst p) (snd p)) (combine a b)) = map h a.
Proof.
  intros Hlen Hg. revert b Hlen.
  induction a as [|x a IH]; intros [|y b] Hlen; simpl in *;
    try reflexivity; try discriminate.
  rewrite Hg. f_equal. apply IH. lia.
Qed.

Lemma nth_set_each (ps : list nat) (vals : list cell) (k i : nat)
    (r : list cell) :
  i < length r ->
  nth i (set_each ps vals k r) NA =
  match value_for (k + i) ps vals with
  | Some v => v
  | None => nth i r NA
  end.
Proof.
  revert k i. induction r as [|c r IH]; intros k i Hi; simpl in *; [lia|].
  destruct i as [|i].
  - rewrite Nat.add_0_r. reflexivity.
  - rewrite IH by lia. replace (S k + i) with (k + S i) by lia. reflexivity.
Qed.

Lemma value_for_In (i : nat) (ps : list nat) (vals : list cell) (v : cell) :
  value_for i ps vals = Some v -> In i ps.
Proof.
  revert vals. induction ps as [|p ps IH]; intros [|w vals] H; simpl in H;
    try discriminate.
  destruct (Nat.eqb i p) eqn:E.
  - left. symmetry. apply Nat.eqb_eq. exact E.
  - right. exact (IH _ H).
Qed.

(** The assignment that deals the values out to the duplicated columns
    needs two such columns at least. *)
Lemma setcol_single (l : cell) (vals : list cell) (df : DataFrame) :
  length (positions l (columns df)) <= 1 ->
  setcol l vals df =
  match positions l (columns df) with
  | [] =>
      mkDF (columns df ++ [l])
           (map (fun rv => fit (length (columns df)) (fst rv) ++ [snd rv])
                (combine (rows df) vals))
  | ps =>
      mkDF (columns df)
           (map (fun rv => set_at ps (snd rv) 0
                              (fit (length (columns df)) (fst rv)))
                (combine (rows df) vals))
  end.
Proof.
  intros H. unfold setcol.
  destruct (positions l (columns df)) as [|i [|j ps]]; simpl in H;
    try reflexivity; lia.
Qed.

Lemma setcol_rows_length (l : cell) (vals : list cell) (df : DataFrame) :
  length vals = length (rows df) ->
  length (rows (setcol l vals df)) = length (rows df).
Proof.
  intros H. unfold setcol.
  destruct (positions l (columns df)) as [|p ps].
  - simpl. rewrite length_map, length_combine. lia.
  - destruct (Nat.ltb 1 (length (p :: ps))
              && Nat.eqb (length (p :: ps)) (length vals)); cbn [rows].
    + apply length_map.
    + rewrite length_map, length_combine. lia.
Qed.

Lemma setcol_columns (l : cell) (vals : list cell) (df : DataFrame) :
  columns (setcol l vals df) =
  match positions l (columns df) with
  | [] => columns df ++ [l]
  | _ => columns df
  end.
Proof.
  unfold setcol. destruct (positions l (columns df)) as [|p ps];
    [reflexivity|].
  destruct (Nat.ltb 1 (length (p :: ps))
            && Nat.eqb (length (p :: ps)) (length vals)); reflexivity.
Qed.

Lemma positions_app_new (l : cell) (cols : list cell) :
  positions l cols = [] -> positions l (cols ++ [l]) = [length cols].
Proof.
  intros H. unfold positions in *. rewrite positions_from_app, H. simpl.
  rewrite cell_eqb_refl. reflexivity.
Qed.

Lemma positions_app_other (l l' : cell) (cols : list cell) :
  cell_eqb l' l = false -> positions l' (cols ++ [l]) = positions l' cols.
Proof.
  intros H. unfold positions. rewrite positions_from_app. simpl.
  rewrite H. apply app_nil_r.
Qed.

(** Reading back the column that was just assigned. *)
Lemma getcol_setcol_same (l : cell) (vals : list cell) (df : DataFrame) :
  length vals = length (rows df) ->
  length (positions l (columns df)) <= 1 ->
  getcol l (setcol l vals df) = Ok vals.
Proof.
  intros Hlen Hcnt. rewrite (setcol_single _ _ _ Hcnt).
  destruct (positions l (columns df)) as [|i [|j ps]] eqn:E;
    simpl in Hcnt; try lia.
  - unfold getcol. cbn [columns rows].
    rewrite (positions_app_new _ _ E). f_equal.
    apply (map_combine_snd (fun r v => fit (length (columns df)) r ++ [v])).
    + exact Hlen.
    + intros r v. rewrite app_nth2 by (rewrite length_fit; lia).
      rewrite length_fit, Nat.sub_diag. reflexivity.
  - unfold getcol. cbn [columns rows]. rewrite E. f_equal.
    assert (Hi : i < length (columns df)).
    { apply (positions_In l). rewrite E. left. reflexivity. }
    apply (map_combine_snd
             (fun r v => set_at [i] v 0 (fit (length (columns df)) r))).
    + exact Hlen.
    + intros r v. rewrite nth_set_at by (rewrite length_fit; exact Hi).
      simpl. rewrite Nat.eqb_refl. reflexivity.
Qed.

Lemma getcol_setcol_same_inv (l : cell) (vals c : list cell) (df : DataFrame) :
  length vals = length (rows df) ->
  getcol l (setcol l vals df) = Ok c -> c = vals.
Proof.
  intros Hlen H.
  destruct (Nat.le_gt_cases (length (positions l (columns df))) 1) as [Hc|Hc].
  - rewrite (getcol_setcol_same _ _ _ Hlen Hc) in H. congruence.
  - exfalso. unfold getcol in H. rewrite setcol_columns in H.
    destruct (positions l (columns df)) as [|i [|j ps]] eqn:E;
      simpl in Hc; try lia.
    rewrite E in H. discriminate.
Qed.

(** A column with another label is not affected. *)
Lemma getcol_setcol_other (l l' : cell) (vals : list cell) (df : DataFrame) :
  cell_eqb l' l = false ->
  length vals = length (rows df) ->
  getcol l' (setcol l vals df) = getcol l' df.
Proof.
  intros Hne Hlen. unfold setcol.
  destruct (positions l (columns df)) as [|p ps] eqn:E.
  - unfold getcol. cbn [columns rows].
    rewrite (positions_app_other _ _ _ Hne).
    destruct (positions l' (columns df)) as [|i [|j qs]] eqn:E';
      try reflexivity.
    f_equal.
    assert (Hi : i < length (columns df)).
    { apply (positions_In l'). rewrite E'. left. reflexivity. }
    apply (map_combine_fst
             (fun r v => fit (length (columns df)) r ++ [v])
             (fun r => nth i r NA) (fun r => nth i r NA)).
    + exact Hlen.
    + intros r v. rewrite app_nth1 by (rewrite length_fit; exact Hi).
      apply nth_fit. exact Hi.
  - assert (Hnot : forall i, In i (positions l' (columns df)) ->
                             ~ In i (p :: ps)).
    { intros i Hi Hq. rewrite <- E in Hq.
      apply positions_In in Hi. apply positions_In in Hq.
      destruct Hi as [_ Hi]. destruct Hq as [_ Hq].
      rewrite Hi in Hq. apply cell_eqb_neq in Hne. contradiction. }
    destruct (Nat.ltb 1 (length (p :: ps))
              && Nat.eqb (length (p :: ps)) (length vals));
      unfold getcol; cbn [columns rows];
      destruct (positions l' (columns df)) as [|i [|j qs]] eqn:E';
      try reflexivity; f_equal.
    + assert (Hi : i < length (columns df)).
      { apply (positions_In l'). rewrite E'. left. reflexivity. }
      rewrite map_map. apply map_ext. intros r.
      rewrite nth_set_each by (rewrite length_fit; exact Hi).
      rewrite Nat.add_0_l.
      destruct (value_for i (p :: ps) vals) as [v|] eqn:V.
      * exfalso. apply (Hnot i); [left; reflexivity|].
        exact (value_for_In _ _ _ _ V).
      * apply nth_fit. exact Hi.
    + assert (Hi : i < length (columns df)).
      { apply (positions_In l'). rewrite E'. left. reflexivity. }
      apply (map_combine_fst
               (fun r v => set_at (p :: ps) v 0 (fit (length (columns df)) r))
               (fun r => nth i r NA) (fun r => nth i r NA)).
      * exact Hlen.
      * intros r v. rewrite nth_set_at by (rewrite length_fit; exact Hi).
        rewrite Nat.add_0_l.
        destruct (existsb (Nat.eqb i) (p :: ps)) eqn:Ex.
        -- exfalso. apply existsb_exists in Ex. destruct Ex as [q [Hq Hiq]].
           apply Nat.eqb_eq in Hiq. subst q.
           apply (Hnot i); [left; reflexivity|exact Hq].
        -- apply nth_fit. exact Hi.
Qed.

(** ** Distinct values *)

Lemma remove_cell_In (x y : cell) (l : list cell) :
  In x (remove_cell y l) <-> In x l /\ x <> y.
Proof.
  unfold remove_cell. rewrite filter_In. split; intros [H1 H2]; split; auto.
  - apply negb_true_iff in H2. apply cell_eqb_neq in H2. congruence.
  - apply negb_true_iff. apply cell_eqb_neq. congruence.
Qed.

Lemma unique_In (x : cell) (l : list cell) : In x (unique l) <-> In x l.
Proof.
  induction l as [|y l IH]; simpl; [tauto|].
  rewrite remove_cell_In, IH.
  destruct (cell_eq_dec y x) as [E | E]; [tauto|].
  split; [tauto|]. intros [H | H]; [contradiction|]. right. split; congruence.
Qed.

Lemma NoDup_filter {A} (f : A -> bool) (l : list A) :
  NoDup l -> NoDup (filter f l).
Proof.
  induction 1 as [|x l Hx Hl IH]; simpl; [constructor|].
  destruct (f x); [|exact IH].
  constructor; [|exact IH]. intros H. apply filter_In in H. tauto.
Qed.

Lemma unique_NoDup (l : list cell) : NoDup (unique l).
Proof.
  induction l as [|y l IH]; simpl; constructor.
  - intros H. apply remove_cell_In in H. destruct H as [_ H]. congruence.
  - apply NoDup_filter. exact IH.
Qed.

Lemma dropna_In (x : cell) (l : list cell) :
  In x (dropna l) <-> In x l /\ x <> NA.
Proof.
  unfold dropna. rewrite filter_In.
  destruct x; simpl; split; intros [H1 H2]; split;
    auto; try congruence; try discriminate.
Qed.

Lemma nunique_distinct (l : list cell) : distinct_count l (nunique l).
Proof.
  exists (unique (dropna l)). split; [apply unique_NoDup|]. split.
  - intros x. rewrite unique_In. apply dropna_In.
  - reflexivity.
Qed.

Lemma distinct_count_unique (l : list cell) (n m : nat) :
  distinct_count l n -> distinct_count l m -> n = m.
Proof.
  intros [u [Hu [Hin <-]]] [v [Hv [Hin' <-]]].
  apply Permutation_length. apply NoDup_Permutation; auto.
  intros x. rewrite Hin, Hin'. tauto.
Qed.

Lemma distinct_count_nunique (l : list cell) (n : nat) :
  distinct_count l n -> n = nunique l.
Proof.
  intros H. exact (distinct_count_unique l _ _ H (nunique_distinct l)).
Qed.

(** A column whose present values all occur in another has no more distinct
    values. *)
Lemma nunique_incl (l l' : list cell) :
  (forall x, In x l -> x <> NA -> In x l') -> nunique l <= nunique l'.
Proof.
  intros H. unfold nunique. apply NoDup_incl_length; [apply unique_NoDup|].
  intros x Hx. rewrite unique_In, dropna_In in Hx.
  rewrite unique_In, dropna_In. destruct Hx as [H1 H2]. auto.
Qed.

(** ** Sorting *)

Section SortingFacts.
Context {A : Type} (first : A -> A -> bool).

Lemma insert_perm (x : A) (l : list A) :
  Permutation (insert first x l) (x :: l).
Proof.
  induction l as [|y l IH]; simpl; [reflexivity|].
  destruct (first x y); [reflexivity|].
  rewrite IH. apply perm_swap.
Qed.

Lemma sort_perm (l : list A) : Permutation (sort first l) l.
Proof.
  induction l as [|x l IH]; simpl; [reflexivity|].
  rewrite insert_perm. constructor. exact IH.
Qed.

Hypothesis first_total :
  forall x y, first x y = false -> first y x = true.

Lemma insert_sorted (x : A) (l : list A) :
  Sorted (fun a b => first a b = true) l ->
  Sorted (fun a b => first a b = true) (insert first x l).
Proof.
  induction l as [|y l IH]; simpl; intros Hs.
  - repeat constructor.
  - destruct (first x y) eqn:E.
    + constructor; [exact Hs | constructor; exact E].
    + apply Sorted_inv in Hs. destruct Hs as [Hs Hd].
      constructor; [apply IH; exact Hs|].
      destruct l as [|z l]; simpl.
      * constructor. apply first_total. exact E.
      * destruct (first x z).
        -- constructor. apply first_total. exact E.
        -- constructor. apply HdRel_inv in Hd. exact Hd.
Qed.

Lemma sort_sorted (l : list A) :
  Sorted (fun a b => first a b = true) (sort first l).
Proof.
  induction l as [|x l IH]; simpl; [constructor|].
  apply insert_sorted. exact IH.
Qed.
End SortingFacts.

Lemma Sorted_adjacent {A} (R : A -> A -> Prop) (l : list A) :
  Sorted R l ->
  forall i x y, nth_error l i = Some x -> nth_error l (S i) = Some y -> R x y.
Proof.
  induction 1 as [|a l Hs IH Hd]; intros i x y Hx Hy.
  - destruct i; discriminate.
  - destruct i as [|i]; simpl in *.
    + injection Hx as <-. destruct l as [|b l]; [discriminate|].
      simpl in Hy. injection Hy as <-. apply HdRel_inv in Hd. exact Hd.
    + apply (IH i); assumption.
Qed.

(** ** Group keys *)

Lemma group_keys_In (k : cell) (keys : list cell) :
  In k (group_keys keys) <-> In k keys /\ k <> NA.
Proof.
  unfold group_keys. split; intros H.
  - apply (Permutation_in _ (sort_perm cell_leb _)) in H.
    rewrite unique_In, dropna_In in H. exact H.
  - apply (Permutation_in _ (Permutation_sym (sort_perm cell_leb _))).
    rewrite unique_In, dropna_In. exact H.
Qed.

Lemma group_keys_NoDup (keys : list cell) : NoDup (group_keys keys).
Proof.
  unfold group_keys.
  apply (Permutation_NoDup (l := unique (dropna keys))).
  - symmetry. apply sort_perm.
  - apply unique_NoDup.
Qed.

Lemma group_keys_perm (keys : list cell) :
  Permutation (group_keys keys) (unique (dropna keys)).
Proof. apply sort_perm. Qed.

Lemma group_keys_length (keys : list cell) :
  length (group_keys keys) = nunique keys.
Proof. apply Permutation_length. apply group_keys_perm. Qed.

Lemma group_of_absent {A} (k : cell) (kv : list (cell * A)) :
  ~ In k (map fst kv) -> group_of k kv = [].
Proof.
  intros H. unfold group_of. induction kv as [|p kv IH]; simpl; [reflexivity|].
  destruct (cell_eqb k (fst p)) eqn:E.
  - exfalso. apply H. left. apply cell_eqb_eq in E. congruence.
  - apply IH. intros Hin. apply H. right. exact Hin.
Qed.

Lemma group_of_In {A} (k : cell) (kv : list (cell * A)) (v : A) :
  In v (group_of k kv) <-> In (k, v) kv.
Proof.
  unfold group_of. rewrite in_map_iff. split.
  - intros [[k' v'] [E H]]. simpl in E. subst v'.
    apply filter_In in H. destruct H as [H E]. simpl in E.
    apply cell_eqb_eq in E. congruence.
  - intros H. exists (k, v). split; [reflexivity|].
    apply filter_In. split; [exact H | apply cell_eqb_refl].
Qed.

(** ** Left join on a right table with distinct keys *)

Section JoinFacts.
Context {A B : Type} (ka : A -> cell) (kb : B -> cell).

Lemma filter_key_absent (k : cell) (R : list B) :
  ~ In k (map kb R) -> filter (fun b => cell_eqb k (kb b)) R = [].
Proof.
  induction R as [|b R IH]; simpl; intros H; [reflexivity|].
  destruct (cell_eqb k (kb b)) eqn:E.
  - exfalso. apply H. left. apply cell_eqb_eq in E. congruence.
  - apply IH. tauto.
Qed.

Lemma filter_key_find (k : cell) (R : list B) :
  NoDup (map kb R) ->
  filter (fun b => cell_eqb k (kb b)) R =
  match find (fun b => cell_eqb k (kb b)) R with
  | Some b => [b]
  | None => []
  end.
Proof.
  induction R as [|b R IH]; simpl; intros Hnd; [reflexivity|].
  apply NoDup_cons_iff in Hnd. destruct Hnd as [Hb Hnd].
  destruct (cell_eqb k (kb b)) eqn:E.
  - f_equal. apply filter_key_absent.
    apply cell_eqb_eq in E. congruence.
  - apply IH. exact Hnd.
Qed.

Lemma left_join_unique (L : list A) (R : list B) :
  NoDup (map kb R) ->
  left_join ka kb L R =
  map (fun a => (a, find (fun b => cell_eqb (ka a) (kb b)) R)) L.
Proof.
  intros Hnd. induction L as [|a L IH]; [reflexivity|].
  cbn [left_join map]. rewrite IH, (filter_key_find (ka a) R Hnd).
  destruct (find (fun b => cell_eqb (ka a) (kb b)) R); reflexivity.
Qed.

Lemma left_join_unique_length (L : list A) (R : list B) :
  NoDup (map kb R) -> length (left_join ka kb L R) = length L.
Proof.
  intros Hnd. rewrite (left_join_unique L R Hnd). apply length_map.
Qed.

Lemma left_join_nil (R : list B) : left_join ka kb [] R = [].
Proof. reflexivity. Qed.
End JoinFacts.

Lemma find_keyed {V} (g : cell -> V) (k : cell) (ks : list cell) :
  find (fun b => cell_eqb k (fst b)) (map (fun k' => (k', g k')) ks) =
  if existsb (cell_eqb k) ks then Some (k, g k) else None.
Proof.
  induction ks as [|k' ks IH]; simpl; [reflexivity|].
  destruct (cell_eqb k k') eqn:E; simpl.
  - apply cell_eqb_eq in E. subst k'. reflexivity.
  - exact IH.
Qed.

(* ================================================================= *)
(** ** The coordinator table loader *)

Lemma tem_coordenador_false (lower : pystr -> pystr) (c : cell) :
  lower [] = [] ->
  (tem_coordenador lower c = false <-> no_information lower c).
Proof.
  intros Hnil. unfold tem_coordenador, no_information.
  destruct c as [|s|z|b]; simpl.
  - change (strip []) with (@nil N). rewrite Hnil. simpl.
    split; [discriminate | intros [s [H _]]; discriminate].
  - rewrite negb_false_iff, pystr_eqb_eq. split.
    + intros H. exists s. split; [reflexivity | exact H].
    + intros [t [E H]]. injection E as <-. exact H.
  - split; [discriminate | intros [s [H _]]; discriminate].
  - split; [discriminate | intros [s [H _]]; discriminate].
Qed.

Lemma tem_coordenador_empty (lower : pystr -> pystr) (c : cell) :
  lower [] = [] -> c = NA \/ c = Str [] -> tem_coordenador lower c = true.
Proof.
  intros Hnil [-> | ->]; unfold tem_coordenador; simpl;
    change (strip []) with (@nil N); rewrite Hnil; reflexivity.
Qed.

Lemma load_data_coordenadores_unfold
    (lower : pystr -> pystr) (raw : DataFrame) (header : list cell)
    (data : list (list cell)) :
  rows raw = header :: data ->
  load_data_coordenadores lower raw =
  (let df := mkDF (cabecalho raw) data in
   coord <- getcol COORDENADOR df ;;
   if str_accessor_ok (map (fillna (Str [])) coord) then
     let df := setcol TEM_COORDENADOR
                      (map (fun c => Bool (tem_coordenador lower c)) coord)
                      df in
     tem <- getcol TEM_COORDENADOR df ;;
     Ok (setcol STATUS_COORDENADOR (map status_of tem) df)
   else Err AttributeError).
Proof.
  intros H. unfold load_data_coordenadores, cabecalho. rewrite H. reflexivity.
Qed.

(** What a successful run of the loader went through. *)
Lemma load_data_coordenadores_inv
    (lower : pystr -> pystr) (raw df : DataFrame) :
  load_data_coordenadores lower raw = Ok df ->
  exists header data coord tem,
    rows raw = header :: data /\
    getcol COORDENADOR (mkDF (cabecalho raw) data) = Ok coord /\
    str_accessor_ok (map (fillna (Str [])) coord) = true /\
    getcol TEM_COORDENADOR
      (setcol TEM_COORDENADOR
         (map (fun c => Bool (tem_coordenador lower c)) coord)
         (mkDF (cabecalho raw) data)) = Ok tem /\
    df = setcol STATUS_COORDENADOR (map status_of tem)
           (setcol TEM_COORDENADOR
              (map (fun c => Bool (tem_coordenador lower c)) coord)
              (mkDF (cabecalho raw) data)).
Proof.
  intros H. destruct (rows raw) as [|header data] eqn:Hrows.
  - unfold load_data_coordenadores in H. rewrite Hrows in H. discriminate.
  - rewrite (load_data_coordenadores_unfold lower raw header data Hrows) in H.
    cbv zeta in H.
    apply bind_Ok_inv in H. destruct H as [coord [Hcoord H]].
    destruct (str_accessor_ok (map (fillna (Str [])) coord)) eqn:Hstr;
      [|discriminate].
    apply bind_Ok_inv in H. destruct H as [tem [Htem H]].
    injection H as <-.
    exists header, data, coord, tem. repeat split; assumption.
Qed.

(** The loaded table keeps the coordinator column and carries the flag
    computed from it, row by row. *)
Lemma load_data_coordenadores_columns
    (lower : pystr -> pystr) (raw df : DataFrame) :
  load_data_coordenadores lower raw = Ok df ->
  exists coord,
    getcol COORDENADOR df = Ok coord /\
    getcol TEM_COORDENADOR df =
      Ok (map Bool (map (tem_coordenador lower) coord)).
Proof.
  intros H. apply load_data_coordenadores_inv in H.
  destruct H as [header [data [coord [tem [_ [Hcoord [_ [Htem ->]]]]]]]].
  set (df0 := mkDF (cabecalho raw) data) in *.
  assert (Hl0 : length (map (fun c => Bool (tem_coordenador lower c)) coord)
                = length (rows df0)).
  { rewrite length_map. apply (getcol_length _ _ _ Hcoord). }
  assert (Hl1 : length (map status_of tem)
                = length (rows (setcol TEM_COORDENADOR
                     (map (fun c => Bool (tem_coordenador lower c)) coord)
                     df0))).
  { rewrite length_map. apply (getcol_length _ _ _ Htem). }
  exists coord. split.
  - rewrite getcol_setcol_other by (reflexivity || exact Hl1).
    rewrite getcol_setcol_other by (reflexivity || exact Hl0).
    exact Hcoord.
  - rewrite getcol_setcol_other by (reflexivity || exact Hl1).
    rewrite Htem. f_equal.
    rewrite (getcol_setcol_same_inv _ _ _ _ Hl0 Htem).
    symmetry. apply map_map.
Qed.

(** C1 (as amended).  In the table produced by the coordinator table
    loader, the flag TEM_COORDENADOR of a row is false exactly when the
    coordinator value of that row is a string that, trimmed and
    lower-cased, equals "sem informação"; an empty or a missing coordinator
    value is replaced by the empty string, which is not that sentinel, and
    so yields a true flag. *)
Theorem load_data_coordenadores_flag
    (lower : pystr -> pystr) (raw df : DataFrame) :
  lower [] = [] ->
  load_data_coordenadores lower raw = Ok df ->
  exists coord tem,
    getcol COORDENADOR df = Ok coord /\
    getcol TEM_COORDENADOR df = Ok (map Bool tem) /\
    length tem = length (rows df) /\
    forall i c b,
      nth_error coord i = Some c -> nth_error tem i = Some b ->
      (b = false <-> no_information lower c) /\
      (c = NA \/ c = Str [] -> b = true).
Proof.
  intros Hnil H.
  destruct (load_data_coordenadores_columns lower raw df H)
    as [coord [Hc Ht]].
  exists coord, (map (tem_coordenador lower) coord).
  split; [exact Hc|]. split; [exact Ht|]. split.
  - rewrite length_map. apply (getcol_length _ _ _ Hc).
  - intros i c b Hi Hb. rewrite nth_error_map, Hi in Hb. simpl in Hb.
    injection Hb as <-. split.
    + apply tem_coordenador_false. exact Hnil.
    + apply tem_coordenador_empty. exact Hnil.
Qed.

Lemma load_data_coordenadores_flag_witness :
  exists coord tem,
    getcol COORDENADOR Examples.df_coord = Ok coord /\
    getcol TEM_COORDENADOR Examples.df_coord = Ok (map Bool tem) /\
    length tem = length (rows Examples.df_coord) /\
    forall i c b,
      nth_error coord i = Some c -> nth_error tem i = Some b ->
      (b = false <-> no_information lower_latin1 c) /\
      (c = NA \/ c = Str [] -> b = true).
Proof.
  apply (load_data_coordenadores_flag lower_latin1 Examples.raw_coord).
  - reflexivity.
  - vm_compute. reflexivity.
Defined.

(** C1 as stated fails: the third data row of the worked sheet has no
    coordinator value, and its flag is true. *)
Lemma load_data_coordenadores_missing_is_true :
  exists df coord tem,
    load_data_coordenadores lower_latin1 Examples.raw_coord = Ok df /\
    getcol COORDENADOR df = Ok coord /\
    getcol TEM_COORDENADOR df = Ok tem /\
    nth_error coord 2 = Some NA /\
    nth_error tem 2 = Some (Bool true).
Proof.
  eexists. eexists. eexists.
  split; [vm_compute; reflexivity|].
  split; [vm_compute; reflexivity|].
  split; [vm_compute; reflexivity|].
  split; reflexivity.
Qed.

(* ================================================================= *)
(** ** The completion calculator *)

Lemma filter_by_flagged (escola tem : list cell) (mask : list bool) :
  as_mask tem = Ok mask -> filter_by mask escola = flagged escola tem.
Proof.
  unfold flagged. revert mask escola.
  induction tem as [|t tem IH]; simpl; intros mask escola H.
  - injection H as <-. destruct escola; reflexivity.
  - destruct t as [| | |b]; try discriminate.
    apply bind_Ok_inv in H. destruct H as [m [Hm H]]. injection H as <-.
    destruct escola as [|e escola]; [reflexivity|].
    simpl. rewrite (IH m escola Hm). destruct b; reflexivity.
Qed.

(** Where [df[l]] is a Series, [getitem] and [getcol] agree. *)
Lemma getitem_of_getcol (l : cell) (df : DataFrame) (c : list cell) :
  getcol l df = Ok c -> getitem l df = Ok (Series c).
Proof.
  unfold getcol, getitem.
  destruct (positions l (columns df)) as [|i [|j ps]]; intros H;
    try discriminate.
  injection H as <-. reflexivity.
Qed.

Lemma calcular_percentual_eq
    (df_coord df_total : DataFrame) (et tc ec : list cell) (mask : list bool) :
  getcol ESCOLA df_total = Ok et ->
  getcol TEM_COORDENADOR df_coord = Ok tc ->
  as_mask tc = Ok mask ->
  getcol ESCOLA df_coord = Ok ec ->
  calcular_percentual_conclusao_diretores df_coord df_total =
  Ok (Float (if Nat.eqb (nunique et) 0 then FFin 0
             else FFin (inject_Z (Z.of_nat (nunique (flagged ec tc)))
                        / inject_Z (Z.of_nat (nunique et)) * 100))).
Proof.
  intros Het Htc Hm Hec. unfold calcular_percentual_conclusao_diretores.
  rewrite (getitem_of_getcol _ _ _ Het). cbn [bind].
  rewrite Htc. cbn [bind]. rewrite Hm. cbn [bind].
  assert (Hf : getcol ESCOLA (filter_rows mask df_coord)
               = Ok (filter_by mask ec)).
  { rewrite getcol_filter_rows, Hec. reflexivity. }
  rewrite (getitem_of_getcol _ _ _ Hf). cbn [bind nunique_of].
  rewrite (filter_by_flagged _ _ _ Hm).
  destruct (Nat.eqb (nunique et) 0); reflexivity.
Qed.

Lemma pct_nonneg (a b : nat) :
  (0 <= inject_Z (Z.of_nat a) / inject_Z (Z.of_nat b) * 100)%Q.
Proof.
  apply Qmult_le_0_compat; [|discriminate].
  unfold Qdiv. apply Qmult_le_0_compat.
  - unfold Qle, inject_Z; simpl. lia.
  - apply Qinv_le_0_compat. unfold Qle, inject_Z; simpl. lia.
Qed.

Lemma pct_le_100 (a b : nat) :
  b <> 0 ->
  ((inject_Z (Z.of_nat a) / inject_Z (Z.of_nat b) * 100 <= 100)%Q <-> a <= b).
Proof.
  intros Hb. destruct b as [|b]; [congruence|].
  unfold Qle, Qdiv, Qmult, Qinv, inject_Z.
  cbn [Qnum Qden]. rewrite Nat2Z.inj_succ.
  destruct (Z.succ (Z.of_nat b)) eqn:E; try lia.
  cbn [Qnum Qden]. rewrite Pos.mul_1_l, Pos.mul_1_r, <- E. lia.
Qed.

(** C2.  The completion calculator returns the number of distinct schools
    of the coordinator table whose flag is true, divided by the number of
    distinct schools of the totals table, times 100; when the totals table
    has no distinct school it returns exactly 0, and no division is
    attempted. *)
Theorem calcular_percentual_spec
    (df_coord df_total : DataFrame) (et tc ec : list cell) (mask : list bool) :
  getcol ESCOLA df_total = Ok et ->
  getcol TEM_COORDENADOR df_coord = Ok tc ->
  as_mask tc = Ok mask ->
  getcol ESCOLA df_coord = Ok ec ->
  exists com total,
    distinct_count (flagged ec tc) com /\
    distinct_count et total /\
    calcular_percentual_conclusao_diretores df_coord df_total =
      Ok (Float
            (if Nat.eqb total 0 then FFin 0
             else FFin (inject_Z (Z.of_nat com)
                        / inject_Z (Z.of_nat total) * 100)))
    /\ (total = 0 ->
        calcular_percentual_conclusao_diretores df_coord df_total
        = Ok (Float (FFin 0))).
Proof.
  intros Het Htc Hm Hec.
  exists (nunique (flagged ec tc)), (nunique et).
  split; [apply nunique_distinct|]. split; [apply nunique_distinct|].
  pose proof (calcular_percentual_eq _ _ _ _ _ _ Het Htc Hm Hec) as E.
  split; [exact E|]. intros Hz. rewrite E, Hz. reflexivity.
Qed.

Lemma calcular_percentual_spec_witness :
  exists com total,
    distinct_count
      (flagged [Examples.txt "A"; Examples.txt "B"; Examples.txt "D"; Examples.txt "E"]
               [Bool false; Bool true; Bool true; Bool true]) com /\
    distinct_count
      [Examples.txt "A"; Examples.txt "B"; Examples.txt "B"; Examples.txt "C";
       Examples.txt "Z"] total /\
    calcular_percentual_conclusao_diretores Examples.df_coord Examples.df_total =
      Ok (Float
            (if Nat.eqb total 0 then FFin 0
             else FFin (inject_Z (Z.of_nat com)
                        / inject_Z (Z.of_nat total) * 100)))
    /\ (total = 0 ->
        calcular_percentual_conclusao_diretores
          Examples.df_coord Examples.df_total = Ok (Float (FFin 0))).
Proof.
  apply (calcular_percentual_spec Examples.df_coord Examples.df_total _ _ _
           [false; true; true; true]);
    vm_compute; reflexivity.
Defined.

(** C3 (as amended).  The value returned by the completion calculator is
    never negative, and it is at most 100 exactly when the totals table has
    no distinct school or the coordinator table has no more distinct
    flagged schools than the totals table has distinct schools; this is the
    case whenever every flagged school of the coordinator table occurs in
    the totals table. *)
Theorem calcular_percentual_range
    (df_coord df_total : DataFrame) (et tc ec : list cell) (mask : list bool) :
  getcol ESCOLA df_total = Ok et ->
  getcol TEM_COORDENADOR df_coord = Ok tc ->
  as_mask tc = Ok mask ->
  getcol ESCOLA df_coord = Ok ec ->
  exists q,
    calcular_percentual_conclusao_diretores df_coord df_total
      = Ok (Float (FFin q)) /\
    (0 <= q)%Q /\
    ((q <= 100)%Q <->
     nunique et = 0 \/ nunique (flagged ec tc) <= nunique et) /\
    ((forall s, In s (flagged ec tc) -> s <> NA -> In s et) -> (q <= 100)%Q).
Proof.
  intros Het Htc Hm Hec.
  rewrite (calcular_percentual_eq _ _ _ _ _ _ Het Htc Hm Hec).
  destruct (Nat.eqb (nunique et) 0) eqn:E.
  - apply Nat.eqb_eq in E. exists 0%Q. split; [reflexivity|].
    split; [discriminate|]. split; [|intros _; discriminate].
    split; [intros _; left; exact E | intros _; discriminate].
  - apply Nat.eqb_neq in E. eexists. split; [reflexivity|].
    split; [apply pct_nonneg|]. split.
    + rewrite (pct_le_100 _ _ E). split; [auto | intros [H | H]; congruence].
    + intros Hincl. apply (pct_le_100 _ _ E). apply nunique_incl. exact Hincl.
Qed.

Lemma calcular_percentual_range_witness :
  exists q,
    calcular_percentual_conclusao_diretores Examples.df_coord_ab Examples.df_total
      = Ok (Float (FFin q)) /\
    (0 <= q)%Q /\ (q <= 100)%Q.
Proof.
  destruct (calcular_percentual_range Examples.df_coord_ab Examples.df_total
              [Examples.txt "A"; Examples.txt "B"; Examples.txt "B"; Examples.txt "C";
               Examples.txt "Z"]
              [Bool true; Bool true] [Examples.txt "A"; Examples.txt "B"]
              [true; true])
    as [q [Hq [H0 [_ H100]]]]; try (vm_compute; reflexivity).
  exists q. split; [exact Hq|]. split; [exact H0|].
  apply H100. intros s Hs _. vm_compute in Hs. vm_compute.
  destruct Hs as [<- | [<- | []]]; auto.
Defined.

(** C3 as stated fails: two flagged schools against a totals table with a
    single school give 200. *)
Lemma calcular_percentual_above_100 :
  exists et q,
    getcol ESCOLA Examples.df_total_a = Ok et /\ nunique et = 1 /\
    calcular_percentual_conclusao_diretores
      Examples.df_coord_ab Examples.df_total_a = Ok (Float (FFin q)) /\
    ~ (q <= 100)%Q.
Proof.
  eexists. eexists. split; [vm_compute; reflexivity|].
  split; [reflexivity|]. split; [vm_compute; reflexivity|].
  intros H. vm_compute in H. apply H. reflexivity.
Qed.

(* ================================================================= *)
(** ** The region and hub aggregators *)

Lemma map_fst_combine_eq {A B} (a : list A) (b : list B) :
  length a = length b -> map fst (combine a b) = a.
Proof.
  revert b. induction a as [|x a IH]; intros [|y b] H; simpl in *;
    try reflexivity; try discriminate.
  f_equal. apply IH. lia.
Qed.

Lemma filter_by_In_mask {A} (tem : list cell) (mask : list bool)
    (l : list A) (x : A) :
  as_mask tem = Ok mask ->
  (In x (filter_by mask l) <-> In (x, Bool true) (combine l tem)).
Proof.
  revert mask l. induction tem as [|t tem IH]; simpl; intros mask l H.
  - injection H as <-. destruct l; simpl; tauto.
  - destruct t as [| | |b]; try discriminate.
    apply bind_Ok_inv in H. destruct H as [m [Hm H]]. injection H as <-.
    destruct l as [|y l]; simpl; [tauto|].
    specialize (IH m l Hm). destruct b; simpl; rewrite IH.
    + split; intros [H | H]; auto; left; congruence.
    + split; [auto | intros [H | H]; [discriminate | exact H]].
Qed.

Lemma groupby_nunique_keys (kv : list (cell * cell)) :
  map fst (groupby_nunique kv) = group_keys (map fst kv).
Proof.
  unfold groupby_nunique. rewrite map_map. simpl. apply map_id.
Qed.

(** The merged summary, row by row: one row per region of the totals
    table, with the distinct schools of that region on either side. *)
Lemma resumo_rows_groupby (kv_t kv_c : list (cell * cell)) :
  resumo_rows (groupby_nunique kv_t) (groupby_nunique kv_c) =
  map (fun k =>
         mkAgg k (nunique (group_of k kv_t)) (nunique (group_of k kv_c))
           (f_fillna0 (f_mul100
              (f_div_counts (nunique (group_of k kv_c))
                            (nunique (group_of k kv_t))))))
      (group_keys (map fst kv_t)).
Proof.
  unfold resumo_rows.
  rewrite left_join_unique
    by (rewrite groupby_nunique_keys; apply group_keys_NoDup).
  unfold groupby_nunique. rewrite !map_map. apply map_ext_in.
  intros k Hk. cbn [fst snd].
  rewrite (find_keyed (fun k' => nunique (group_of k' kv_c))).
  destruct (existsb (cell_eqb k) (group_keys (map fst kv_c))) eqn:E.
  - reflexivity.
  - assert (Hz : group_of k kv_c = []).
    { apply group_of_absent. intros Hin.
      assert (Hk' : In k (group_keys (map fst kv_c))).
      { apply group_keys_In. split; [exact Hin|].
        apply group_keys_In in Hk. tauto. }
      apply existsb_cell_eqb in Hk'. congruence. }
    rewrite Hz. reflexivity.
Qed.

Lemma resumo_rows_not_nan (totais com : list (cell * nat)) (row : AggRow) :
  In row (resumo_rows totais com) -> f_isnan (perc_com_coord row) = false.
Proof.
  unfold resumo_rows. intros H. apply in_map_iff in H.
  destruct H as [p [<- _]]. cbn [perc_com_coord].
  destruct (f_mul100 _); reflexivity.
Qed.

Lemma f_geb_total (x y : fval) :
  f_isnan x = false -> f_isnan y = false ->
  f_geb x y = false -> f_geb y x = true.
Proof.
  destruct x as [|[|]|a], y as [|[|]|b]; simpl; try congruence.
  intros _ _ H. apply Qle_bool_iff.
  destruct (Qle_bool b a) eqn:E; [discriminate|].
  apply Qlt_le_weak. apply Qnot_le_lt. intros Hle.
  apply Qle_bool_iff in Hle. congruence.
Qed.

Lemma desc_first_total (x y : fval) :
  desc_first x y = false -> desc_first y x = true.
Proof.
  unfold desc_first. intros H. apply orb_false_iff in H.
  destruct H as [Hy Hg]. destruct (f_isnan x) eqn:Hx; [reflexivity|].
  simpl. apply f_geb_total; assumption.
Qed.

Lemma sort_by_perc_perm (l : list AggRow) : Permutation (sort_by_perc l) l.
Proof. apply sort_perm. Qed.

Lemma sort_by_perc_desc (l : list AggRow) :
  (forall row, In row l -> f_isnan (perc_com_coord row) = false) ->
  desc_by_perc (sort_by_perc l).
Proof.
  intros Hnan i x y Hx Hy.
  assert (Hs : desc_first (perc_com_coord x) (perc_com_coord y) = true).
  { apply (Sorted_adjacent
             (fun a b => desc_first (perc_com_coord a) (perc_com_coord b) = true)
             (sort_by_perc l)) with (i := i); try assumption.
    apply (sort_sorted
             (fun a b => desc_first (perc_com_coord a) (perc_com_coord b))).
    intros a b. apply desc_first_total. }
  unfold desc_first in Hs. rewrite Hnan in Hs; [exact Hs|].
  apply (Permutation_in _ (sort_by_perc_perm l)).
  apply nth_error_In with (n := S i). exact Hy.
Qed.

Lemma groupby_nunique_df_eq (k v : cell) (df : DataFrame) (ks vs : list cell) :
  getcol k df = Ok ks -> getcol v df = Ok vs ->
  groupby_nunique_df k v df = Ok (groupby_nunique (combine ks vs)).
Proof.
  intros Hk Hv. unfold groupby_nunique_df. rewrite Hk. simpl. rewrite Hv.
  reflexivity.
Qed.

(** What [agg_por_gre] returns on tables that have the columns it reads. *)
Lemma agg_por_gre_eq
    (df_coord df_total : DataFrame)
    (gt et tc gc ec : list cell) (mask : list bool) :
  getcol GRE df_total = Ok gt ->
  getcol ESCOLA df_total = Ok et ->
  getcol TEM_COORDENADOR df_coord = Ok tc ->
  as_mask tc = Ok mask ->
  getcol GRE df_coord = Ok gc ->
  getcol ESCOLA df_coord = Ok ec ->
  agg_por_gre df_coord df_total =
  Ok (sort_by_perc
        (map (fun k =>
                let t := nunique (group_of k (combine gt et)) in
                let c := nunique (group_of k (filter_by mask (combine gc ec))) in
                mkAgg k t c (f_fillna0 (f_mul100 (f_div_counts c t))))
             (group_keys gt))).
Proof.
  intros Hgt Het Htc Hm Hgc Hec. unfold agg_por_gre.
  rewrite (groupby_nunique_df_eq _ _ _ _ _ Hgt Het). simpl.
  rewrite Htc. simpl. rewrite Hm. simpl.
  rewrite (groupby_nunique_df_eq GRE ESCOLA (filter_rows mask df_coord)
             (filter_by mask gc) (filter_by mask ec))
    by (rewrite getcol_filter_rows; (rewrite Hgc || rewrite Hec); reflexivity).
  simpl. rewrite resumo_rows_groupby, <- filter_by_combine.
  rewrite map_fst_combine_eq; [reflexivity|].
  rewrite (getcol_length _ _ _ Hgt), (getcol_length _ _ _ Het). reflexivity.
Qed.

(** C4.  The region keys of the output of the region aggregator are
    exactly the distinct regions of the totals table, each once: the
    number of rows is the number of distinct regions of the totals table, a
    region without a flagged school in the coordinator table appears with
    [escolas_com_coord = 0], and a region that occurs only in the
    coordinator table has no row. *)
Theorem agg_por_gre_regions
    (df_coord df_total : DataFrame)
    (gt et tc gc ec : list cell) (mask : list bool) :
  getcol GRE df_total = Ok gt ->
  getcol ESCOLA df_total = Ok et ->
  getcol TEM_COORDENADOR df_coord = Ok tc ->
  as_mask tc = Ok mask ->
  getcol GRE df_coord = Ok gc ->
  getcol ESCOLA df_coord = Ok ec ->
  exists r,
    agg_por_gre df_coord df_total = Ok r /\
    NoDup (map chave r) /\
    (forall k, In k (map chave r) <-> In k gt /\ k <> NA) /\
    (forall n, distinct_count gt n -> length r = n) /\
    (forall k, In k gt -> k <> NA ->
       (forall e, ~ In (k, e, Bool true) (combine (combine gc ec) tc)) ->
       exists row, In row r /\ chave row = k /\ escolas_com_coord row = 0) /\
    (forall k, In k gc -> ~ In k gt -> ~ In k (map chave r)).
Proof.
  intros Hgt Het Htc Hm Hgc Hec.
  rewrite (agg_por_gre_eq _ _ _ _ _ _ _ _ Hgt Het Htc Hm Hgc Hec).
  set (mk := fun k : cell => mkAgg k _ _ _).
  eexists. split; [reflexivity|].
  assert (Hperm : Permutation (map chave (sort_by_perc (map mk (group_keys gt))))
                              (group_keys gt)).
  { rewrite (Permutation_map chave (sort_by_perc_perm _)).
    rewrite map_map. simpl. rewrite map_id. reflexivity. }
  assert (Hin : forall k, In k (map chave (sort_by_perc (map mk (group_keys gt))))
                          <-> In k gt /\ k <> NA).
  { intros k. rewrite <- group_keys_In. split; apply Permutation_in;
      [exact Hperm | symmetry; exact Hperm]. }
  split; [|split; [exact Hin | split; [|split]]].
  - apply (Permutation_NoDup (l := group_keys gt));
      [symmetry; exact Hperm | apply group_keys_NoDup].
  - intros n Hn. rewrite (distinct_count_nunique _ _ Hn).
    rewrite <- group_keys_length, <- (Permutation_length Hperm).
    symmetry. apply length_map.
  - intros k Hk Hna Hnone. exists (mk k). split; [|split].
    + apply (Permutation_in _ (Permutation_sym (sort_by_perc_perm _))).
      apply in_map. apply group_keys_In. tauto.
    + reflexivity.
    + unfold mk. cbn [escolas_com_coord].
      assert (Hz : group_of k (filter_by mask (combine gc ec)) = []).
      { destruct (group_of k (filter_by mask (combine gc ec))) as [|e l] eqn:E;
          [reflexivity|]. exfalso. apply (Hnone e).
        apply (filter_by_In_mask tc mask _ _ Hm).
        apply group_of_In. rewrite E. left. reflexivity. }
      rewrite Hz. reflexivity.
  - intros k _ Hk Hin'. apply Hin in Hin'. tauto.
Qed.

Lemma agg_por_gre_witness_cols :
  getcol GRE Examples.df_total
    = Ok (map Examples.txt ["R1"; "R1"; "R1"; "R1"; "R3"]%string) /\
  getcol ESCOLA Examples.df_total
    = Ok (map Examples.txt ["A"; "B"; "B"; "C"; "Z"]%string) /\
  getcol TEM_COORDENADOR Examples.df_coord
    = Ok [Bool false; Bool true; Bool true; Bool true] /\
  getcol GRE Examples.df_coord
    = Ok (map Examples.txt ["R1"; "R1"; "R1"; "R2"]%string) /\
  getcol ESCOLA Examples.df_coord
    = Ok (map Examples.txt ["A"; "B"; "D"; "E"]%string).
Proof. repeat split; vm_compute; reflexivity. Qed.

Lemma agg_por_gre_regions_witness :
  exists r,
    agg_por_gre Examples.df_coord Examples.df_total = Ok r /\
    length r = 2 /\
    (exists row, In row r /\ chave row = Examples.txt "R3"
                 /\ escolas_com_coord row = 0) /\
    ~ In (Examples.txt "R2") (map chave r).
Proof.
  destruct agg_por_gre_witness_cols as [Hgt [Het [Htc [Hgc Hec]]]].
  destruct (agg_por_gre_regions Examples.df_coord Examples.df_total
              _ _ _ _ _ [false; true; true; true]
              Hgt Het Htc eq_refl Hgc Hec)
    as [r [Hr [_ [_ [Hlen [Hzero Hdrop]]]]]].
  exists r. split; [exact Hr|]. split; [|split].
  - apply Hlen. exists [Examples.txt "R1"; Examples.txt "R3"].
    split; [|split; [|reflexivity]].
    + repeat constructor; simpl; intuition discriminate.
    + intros x. simpl. intuition (subst; try discriminate; auto).
  - apply Hzero.
    + simpl. auto 10.
    + discriminate.
    + intros e H. vm_compute in H. intuition discriminate.
  - apply Hdrop.
    + simpl. auto 10.
    + simpl. intuition discriminate.
Defined.

(** C5 (as amended).  In a row of the output of the region aggregator,
    [total_escolas] is at least [escolas_com_coord] provided every flagged
    school that the coordinator table lists under the region of that row
    also occurs under that region in the totals table. *)
Theorem agg_por_gre_total_ge_coord
    (df_coord df_total : DataFrame)
    (gt et tc gc ec : list cell) (mask : list bool) :
  getcol GRE df_total = Ok gt ->
  getcol ESCOLA df_total = Ok et ->
  getcol TEM_COORDENADOR df_coord = Ok tc ->
  as_mask tc = Ok mask ->
  getcol GRE df_coord = Ok gc ->
  getcol ESCOLA df_coord = Ok ec ->
  exists r,
    agg_por_gre df_coord df_total = Ok r /\
    forall row, In row r ->
      (forall e, In (chave row, e, Bool true) (combine (combine gc ec) tc) ->
                 e <> NA -> In (chave row, e) (combine gt et)) ->
      escolas_com_coord row <= total_escolas row.
Proof.
  intros Hgt Het Htc Hm Hgc Hec.
  rewrite (agg_por_gre_eq _ _ _ _ _ _ _ _ Hgt Het Htc Hm Hgc Hec).
  eexists. split; [reflexivity|]. intros row Hrow Hincl.
  apply (Permutation_in _ (sort_by_perc_perm _)) in Hrow.
  apply in_map_iff in Hrow. destruct Hrow as [k [<- _]].
  cbn [escolas_com_coord total_escolas chave] in *.
  apply nunique_incl. intros e He Hna.
  apply group_of_In. apply Hincl; [|exact Hna].
  apply (filter_by_In_mask tc mask _ _ Hm). apply group_of_In. exact He.
Qed.

Lemma agg_por_gre_cenario_cols :
  getcol GRE Examples.df_total_cenario
    = Ok (map Examples.txt ["R1"; "R1"; "R1"]%string) /\
  getcol ESCOLA Examples.df_total_cenario
    = Ok (map Examples.txt ["A"; "B"; "C"]%string) /\
  getcol TEM_COORDENADOR Examples.df_coord_cenario
    = Ok [Bool false; Bool true] /\
  getcol GRE Examples.df_coord_cenario
    = Ok (map Examples.txt ["R1"; "R1"]%string) /\
  getcol ESCOLA Examples.df_coord_cenario
    = Ok (map Examples.txt ["A"; "B"]%string).
Proof. repeat split; vm_compute; reflexivity. Qed.

Lemma agg_por_gre_total_ge_coord_witness :
  exists r,
    agg_por_gre Examples.df_coord_cenario Examples.df_total_cenario = Ok r /\
    (exists row, In row r /\ chave row = Examples.txt "R1" /\
                 escolas_com_coord row = 1 /\ total_escolas row = 3) /\
    forall row, In row r -> escolas_com_coord row <= total_escolas row.
Proof.
  destruct agg_por_gre_cenario_cols as [Hgt [Het [Htc [Hgc Hec]]]].
  destruct (agg_por_gre_total_ge_coord
              Examples.df_coord_cenario Examples.df_total_cenario
              _ _ _ _ _ [false; true]
              Hgt Het Htc eq_refl Hgc Hec)
    as [r [Hr Hge]].
  exists r. split; [exact Hr|]. split.
  - assert (E : agg_por_gre Examples.df_coord_cenario Examples.df_total_cenario
                = Ok [mkAgg (Examples.txt "R1") 3 1
                        (f_fillna0 (f_mul100 (f_div_counts 1 3)))]).
    { vm_compute. reflexivity. }
    rewrite E in Hr. injection Hr as <-.
    eexists. split; [left; reflexivity|]. repeat split.
  - intros row Hrow. apply Hge; [exact Hrow|].
    intros e Hin _. simpl in Hin.
    destruct Hin as [Hin | [Hin | []]]; [discriminate|].
    injection Hin as <- <-. simpl. right. left. reflexivity.
Defined.

(** C5 as stated fails: the coordinator table lists two flagged schools
    under R1 and the totals table only one school. *)
Lemma agg_por_gre_coord_exceeds_total :
  exists row,
    agg_por_gre Examples.df_coord_ab Examples.df_total_a = Ok [row] /\
    total_escolas row = 1 /\ escolas_com_coord row = 2 /\
    ~ (total_escolas row >= escolas_com_coord row).
Proof.
  eexists. split; [vm_compute; reflexivity|]. simpl.
  split; [reflexivity|]. split; [reflexivity|]. lia.
Qed.

(** C6.  The outputs of the region aggregator and of the hub aggregator are
    sorted by percentage in descending order: the percentage of a row is
    greater than or equal to that of the next row. *)
Theorem agg_sorted_desc (df_coord df_total : DataFrame) :
  (forall r, agg_por_gre df_coord df_total = Ok r -> desc_by_perc r) /\
  (forall gre r, agg_por_polo df_coord df_total gre = Ok r -> desc_by_perc r).
Proof.
  split.
  - intros r H. unfold agg_por_gre in H.
    apply bind_Ok_inv in H. destruct H as [totais [_ H]].
    apply bind_Ok_inv in H. destruct H as [tem [_ H]].
    apply bind_Ok_inv in H. destruct H as [mask [_ H]].
    apply bind_Ok_inv in H. destruct H as [com [_ H]].
    injection H as <-. apply sort_by_perc_desc.
    intros row. apply resumo_rows_not_nan.
  - intros gre r H. unfold agg_por_polo in H.
    apply bind_Ok_inv in H. destruct H as [gre_t [_ H]].
    apply bind_Ok_inv in H. destruct H as [totais [_ H]].
    apply bind_Ok_inv in H. destruct H as [gre_c [_ H]].
    apply bind_Ok_inv in H. destruct H as [tem [_ H]].
    apply bind_Ok_inv in H. destruct H as [mask [_ H]].
    apply bind_Ok_inv in H. destruct H as [com [_ H]].
    injection H as <-. apply sort_by_perc_desc.
    intros row. apply resumo_rows_not_nan.
Qed.

Lemma agg_sorted_desc_witness :
  (exists r, agg_por_gre Examples.df_coord Examples.df_total = Ok r
             /\ length r = 2 /\ desc_by_perc r) /\
  (exists r, agg_por_polo Examples.df_coord Examples.df_total (Examples.txt "R1")
             = Ok r /\ length r = 1 /\ desc_by_perc r).
Proof.
  destruct (agg_sorted_desc Examples.df_coord Examples.df_total) as [Hg Hp].
  split.
  - eexists. split; [vm_compute; reflexivity|]. split; [reflexivity|].
    apply Hg. vm_compute. reflexivity.
  - eexists. split; [vm_compute; reflexivity|]. split; [reflexivity|].
    apply (Hp (Examples.txt "R1")). vm_compute. reflexivity.
Defined.

(** The hub aggregator returns on tables that have the columns it reads. *)
Lemma agg_por_polo_eq
    (df_coord df_total : DataFrame) (gre : cell)
    (gt pt et tc gc pc ec : list cell) (mask : list bool) :
  getcol GRE df_total = Ok gt ->
  getcol POLO df_total = Ok pt ->
  getcol ESCOLA df_total = Ok et ->
  getcol TEM_COORDENADOR df_coord = Ok tc ->
  as_mask tc = Ok mask ->
  getcol GRE df_coord = Ok gc ->
  getcol POLO df_coord = Ok pc ->
  getcol ESCOLA df_coord = Ok ec ->
  agg_por_polo df_coord df_total gre =
  Ok (sort_by_perc
        (resumo_rows
           (groupby_nunique
              (filter_by (eq_mask gt gre) (combine pt et)))
           (groupby_nunique
              (filter_by (and_mask (eq_mask gc gre) mask) (combine pc ec))))).
Proof.
  intros Hgt Hpt Het Htc Hm Hgc Hpc Hec. unfold agg_por_polo.
  rewrite Hgt. simpl.
  rewrite (groupby_nunique_df_eq POLO ESCOLA _
             (filter_by (eq_mask gt gre) pt) (filter_by (eq_mask gt gre) et))
    by (rewrite getcol_filter_rows; (rewrite Hpt || rewrite Het); reflexivity).
  simpl. rewrite Hgc. simpl. rewrite Htc. simpl. rewrite Hm. simpl.
  rewrite (groupby_nunique_df_eq POLO ESCOLA _
             (filter_by (and_mask (eq_mask gc gre) mask) pc)
             (filter_by (and_mask (eq_mask gc gre) mask) ec))
    by (rewrite getcol_filter_rows; (rewrite Hpc || rewrite Hec); reflexivity).
  simpl. rewrite <- !filter_by_combine. reflexivity.
Qed.

(* ================================================================= *)
(** ** The record status summarizer *)

Lemma count_cell_absent (l : list cell) (k : cell) :
  ~ In k l -> count_cell l k = 0.
Proof.
  unfold count_cell. induction l as [|x l IH]; simpl; intros H; [reflexivity|].
  destruct (cell_eqb k x) eqn:E.
  - exfalso. apply H. left. apply cell_eqb_eq in E. congruence.
  - apply IH. tauto.
Qed.

Lemma list_sum_remove (g : cell -> nat) (x : cell) (u : list cell) :
  NoDup u ->
  list_sum (map g u) =
  (if existsb (cell_eqb x) u then g x else 0)
  + list_sum (map g (remove_cell x u)).
Proof.
  induction 1 as [|y u Hy Hu IH]; simpl; [reflexivity|].
  destruct (cell_eqb x y) eqn:E; simpl.
  - apply cell_eqb_eq in E. subst y. rewrite IH.
    assert (Hx : existsb (cell_eqb x) u = false).
    { destruct (existsb (cell_eqb x) u) eqn:Ex; [|reflexivity].
      apply existsb_cell_eqb in Ex. contradiction. }
    rewrite Hx. reflexivity.
  - rewrite IH. lia.
Qed.

Lemma list_sum_map_ext_in (g h : cell -> nat) (u : list cell) :
  (forall k, In k u -> g k = h k) -> list_sum (map g u) = list_sum (map h u).
Proof.
  intros H. f_equal. apply map_ext_in. exact H.
Qed.

(** Counting every distinct value of a column counts every row once. *)
Lemma list_sum_count_unique (l : list cell) :
  list_sum (map (count_cell l) (unique l)) = length l.
Proof.
  induction l as [|x l IH]; [reflexivity|].
  change (unique (x :: l)) with (x :: remove_cell x (unique l)).
  change (list_sum (map (count_cell (x :: l)) (x :: remove_cell x (unique l))))
    with (count_cell (x :: l) x
          + list_sum (map (count_cell (x :: l)) (remove_cell x (unique l)))).
  assert (Hx : count_cell (x :: l) x = S (count_cell l x)).
  { unfold count_cell. simpl. rewrite cell_eqb_refl. reflexivity. }
  assert (Hrest : list_sum (map (count_cell (x :: l)) (remove_cell x (unique l)))
                  = list_sum (map (count_cell l) (remove_cell x (unique l)))).
  { apply list_sum_map_ext_in. intros k Hk.
    apply remove_cell_In in Hk. destruct Hk as [_ Hk].
    unfold count_cell. simpl.
    assert (E : cell_eqb k x = false) by (apply cell_eqb_neq; exact Hk).
    rewrite E. reflexivity. }
  assert (Hsplit := list_sum_remove (count_cell l) x (unique l) (unique_NoDup l)).
  rewrite IH in Hsplit. rewrite Hx, Hrest. simpl length.
  destruct (existsb (cell_eqb x) (unique l)) eqn:E.
  - lia.
  - rewrite count_cell_absent; [lia|].
    intros Hin. apply unique_In in Hin. apply existsb_cell_eqb in Hin.
    congruence.
Qed.

Lemma count_cell_dropna (l : list cell) (k : cell) :
  k <> NA -> count_cell (dropna l) k = count_cell l k.
Proof.
  intros Hk. unfold count_cell, dropna.
  induction l as [|x l IH]; simpl; [reflexivity|].
  destruct x; simpl; try (destruct (cell_eqb k _); simpl; rewrite IH; reflexivity).
  assert (E : cell_eqb k NA = false) by (apply cell_eqb_neq; exact Hk).
  rewrite E. exact IH.
Qed.

(** The sizes of the groups add up to the number of rows whose key is
    present. *)
Lemma sum_qtd_groupby_size (keys : list cell) :
  sum_qtd (groupby_size keys) = length (dropna keys).
Proof.
  unfold sum_qtd, groupby_size. rewrite map_map. cbn [snd].
  change (fun k => length (filter (cell_eqb k) keys)) with (count_cell keys).
  rewrite (Permutation_list_sum
             (Permutation_map (count_cell keys) (group_keys_perm keys))).
  rewrite <- (list_sum_count_unique (dropna keys)).
  apply list_sum_map_ext_in. intros k Hk.
  symmetry. apply count_cell_dropna.
  rewrite unique_In, dropna_In in Hk. tauto.
Qed.

Lemma dropna_all_present (l : list cell) :
  (forall c, In c l -> c <> NA) -> dropna l = l.
Proof.
  intros H. unfold dropna. induction l as [|x l IH]; simpl; [reflexivity|].
  destruct x; simpl; try (f_equal; apply IH; intros c Hc; apply H; right; exact Hc).
  exfalso. apply (H NA); [left; reflexivity | reflexivity].
Qed.

Lemma filter_by_region_hub {A} (f g : cell -> bool) (a b : list cell)
    (l : list A) :
  length a = length l -> length b = length l ->
  length (filter_by (and_mask (map f a) (map g b)) l) =
  length (filter (fun p => f (fst p) && g (snd p)) (combine a b)).
Proof.
  revert a b. induction l as [|x l IH]; intros [|u a] [|v b] Ha Hb;
    simpl in *; try reflexivity; try discriminate.
  destruct (f u && g v); simpl; rewrite IH by lia; reflexivity.
Qed.

Lemma registros_do_polo_eq (df_total : DataFrame) (gre polo : cell)
    (gt pt : list cell) :
  getcol GRE df_total = Ok gt ->
  getcol POLO df_total = Ok pt ->
  registros_do_polo df_total gre polo =
  Ok (filter_rows (and_mask (eq_mask gt gre) (eq_mask pt polo)) df_total).
Proof.
  intros Hg Hp. unfold registros_do_polo. rewrite Hg. simpl. rewrite Hp.
  reflexivity.
Qed.

Lemma registros_do_polo_count (df_total : DataFrame) (gre polo : cell)
    (gt pt : list cell) :
  getcol GRE df_total = Ok gt ->
  getcol POLO df_total = Ok pt ->
  length (rows (filter_rows (and_mask (eq_mask gt gre) (eq_mask pt polo))
                            df_total))
  = count_region_hub gt pt gre polo.
Proof.
  intros Hg Hp. unfold filter_rows, count_region_hub, eq_mask. cbn [rows].
  apply filter_by_region_hub.
  - apply (getcol_length _ _ _ Hg).
  - apply (getcol_length _ _ _ Hp).
Qed.

Lemma status_do_polo_present (mapa : list (cell * bool)) (escola : list cell)
    (c : cell) :
  In c (status_do_polo mapa escola) -> c <> NA.
Proof.
  unfold status_do_polo. rewrite map_map. intros H.
  apply in_map_iff in H. destruct H as [e [<- _]].
  unfold map_dict. destruct (find _ mapa) as [p|]; simpl.
  - destruct (snd p); discriminate.
  - discriminate.
Qed.

Lemma positions_setcol_other (l l' : cell) (vals : list cell) (df : DataFrame) :
  cell_eqb l' l = false ->
  positions l' (columns (setcol l vals df)) = positions l' (columns df).
Proof.
  intros Hne. rewrite setcol_columns.
  destruct (positions l (columns df)); [|reflexivity].
  apply positions_app_other. exact Hne.
Qed.

(** What [resumo_status_polo] returns on tables that have the columns it
    reads. *)
Lemma resumo_status_polo_eq
    (df_coord df_total : DataFrame) (gre polo : cell)
    (gt pt et ec tc : list cell) (flags : list bool) :
  getcol GRE df_total = Ok gt ->
  getcol POLO df_total = Ok pt ->
  getcol ESCOLA df_total = Ok et ->
  length (positions TEM_COORDENADOR (columns df_total)) <= 1 ->
  length (positions STATUS_COORDENADOR (columns df_total)) <= 1 ->
  getcol ESCOLA df_coord = Ok ec ->
  getcol TEM_COORDENADOR df_coord = Ok tc ->
  as_mask tc = Ok flags ->
  let m := and_mask (eq_mask gt gre) (eq_mask pt polo) in
  let mapa := groupby_max (combine ec flags) in
  let tem := map (fun e => fillna (Bool false) (map_dict mapa e))
                 (filter_by m et) in
  let st := status_do_polo mapa (filter_by m et) in
  resumo_status_polo df_coord df_total gre polo =
  Ok (map (fun p => mkStatus (fst p) (snd p)
                      (f_fillna0 (f_mul100
                         (f_div_counts (snd p) (sum_qtd (groupby_size st))))))
          (groupby_size st),
      setcol STATUS_COORDENADOR st
        (setcol TEM_COORDENADOR tem (filter_rows m df_total))).
Proof.
  intros Hgt Hpt Het Htem1 Hst1 Hec Htc Hfl m mapa tem st.
  unfold resumo_status_polo.
  rewrite (registros_do_polo_eq _ gre polo _ _ Hgt Hpt). simpl.
  rewrite Hec. simpl. rewrite Htc. simpl. rewrite Hfl. simpl.
  fold m. rewrite getcol_filter_rows, Het. simpl. fold mapa. fold tem.
  assert (Hlen : length tem = length (rows (filter_rows m df_total))).
  { unfold tem. rewrite length_map. unfold filter_rows. cbn [rows].
    apply getcol_inv in Het. destruct Het as [i [_ [_ ->]]].
    rewrite filter_by_map. apply length_map. }
  rewrite (getcol_setcol_same TEM_COORDENADOR tem _ Hlen) by exact Htem1.
  simpl.
  assert (Hlen' : length (map status_of tem)
                  = length (rows (setcol TEM_COORDENADOR tem
                                         (filter_rows m df_total)))).
  { rewrite length_map, setcol_rows_length; exact Hlen. }
  rewrite (getcol_setcol_same STATUS_COORDENADOR _ _ Hlen').
  - reflexivity.
  - rewrite positions_setcol_other by reflexivity. exact Hst1.
Qed.

Lemma status_do_polo_length (mapa : list (cell * bool)) (escola : list cell) :
  length (status_do_polo mapa escola) = length escola.
Proof. unfold status_do_polo. rewrite !length_map. reflexivity. Qed.

Lemma filter_by_getcol_length (l : cell) (df : DataFrame) (c : list cell)
    (m : list bool) :
  getcol l df = Ok c ->
  length (filter_by m c) = length (rows (filter_rows m df)).
Proof.
  intros H. apply getcol_inv in H. destruct H as [i [_ [_ ->]]].
  rewrite filter_by_map. apply length_map.
Qed.

Lemma setcol_nil_rows (l : cell) (df : DataFrame) : rows (setcol l [] df) = [].
Proof.
  unfold setcol. destruct (positions l (columns df)) as [|p ps]; cbn [rows].
  - rewrite combine_nil. reflexivity.
  - replace (Nat.eqb (length (p :: ps)) (length (@nil cell))) with false
      by reflexivity.
    rewrite andb_false_r. cbn [rows]. rewrite combine_nil. reflexivity.
Qed.

(** C7.  The counts [qtd_registros] of the status groups returned by the
    record status summarizer add up to the number of rows of the totals
    table whose region and hub are the selected ones. *)
Theorem resumo_status_polo_total
    (df_coord df_total : DataFrame) (gre polo : cell)
    (gt pt et ec tc : list cell) (flags : list bool) :
  getcol GRE df_total = Ok gt ->
  getcol POLO df_total = Ok pt ->
  getcol ESCOLA df_total = Ok et ->
  length (positions TEM_COORDENADOR (columns df_total)) <= 1 ->
  length (positions STATUS_COORDENADOR (columns df_total)) <= 1 ->
  getcol ESCOLA df_coord = Ok ec ->
  getcol TEM_COORDENADOR df_coord = Ok tc ->
  as_mask tc = Ok flags ->
  exists resumo registros,
    resumo_status_polo df_coord df_total gre polo = Ok (resumo, registros) /\
    list_sum (map qtd_registros resumo) = count_region_hub gt pt gre polo /\
    length (rows registros) = count_region_hub gt pt gre polo.
Proof.
  intros Hgt Hpt Het Htem1 Hst1 Hec Htc Hfl.
  rewrite (resumo_status_polo_eq _ _ gre polo _ _ _ _ _ _
             Hgt Hpt Het Htem1 Hst1 Hec Htc Hfl).
  set (m := and_mask (eq_mask gt gre) (eq_mask pt polo)).
  set (mapa := groupby_max (combine ec flags)).
  assert (Hn : length (filter_by m et) = count_region_hub gt pt gre polo).
  { rewrite (filter_by_getcol_length _ _ _ m Het).
    apply registros_do_polo_count; assumption. }
  eexists. eexists. split; [reflexivity|]. split.
  - rewrite map_map. cbn [qtd_registros].
    change (list_sum (map (fun p => snd p)
                          (groupby_size (status_do_polo mapa (filter_by m et)))))
      with (sum_qtd (groupby_size (status_do_polo mapa (filter_by m et)))).
    rewrite sum_qtd_groupby_size, dropna_all_present
      by (apply status_do_polo_present).
    rewrite status_do_polo_length. exact Hn.
  - rewrite !setcol_rows_length.
    + apply registros_do_polo_count; assumption.
    + rewrite length_map. apply (filter_by_getcol_length _ _ _ m Het).
    + rewrite setcol_rows_length.
      * rewrite status_do_polo_length.
        apply (filter_by_getcol_length _ _ _ m Het).
      * rewrite length_map. apply (filter_by_getcol_length _ _ _ m Het).
Qed.

Lemma resumo_status_polo_total_witness :
  exists resumo registros,
    resumo_status_polo Examples.df_coord Examples.df_total
      (Examples.txt "R1") (Examples.txt "P1") = Ok (resumo, registros) /\
    list_sum (map qtd_registros resumo) = 4 /\
    length (rows registros) = 4.
Proof.
  apply (resumo_status_polo_total Examples.df_coord Examples.df_total
           (Examples.txt "R1") (Examples.txt "P1")
           (map Examples.txt ["R1"; "R1"; "R1"; "R1"; "R3"]%string)
           (map Examples.txt ["P1"; "P1"; "P1"; "P1"; "P9"]%string)
           (map Examples.txt ["A"; "B"; "B"; "C"; "Z"]%string)
           (map Examples.txt ["A"; "B"; "D"; "E"]%string)
           [Bool false; Bool true; Bool true; Bool true]
           [false; true; true; true]);
    try (vm_compute; reflexivity); vm_compute; lia.
Defined.

(** C8.  When no row of the totals table has the selected region and hub,
    the record status summarizer returns a summary without any status
    group (so the total is 0) and an empty table of records; no division
    takes place. *)
Theorem resumo_status_polo_empty
    (df_coord df_total : DataFrame) (gre polo : cell)
    (gt pt et ec tc : list cell) (flags : list bool) :
  getcol GRE df_total = Ok gt ->
  getcol POLO df_total = Ok pt ->
  getcol ESCOLA df_total = Ok et ->
  length (positions TEM_COORDENADOR (columns df_total)) <= 1 ->
  length (positions STATUS_COORDENADOR (columns df_total)) <= 1 ->
  getcol ESCOLA df_coord = Ok ec ->
  getcol TEM_COORDENADOR df_coord = Ok tc ->
  as_mask tc = Ok flags ->
  count_region_hub gt pt gre polo = 0 ->
  exists registros,
    resumo_status_polo df_coord df_total gre polo = Ok ([], registros) /\
    rows registros = [].
Proof.
  intros Hgt Hpt Het Htem1 Hst1 Hec Htc Hfl Hzero.
  rewrite (resumo_status_polo_eq _ _ gre polo _ _ _ _ _ _
             Hgt Hpt Het Htem1 Hst1 Hec Htc Hfl).
  set (m := and_mask (eq_mask gt gre) (eq_mask pt polo)).
  assert (Hnil : filter_by m et = []).
  { apply length_zero_iff_nil.
    rewrite (filter_by_getcol_length _ _ _ m Het).
    rewrite <- Hzero. apply registros_do_polo_count; assumption. }
  rewrite Hnil. cbn [status_do_polo map].
  eexists. split; [reflexivity|]. apply setcol_nil_rows.
Qed.

Lemma resumo_status_polo_empty_witness :
  exists registros,
    resumo_status_polo Examples.df_coord Examples.df_total
      (Examples.txt "R1") (Examples.txt "P7") = Ok ([], registros) /\
    rows registros = [].
Proof.
  apply (resumo_status_polo_empty Examples.df_coord Examples.df_total
           (Examples.txt "R1") (Examples.txt "P7")
           (map Examples.txt ["R1"; "R1"; "R1"; "R1"; "R3"]%string)
           (map Examples.txt ["P1"; "P1"; "P1"; "P1"; "P9"]%string)
           (map Examples.txt ["A"; "B"; "B"; "C"; "Z"]%string)
           (map Examples.txt ["A"; "B"; "D"; "E"]%string)
           [Bool false; Bool true; Bool true; Bool true]
           [false; true; true; true]);
    try (vm_compute; reflexivity); vm_compute; lia.
Defined.

(* ================================================================= *)
(** ** The detail table builder *)

Lemma registros_do_polo_inv (df_total reg : DataFrame) (gre polo : cell) :
  registros_do_polo df_total gre polo = Ok reg ->
  exists gt pt,
    getcol GRE df_total = Ok gt /\ getcol POLO df_total = Ok pt /\
    reg = filter_rows (and_mask (eq_mask gt gre) (eq_mask pt polo)) df_total.
Proof.
  unfold registros_do_polo. intros H.
  apply bind_Ok_inv in H. destruct H as [gt [Hgt H]].
  apply bind_Ok_inv in H. destruct H as [pt [Hpt H]].
  injection H as <-. exists gt, pt. repeat split; assumption.
Qed.

Lemma aux_por_escola_inv (df_coord aux : DataFrame) :
  aux_por_escola df_coord = Ok aux ->
  columns aux =
    [ESCOLA; INEP; COORDENADOR; TEM_COORDENADOR; STATUS_COORDENADOR] /\
  NoDup (map (fun r => nth 0 r NA) (rows aux)).
Proof.
  unfold aux_por_escola. intros H.
  apply bind_Ok_inv in H. destruct H as [escola [_ H]].
  apply bind_Ok_inv in H. destruct H as [inep [_ H]].
  apply bind_Ok_inv in H. destruct H as [coord [_ H]].
  apply bind_Ok_inv in H. destruct H as [tem [_ H]].
  apply bind_Ok_inv in H. destruct H as [flags [_ H]].
  apply bind_Ok_inv in H. destruct H as [st [_ H]].
  injection H as <-. split; [reflexivity|]. cbn [rows].
  rewrite map_map. cbn [nth]. rewrite map_id. apply group_keys_NoDup.
Qed.

(** A left join onto a table whose key column has no repeated value keeps
    the number of rows of the left table. *)
Lemma merge_left_on_rows_length (key : cell) (left right m : DataFrame) :
  merge_left_on key left right = Ok m ->
  (forall j, positions key (columns right) = [j] ->
             NoDup (map (fun r => nth j r NA) (rows right))) ->
  length (rows m) = length (rows left).
Proof.
  unfold merge_left_on. intros H Hnd.
  destruct (positions key (columns left)) as [|i [|i' ps]]; try discriminate.
  destruct (positions key (columns right)) as [|j [|j' qs]]; try discriminate.
  destruct (suffix_dups _ _ || suffix_dups _ _); [discriminate|].
  injection H as <-. cbn [rows]. rewrite length_map.
  apply left_join_unique_length. apply Hnd. reflexivity.
Qed.

Lemma select_rows_length (labels : list cell) (df t : DataFrame) :
  select labels df = Ok t -> length (rows t) = length (rows df).
Proof.
  unfold select. intros H.
  apply bind_Ok_inv in H. destruct H as [ps [_ H]].
  injection H as <-. cbn [rows]. apply length_map.
Qed.

(** Every table that [detalhe_escolas] returns has one row per row of the
    totals table with the selected region and hub. *)
Lemma detalhe_escolas_rows
    (df_coord df_total t : DataFrame) (gre polo : cell) :
  detalhe_escolas df_coord df_total gre polo = Ok t ->
  exists gt pt,
    getcol GRE df_total = Ok gt /\ getcol POLO df_total = Ok pt /\
    length (rows t) = count_region_hub gt pt gre polo.
Proof.
  unfold detalhe_escolas. intros H.
  apply bind_Ok_inv in H. destruct H as [reg [Hreg H]].
  apply bind_Ok_inv in H. destruct H as [aux [Haux H]].
  apply bind_Ok_inv in H. destruct H as [merged [Hm H]].
  apply bind_Ok_inv in H. destruct H as [st [Hst H]].
  apply bind_Ok_inv in H. destruct H as [co [Hco H]].
  apply registros_do_polo_inv in Hreg.
  destruct Hreg as [gt [pt [Hgt [Hpt ->]]]].
  exists gt, pt. split; [exact Hgt|]. split; [exact Hpt|].
  rewrite (select_rows_length _ _ _ H).
  assert (Hl1 : length (map (fillna Sem_Coordenador) st)
                = length (rows merged)).
  { rewrite length_map. apply (getcol_length _ _ _ Hst). }
  rewrite setcol_rows_length
    by (rewrite length_map; apply (getcol_length _ _ _ Hco)).
  rewrite setcol_rows_length by exact Hl1.
  rewrite (merge_left_on_rows_length _ _ _ _ Hm).
  - apply registros_do_polo_count; assumption.
  - intros j Hj. apply aux_por_escola_inv in Haux.
    destruct Haux as [Hcols Hnd]. rewrite Hcols in Hj.
    vm_compute in Hj. injection Hj as <-. exact Hnd.
Qed.

Lemma has_once_positions (l : cell) (df : DataFrame) :
  has_once l df = true -> exists i, positions l (columns df) = [i].
Proof.
  unfold has_once. intros H. apply Nat.eqb_eq in H.
  destruct (positions l (columns df)) as [|i [|j ps]]; try discriminate.
  exists i. reflexivity.
Qed.

Lemma has_once_getcol (l : cell) (df : DataFrame) :
  has_once l df = true -> exists c, getcol l df = Ok c.
Proof.
  intros H. apply has_once_positions in H. destruct H as [i Hi].
  eexists. apply getcol_of_positions. exact Hi.
Qed.

Lemma positions_singleton_In (l : cell) (cols : list cell) (i : nat) :
  positions l cols = [i] -> In l cols.
Proof.
  intros H. destruct (positions_In l cols i) as [Hi Hn].
  - rewrite H. left. reflexivity.
  - rewrite <- Hn. apply nth_In. exact Hi.
Qed.

Lemma has_label_false (l : cell) (df : DataFrame) :
  has_label l df = false -> ~ In l (columns df).
Proof.
  unfold has_label. intros H Hin. apply existsb_cell_eqb in Hin. congruence.
Qed.

Lemma bool_column_inv (l : cell) (df : DataFrame) :
  bool_column l df = true ->
  exists c m, getcol l df = Ok c /\ as_mask c = Ok m.
Proof.
  unfold bool_column. destruct (getcol l df) as [c|]; [|discriminate].
  destruct (as_mask c) as [m|] eqn:E; [|discriminate].
  intros _. exists c, m. split; [reflexivity | exact E].
Qed.

Lemma map_renamer_id (to_rename : cell -> bool) (sfx : pystr) (l : list cell) :
  (forall c, In c l -> to_rename c = false) ->
  map (renamer to_rename sfx) l = l.
Proof.
  intros H. rewrite <- (map_id l) at 2. apply map_ext_in.
  intros c Hc. unfold renamer. rewrite (H c Hc). reflexivity.
Qed.

Lemma suffix_dups_same (l : list cell) : suffix_dups l l = false.
Proof.
  unfold suffix_dups. generalize (duplicated l). intros d.
  induction d as [|b d IH]; simpl; [reflexivity|].
  rewrite IH. destruct b; reflexivity.
Qed.

(** The columns of a left join when no label but the key is shared: those
    of the left table followed by those of the right table, unrenamed. *)
Lemma merge_left_on_disjoint (key : cell) (left right : DataFrame)
    (i : nat) (rcols : list cell) :
  positions key (columns left) = [i] ->
  columns right = key :: rcols ->
  ~ In key rcols ->
  (forall c, In c rcols -> ~ In c (columns left)) ->
  exists rws,
    merge_left_on key left right = Ok (mkDF (columns left ++ rcols) rws).
Proof.
  intros Hi Hr Hk Hdis. unfold merge_left_on. rewrite Hi, Hr.
  assert (Hp : positions key (key :: rcols) = [0]).
  { unfold positions. simpl. rewrite cell_eqb_refl. f_equal.
    apply positions_from_nil.
    destruct (existsb (cell_eqb key) rcols) eqn:E; [|reflexivity].
    apply existsb_cell_eqb in E. contradiction. }
  rewrite Hp. cbn [drop_nth].
  rewrite (map_renamer_id _ _ (columns left)).
  - rewrite (map_renamer_id _ _ rcols).
    + rewrite !suffix_dups_same. simpl. eexists. reflexivity.
    + intros c Hc. apply andb_false_iff. left.
      destruct (existsb (cell_eqb c) (columns left)) eqn:E; [|reflexivity].
      apply existsb_cell_eqb in E. exfalso. exact (Hdis c Hc E).
  - intros c Hc. apply andb_false_iff. right.
    destruct (existsb (cell_eqb c) rcols) eqn:E; [|reflexivity].
    apply existsb_cell_eqb in E. exfalso. exact (Hdis c E Hc).
Qed.

Lemma select_positions_once (labels cols : list cell) :
  Forall (fun l => exists i, positions l cols = [i]) labels ->
  exists ps, select_positions labels cols = Ok ps /\
             map (fun i => nth i cols NA) ps = labels.
Proof.
  induction 1 as [|l labels [i Hi] _ [ps [Hps Hmap]]]; simpl.
  - exists []. split; reflexivity.
  - rewrite Hi, Hps. simpl. exists (i :: ps). split; [reflexivity|].
    simpl. rewrite Hmap. f_equal.
    apply (positions_In l). rewrite Hi. left. reflexivity.
Qed.

Lemma select_once (labels : list cell) (df : DataFrame) :
  Forall (fun l => exists i, positions l (columns df) = [i]) labels ->
  exists t, select labels df = Ok t /\ columns t = labels.
Proof.
  intros H. apply select_positions_once in H. destruct H as [ps [Hps Hmap]].
  unfold select. rewrite Hps. simpl. eexists. split; [reflexivity|].
  exact Hmap.
Qed.

Lemma positions_app_left (l : cell) (a b : list cell) :
  positions_from (length a) l b = [] ->
  positions l (a ++ b) = positions l a.
Proof.
  intros H. unfold positions. rewrite positions_from_app. simpl.
  rewrite H. apply app_nil_r.
Qed.

Lemma positions_app_right (l : cell) (a b : list cell) :
  ~ In l a ->
  positions l (a ++ b) = positions_from (length a) l b.
Proof.
  intros H. unfold positions. rewrite positions_from_app. simpl.
  apply positions_nil in H. unfold positions in H. rewrite H. reflexivity.
Qed.

Lemma aux_por_escola_returns (df_coord : DataFrame) :
  coord_table_ok df_coord = true ->
  exists rws, aux_por_escola df_coord = Ok (mkDF (ESCOLA :: aux_values) rws).
Proof.
  unfold coord_table_ok. intros H.
  apply andb_true_iff in H. destruct H as [H Htem].
  apply andb_true_iff in H. destruct H as [H Hst].
  apply andb_true_iff in H. destruct H as [H Hco].
  apply andb_true_iff in H. destruct H as [Hes Hin].
  apply has_once_getcol in Hes, Hin, Hco, Hst.
  destruct Hes as [es Hes]. destruct Hin as [inep Hin].
  destruct Hco as [co Hco]. destruct Hst as [st Hst].
  apply bool_column_inv in Htem. destruct Htem as [tc [m [Htc Hm]]].
  unfold aux_por_escola. rewrite Hes. cbn [bind]. rewrite Hin. cbn [bind].
  rewrite Hco. cbn [bind]. rewrite Htc. cbn [bind]. rewrite Hm. cbn [bind].
  rewrite Hst. cbn [bind]. eexists. reflexivity.
Qed.

Lemma detalhe_escolas_returns
    (df_coord df_total : DataFrame) (gre polo : cell) :
  coord_table_ok df_coord = true ->
  totals_table_ok df_total = true ->
  exists t,
    detalhe_escolas df_coord df_total gre polo = Ok t /\
    columns t = [GRE; POLO; ESCOLA; INEP; COORDENADOR; STATUS_COORDENADOR].
Proof.
  intros Hc Ht. unfold totals_table_ok in Ht.
  repeat (let H := fresh "H" in
          apply andb_true_iff in Ht; destruct Ht as [Ht H]).
  apply negb_true_iff in H, H0, H1, H2.
  apply has_label_false in H, H0, H1, H2.
  rename H into Hno_st, H0 into Hno_tem, H1 into Hno_co, H2 into Hno_in.
  apply has_once_positions in Ht, H3, H4.
  destruct Ht as [ig Hig]. destruct H3 as [ie Hie]. destruct H4 as [ip Hip].
  destruct (aux_por_escola_returns df_coord Hc) as [arows Haux].
  unfold detalhe_escolas.
  rewrite (registros_do_polo_eq df_total gre polo _ _
             (getcol_of_positions _ _ _ Hig) (getcol_of_positions _ _ _ Hip)).
  cbn [bind]. rewrite Haux. cbn [bind].
  set (reg := filter_rows _ df_total).
  destruct (merge_left_on_disjoint ESCOLA reg (mkDF (ESCOLA :: aux_values) arows)
              ie aux_values) as [rws Hm].
  - exact Hie.
  - reflexivity.
  - simpl. intuition discriminate.
  - intros c [<- | [<- | [<- | [<- | []]]]]; assumption.
  - rewrite Hm. cbn [bind]. change (columns reg) with (columns df_total).
    set (cols := columns df_total ++ aux_values).
    set (n := length (columns df_total)).
    assert (Pst : positions STATUS_COORDENADOR cols = [S (S (S n))]).
    { unfold cols. rewrite positions_app_right by exact Hno_st. reflexivity. }
    assert (Pco : positions COORDENADOR cols = [S n]).
    { unfold cols. rewrite positions_app_right by exact Hno_co. reflexivity. }
    assert (Pin : positions INEP cols = [n]).
    { unfold cols. rewrite positions_app_right by exact Hno_in. reflexivity. }
    assert (Pg : positions GRE cols = [ig]).
    { unfold cols. rewrite positions_app_left by reflexivity. exact Hig. }
    assert (Pp : positions POLO cols = [ip]).
    { unfold cols. rewrite positions_app_left by reflexivity. exact Hip. }
    assert (Pe : positions ESCOLA cols = [ie]).
    { unfold cols. rewrite positions_app_left by reflexivity. exact Hie. }
    set (merged := mkDF cols rws).
    rewrite (getcol_of_positions STATUS_COORDENADOR merged _ Pst).
    cbn [bind].
    set (st := map (fillna Sem_Coordenador) _).
    assert (Hlst : length st = length (rows merged)).
    { unfold st. rewrite !length_map. reflexivity. }
    assert (C1 : columns (setcol STATUS_COORDENADOR st merged) = cols).
    { rewrite setcol_columns. change (columns merged) with cols.
      rewrite Pst. reflexivity. }
    rewrite (getcol_setcol_other STATUS_COORDENADOR COORDENADOR st merged)
      by (reflexivity || exact Hlst).
    rewrite (getcol_of_positions COORDENADOR merged _ Pco). cbn [bind].
    set (co := map (fillna (Str Sem_informacao)) _).
    set (final := setcol COORDENADOR co _).
    assert (C2 : columns final = cols).
    { unfold final. rewrite setcol_columns, C1, Pco. reflexivity. }
    assert (Hlabels : colunas_finais final =
              [GRE; POLO; ESCOLA; INEP; COORDENADOR; STATUS_COORDENADOR]).
    { unfold colunas_finais, has_label. rewrite C2.
      assert (Hex : forall l i, positions l cols = [i] ->
                                existsb (cell_eqb l) cols = true).
      { intros l i Hl. apply existsb_cell_eqb.
        apply (positions_singleton_In _ _ _ Hl). }
      rewrite (Hex _ _ Pg), (Hex _ _ Pp), (Hex _ _ Pin). reflexivity. }
    rewrite Hlabels. apply select_once. rewrite C2.
    repeat constructor; eexists; eassumption.
Qed.

(** C9.  The table returned by the detail table builder has exactly as many
    rows as the totals table has rows with the selected region and hub:
    the left join onto the per-school auxiliary table, whose schools are
    distinct, neither drops nor duplicates a row. *)
Theorem detalhe_escolas_row_count
    (df_coord df_total : DataFrame) (gre polo : cell) :
  (coord_table_ok df_coord = true -> totals_table_ok df_total = true ->
   exists t, detalhe_escolas df_coord df_total gre polo = Ok t) /\
  (forall t,
     detalhe_escolas df_coord df_total gre polo = Ok t ->
     exists gt pt,
       getcol GRE df_total = Ok gt /\ getcol POLO df_total = Ok pt /\
       length (rows t) = count_region_hub gt pt gre polo).
Proof.
  split.
  - intros Hc Ht.
    destruct (detalhe_escolas_returns df_coord df_total gre polo Hc Ht)
      as [t [Hm _]].
    exists t. exact Hm.
  - intros t. apply detalhe_escolas_rows.
Qed.

Lemma detalhe_escolas_row_count_witness :
  exists t,
    detalhe_escolas Examples.df_coord Examples.df_total
      (Examples.txt "R1") (Examples.txt "P1") = Ok t /\
    length (rows t) = 4.
Proof.
  destruct (detalhe_escolas_row_count Examples.df_coord Examples.df_total
              (Examples.txt "R1") (Examples.txt "P1")) as [Hret Hrows].
  destruct (Hret eq_refl eq_refl) as [t Ht].
  exists t. split; [exact Ht|].
  destruct (Hrows t Ht) as [gt [pt [Hgt [Hpt Hlen]]]].
  rewrite Hlen. vm_compute in Hgt. vm_compute in Hpt.
  injection Hgt as <-. injection Hpt as <-. reflexivity.
Defined.

(** C10 (as amended).  When the totals table has the columns GRE, POLO and
    ESCOLA and no column named INEP, COORDENADOR, TEM_COORDENADOR or
    STATUS_COORDENADOR, the columns of the detail table are GRE, POLO,
    ESCOLA, INEP, COORDENADOR, STATUS_COORDENADOR in that order, the
    identifier being the one of the coordinator table.  The region and hub
    columns are never left out: a totals table without GRE or without POLO
    makes the builder fail with a lookup error. *)
Theorem detalhe_escolas_columns
    (df_coord df_total : DataFrame) (gre polo : cell) :
  (coord_table_ok df_coord = true -> totals_table_ok df_total = true ->
   exists t,
     detalhe_escolas df_coord df_total gre polo = Ok t /\
     columns t = [GRE; POLO; ESCOLA; INEP; COORDENADOR; STATUS_COORDENADOR]) /\
  (has_label GRE df_total = false ->
   detalhe_escolas df_coord df_total gre polo = Err (KeyError GRE)) /\
  (has_once GRE df_total = true -> has_label POLO df_total = false ->
   detalhe_escolas df_coord df_total gre polo = Err (KeyError POLO)).
Proof.
  split; [apply detalhe_escolas_returns|]. split.
  - intros H. apply has_label_false in H. apply positions_nil in H.
    unfold detalhe_escolas, registros_do_polo, getcol. rewrite H. reflexivity.
  - intros Hg Hp. apply has_once_positions in Hg. destruct Hg as [i Hi].
    apply has_label_false in Hp. apply positions_nil in Hp.
    unfold detalhe_escolas, registros_do_polo, getcol.
    rewrite Hi. cbn [bind]. rewrite Hp. reflexivity.
Qed.

Lemma detalhe_escolas_columns_witness :
  (exists t,
     detalhe_escolas Examples.df_coord Examples.df_total
       (Examples.txt "R1") (Examples.txt "P1") = Ok t /\
     columns t = [GRE; POLO; ESCOLA; INEP; COORDENADOR; STATUS_COORDENADOR]) /\
  detalhe_escolas Examples.df_coord Examples.df_total_sem_gre
    (Examples.txt "R1") (Examples.txt "P1") = Err (KeyError GRE).
Proof.
  split.
  - apply (detalhe_escolas_columns Examples.df_coord Examples.df_total
             (Examples.txt "R1") (Examples.txt "P1")); reflexivity.
  - apply (detalhe_escolas_columns Examples.df_coord Examples.df_total_sem_gre
             (Examples.txt "R1") (Examples.txt "P1")). reflexivity.
Defined.

(** C10 as stated fails: the worked totals table has no INEP column, and
    the detail table has one all the same; and a totals table without the
    GRE column yields no table at all. *)
Lemma detalhe_escolas_inep_not_omitted :
  has_label INEP Examples.df_total = false /\
  (exists t,
     detalhe_escolas Examples.df_coord Examples.df_total
       (Examples.txt "R1") (Examples.txt "P1") = Ok t /\
     In INEP (columns t)) /\
  has_label GRE Examples.df_total_sem_gre = false /\
  detalhe_escolas Examples.df_coord Examples.df_total_sem_gre
    (Examples.txt "R1") (Examples.txt "P1") = Err (KeyError GRE).
Proof.
  split; [reflexivity|]. split.
  - eexists. split; [vm_compute; reflexivity|]. simpl. auto 10.
  - split; reflexivity.
Qed.

(** When both tables have an INEP column, the join renames them INEP_x and
    INEP_y, and the detail table is left without identifier. *)
Example detalhe_escolas_inep_collision :
  has_label INEP Examples.df_total_inep = true /\
  exists t,
    detalhe_escolas Examples.df_coord Examples.df_total_inep
      (Examples.txt "R1") (Examples.txt "P1") = Ok t /\
    columns t = [GRE; POLO; ESCOLA; COORDENADOR; STATUS_COORDENADOR].
Proof.
  split; [reflexivity|]. eexists. split; vm_compute; reflexivity.
Qed.

(** The scenario of the specification: three schools in R1, one of them
    with a coordinator, give one third. *)
Example agg_por_gre_cenario :
  exists df_coord,
    load_data_coordenadores lower_latin1 Examples.raw_coord_cenario
      = Ok df_coord /\
    agg_por_gre df_coord Examples.df_total_cenario
      = Ok [mkAgg (Examples.txt "R1") 3 1 (FFin (100 # 3))].
Proof.
  eexists. split; vm_compute; reflexivity.
Qed.

(* ================================================================= *)
(** * Further properties *)

(** ** The coordinator table loader, continued *)

Lemma positions_from_complete (i : nat) (l : cell) (cols : list cell) (k : nat) :
  k < length cols -> nth k cols NA = l ->
  In (i + k) (positions_from i l cols).
Proof.
  revert i k. induction cols as [|c cols IH]; intros i k Hk Hn; simpl in *;
    [lia|].
  destruct k as [|k].
  - subst c. rewrite cell_eqb_refl, Nat.add_0_r. left. reflexivity.
  - replace (i + S k) with (S i + k) by lia.
    destruct (cell_eqb l c); [right|]; apply IH; (lia || exact Hn).
Qed.

Lemma positions_complete (l : cell) (cols : list cell) (k : nat) :
  k < length cols -> nth k cols NA = l -> In k (positions l cols).
Proof. intros Hk Hn. apply (positions_from_complete 0 l cols k Hk Hn). Qed.

Lemma getcol_two_positions (l : cell) (df : DataFrame) (i j : nat) :
  i <> j ->
  i < length (columns df) -> nth i (columns df) NA = l ->
  j < length (columns df) -> nth j (columns df) NA = l ->
  getcol l df = Err (NotASeries l).
Proof.
  intros Hij Hi Hni Hj Hnj. unfold getcol.
  pose proof (positions_complete l _ i Hi Hni) as Pi.
  pose proof (positions_complete l _ j Hj Hnj) as Pj.
  destruct (positions l (columns df)) as [|a [|b ps]]; try reflexivity.
  - destruct Pi.
  - simpl in Pi, Pj. exfalso. destruct Pi as [<- | []].
    destruct Pj as [<- | []]. apply Hij. reflexivity.
Qed.

Lemma getcol_absent (l : cell) (df : DataFrame) :
  ~ In l (columns df) -> getcol l df = Err (KeyError l).
Proof.
  intros H. apply positions_nil in H. unfold getcol. rewrite H. reflexivity.
Qed.

Lemma getcol_Ok_iff (l : cell) (df : DataFrame) :
  (exists c, getcol l df = Ok c) <-> length (positions l (columns df)) = 1.
Proof.
  unfold getcol. destruct (positions l (columns df)) as [|i [|j ps]]; simpl;
    split; try discriminate; try (intros [c H]; discriminate).
  - intros _. reflexivity.
  - intros _. eexists. reflexivity.
Qed.

Lemma getcol_setcol_same_Ok_iff (l : cell) (vals : list cell) (df : DataFrame) :
  length vals = length (rows df) ->
  ((exists c, getcol l (setcol l vals df) = Ok c)
   <-> length (positions l (columns df)) <= 1).
Proof.
  intros Hlen. split.
  - intros [c H].
    destruct (Nat.le_gt_cases (length (positions l (columns df))) 1)
      as [Hc | Hc]; [exact Hc|].
    exfalso. unfold getcol in H. rewrite setcol_columns in H.
    destruct (positions l (columns df)) as [|i [|j ps]] eqn:E;
      simpl in Hc; try lia.
    rewrite E in H. discriminate.
  - intros Hc. exists vals. apply getcol_setcol_same; assumption.
Qed.


(** X2.  A sheet whose header row has no coordinator column is refused
    with [KeyError], and one that has both "NOME DO COORDENADOR" and
    "COORDENADOR" is refused as well: after the renaming the label is
    duplicated.  A sheet without any row is refused with [IndexError]. *)
Theorem load_data_coordenadores_errors
    (lower : pystr -> pystr) (raw : DataFrame) :
  (rows raw = [] -> load_data_coordenadores lower raw = Err IndexError) /\
  (rows raw <> [] -> ~ In COORDENADOR (cabecalho raw) ->
   load_data_coordenadores lower raw = Err (KeyError COORDENADOR)) /\
  (forall header data i j,
     rows raw = header :: data ->
     i < length (columns raw) -> j < length (columns raw) ->
     nth i header NA = NOME_DO_COORDENADOR ->
     nth j header NA = COORDENADOR ->
     load_data_coordenadores lower raw = Err (NotASeries COORDENADOR)).
Proof.
  split; [|split].
  - intros H. unfold load_data_coordenadores. rewrite H. reflexivity.
  - intros Hne Hno. destruct (rows raw) as [|header data] eqn:Hrows;
      [congruence|].
    rewrite (load_data_coordenadores_unfold lower raw header data Hrows).
    cbv zeta. rewrite getcol_absent by exact Hno. reflexivity.
  - intros header data i j Hrows Hi Hj Hni Hnj.
    rewrite (load_data_coordenadores_unfold lower raw header data Hrows).
    cbv zeta.
    assert (Hlen : length (cabecalho raw) = length (columns raw)).
    { unfold cabecalho. rewrite Hrows, length_map. apply length_fit. }
    assert (Hnth : forall k, k < length (columns raw) ->
              nth k (cabecalho raw) NA = rename_label (nth k header NA)).
    { intros k Hk. unfold cabecalho. rewrite Hrows.
      change NA with (rename_label NA) at 1. rewrite map_nth.
      rewrite nth_fit by exact Hk. reflexivity. }
    rewrite (getcol_two_positions COORDENADOR
               (mkDF (cabecalho raw) data) i j).
    + reflexivity.
    + intros E. subst j. rewrite Hni in Hnj. discriminate.
    + cbn [columns]. rewrite Hlen. exact Hi.
    + cbn [columns]. rewrite (Hnth i Hi), Hni. reflexivity.
    + cbn [columns]. rewrite Hlen. exact Hj.
    + cbn [columns]. rewrite (Hnth j Hj), Hnj. reflexivity.
Qed.

(** X3.  The loaded table has one row less than the sheet (the header
    row), and every column other than the two derived ones holds what the
    sheet held under the header. *)
Theorem load_data_coordenadores_passes_through
    (lower : pystr -> pystr) (raw df : DataFrame) :
  load_data_coordenadores lower raw = Ok df ->
  S (length (rows df)) = length (rows raw) /\
  forall l, l <> TEM_COORDENADOR -> l <> STATUS_COORDENADOR ->
    getcol l df = getcol l (mkDF (cabecalho raw) (tl (rows raw))).
Proof.
  intros H. apply load_data_coordenadores_inv in H.
  destruct H as [header [data [coord [tem [Hrows [Hcoord [_ [Htem ->]]]]]]]].
  rewrite Hrows.
  - cbn [tl]. set (df0 := mkDF (cabecalho raw) data) in *.
    assert (Hl0 : length (map (fun c => Bool (tem_coordenador lower c)) coord)
                  = length (rows df0)).
    { rewrite length_map. apply (getcol_length _ _ _ Hcoord). }
    assert (Hl1 : length (map status_of tem)
                  = length (rows (setcol TEM_COORDENADOR
                       (map (fun c => Bool (tem_coordenador lower c)) coord)
                       df0))).
    { rewrite length_map. apply (getcol_length _ _ _ Htem). }
    split.
    + rewrite setcol_rows_length by exact Hl1.
      rewrite setcol_rows_length by exact Hl0. reflexivity.
    + intros l Ht Hs.
      rewrite getcol_setcol_other
        by (exact Hl1 || (apply cell_eqb_neq; exact Hs)).
      apply getcol_setcol_other;
        [apply cell_eqb_neq; exact Ht | exact Hl0].
Qed.

(** On a sheet that names STATUS_COORDENADOR twice and has two data rows,
    the assignment of the status column takes its two values as one value
    for each of the two columns. *)
Lemma sheet_status_repetido_loaded :
  load_data_coordenadores lower_latin1 Casos.sheet_status_repetido =
  Ok (mkDF [COORDENADOR; STATUS_COORDENADOR; STATUS_COORDENADOR;
            TEM_COORDENADOR]
        [ [Examples.txt "Ana"; Com_Coordenador; Sem_Coordenador; Bool true];
          [Str sem_informacao; Com_Coordenador; Sem_Coordenador;
           Bool false] ]).
Proof. vm_compute. reflexivity. Qed.

Lemma status_of_Bool (b : bool) :
  status_of (Bool b) = if b then Com_Coordenador else Sem_Coordenador.
Proof. destruct b; reflexivity. Qed.

(** X4.  When the header row names at most one STATUS_COORDENADOR column,
    the status of every row of the loaded table is "Com Coordenador" if
    the flag of that row is true and "Sem Coordenador" if it is false. *)
Theorem load_data_coordenadores_status
    (lower : pystr -> pystr) (raw df : DataFrame) :
  load_data_coordenadores lower raw = Ok df ->
  length (positions STATUS_COORDENADOR (cabecalho raw)) <= 1 ->
  exists flags,
    getcol TEM_COORDENADOR df = Ok (map Bool flags) /\
    getcol STATUS_COORDENADOR df =
      Ok (map (fun b : bool => if b then Com_Coordenador else Sem_Coordenador)
              flags).
Proof.
  intros H Hst. apply load_data_coordenadores_inv in H.
  destruct H as [header [data [coord [tem [Hrows [Hcoord [_ [Htem ->]]]]]]]].
  - set (df0 := mkDF (cabecalho raw) data) in *.
    assert (Hl0 : length (map (fun c => Bool (tem_coordenador lower c)) coord)
                  = length (rows df0)).
    { rewrite length_map. apply (getcol_length _ _ _ Hcoord). }
    assert (Hl1 : length (map status_of tem)
                  = length (rows (setcol TEM_COORDENADOR
                       (map (fun c => Bool (tem_coordenador lower c)) coord)
                       df0))).
    { rewrite length_map. apply (getcol_length _ _ _ Htem). }
    pose proof (getcol_setcol_same_inv _ _ _ _ Hl0 Htem) as Etem.
    exists (map (tem_coordenador lower) coord). split.
    + rewrite getcol_setcol_other by (reflexivity || exact Hl1).
      rewrite Htem, Etem, map_map. reflexivity.
    + rewrite getcol_setcol_same.
      * rewrite Etem, !map_map. reflexivity.
      * exact Hl1.
      * rewrite positions_setcol_other by reflexivity. exact Hst.
Qed.

(** ** White space around the coordinator value *)

Lemma lstrip_spaces (ws s : pystr) :
  forallb isspace ws = true -> lstrip (ws ++ s) = lstrip s.
Proof.
  induction ws as [|c ws IH]; simpl; intros H; [reflexivity|].
  apply andb_true_iff in H. destruct H as [Hc Hws]. rewrite Hc.
  apply IH. exact Hws.
Qed.

Lemma forallb_rev {A} (f : A -> bool) (l : list A) :
  forallb f (rev l) = forallb f l.
Proof.
  induction l as [|x l IH]; simpl; [reflexivity|].
  rewrite forallb_app, IH. simpl. rewrite andb_true_r. apply andb_comm.
Qed.

Lemma rstrip_spaces (s ws : pystr) :
  forallb isspace ws = true -> rstrip (s ++ ws) = rstrip s.
Proof.
  intros H. unfold rstrip. rewrite rev_app_distr.
  rewrite lstrip_spaces by (rewrite forallb_rev; exact H). reflexivity.
Qed.

Lemma lstrip_all_spaces (s : pystr) :
  forallb isspace s = true -> lstrip s = [].
Proof.
  induction s as [|c s IH]; simpl; intros H; [reflexivity|].
  apply andb_true_iff in H. destruct H as [Hc Hs]. rewrite Hc. auto.
Qed.

Lemma lstrip_app_spaces (s ws : pystr) :
  forallb isspace ws = true ->
  lstrip (s ++ ws) = [] /\ lstrip s = [] \/ lstrip (s ++ ws) = lstrip s ++ ws.
Proof.
  intros H. induction s as [|c s IH]; simpl.
  - left. split; [apply lstrip_all_spaces; exact H | reflexivity].
  - destruct (isspace c); [exact IH | right; reflexivity].
Qed.

Lemma strip_padded (ws s ws' : pystr) :
  forallb isspace ws = true -> forallb isspace ws' = true ->
  strip (ws ++ s ++ ws') = strip s.
Proof.
  intros H H'. unfold strip. rewrite lstrip_spaces by exact H.
  destruct (lstrip_app_spaces s ws' H') as [[E1 E2] | E].
  - rewrite E1, E2. reflexivity.
  - rewrite E. apply rstrip_spaces. exact H'.
Qed.

(** X5.  White space before and after the coordinator value does not
    change the flag: a padded value gets the flag of the bare one. *)
Theorem tem_coordenador_ignores_padding
    (lower : pystr -> pystr) (ws s ws' : pystr) :
  forallb isspace ws = true -> forallb isspace ws' = true ->
  tem_coordenador lower (Str (ws ++ s ++ ws')) = tem_coordenador lower (Str s).
Proof.
  intros H H'. unfold tem_coordenador. cbn [fillna].
  rewrite strip_padded by assumption. reflexivity.
Qed.

(* ================================================================= *)
(** ** The aggregators, continued *)

Lemma perc_of_eq (c t : nat) :
  f_fillna0 (f_mul100 (f_div_counts c t)) = perc_of c t.
Proof. destruct t, c; reflexivity. Qed.

Lemma nunique_distinct_where (l : list cell) (P : cell -> Prop) :
  (forall e, In e l <-> P e) -> distinct_where P (nunique l).
Proof.
  intros H. destruct (nunique_distinct l) as [u [Hu [Hin Hlen]]].
  exists u. split; [exact Hu|]. split; [|exact Hlen].
  intros e. rewrite Hin, H. reflexivity.
Qed.

(** X6.  Every row of the region aggregator carries, for its region, the
    number of distinct schools that the totals table lists under it, the
    number of distinct schools that the coordinator table lists under it
    with a true flag, and their ratio times 100; when the first number is
    0 the percentage is 0 if the second is 0 too and infinite otherwise. *)
Theorem agg_por_gre_row_values
    (df_coord df_total : DataFrame)
    (gt et tc gc ec : list cell) (mask : list bool) :
  getcol GRE df_total = Ok gt ->
  getcol ESCOLA df_total = Ok et ->
  getcol TEM_COORDENADOR df_coord = Ok tc ->
  as_mask tc = Ok mask ->
  getcol GRE df_coord = Ok gc ->
  getcol ESCOLA df_coord = Ok ec ->
  exists r,
    agg_por_gre df_coord df_total = Ok r /\
    forall row, In row r ->
      distinct_where (fun e => In (chave row, e) (combine gt et))
                     (total_escolas row) /\
      distinct_where
        (fun e => In (chave row, e, Bool true) (combine (combine gc ec) tc))
        (escolas_com_coord row) /\
      perc_com_coord row = perc_of (escolas_com_coord row) (total_escolas row).
Proof.
  intros Hgt Het Htc Hm Hgc Hec.
  rewrite (agg_por_gre_eq _ _ _ _ _ _ _ _ Hgt Het Htc Hm Hgc Hec).
  eexists. split; [reflexivity|]. intros row Hrow.
  apply (Permutation_in _ (sort_by_perc_perm _)) in Hrow.
  apply in_map_iff in Hrow. destruct Hrow as [k [<- _]].
  cbn [chave total_escolas escolas_com_coord perc_com_coord].
  split; [|split].
  - apply nunique_distinct_where. intros e. apply group_of_In.
  - apply nunique_distinct_where. intros e. rewrite group_of_In.
    apply (filter_by_In_mask tc mask _ _ Hm).
  - apply perc_of_eq.
Qed.

Lemma has_once_iff (l : cell) (df : DataFrame) :
  has_once l df = true <-> exists c, getcol l df = Ok c.
Proof.
  unfold has_once. rewrite Nat.eqb_eq. symmetry. apply getcol_Ok_iff.
Qed.

Lemma bool_column_iff (l : cell) (df : DataFrame) :
  bool_column l df = true <->
  exists c m, getcol l df = Ok c /\ as_mask c = Ok m.
Proof.
  split; [apply bool_column_inv|].
  intros [c [m [Hc Hm]]]. unfold bool_column. rewrite Hc, Hm. reflexivity.
Qed.

Lemma groupby_nunique_df_inv (k v : cell) (df : DataFrame)
    (x : list (cell * nat)) :
  groupby_nunique_df k v df = Ok x ->
  exists ks vs, getcol k df = Ok ks /\ getcol v df = Ok vs.
Proof.
  unfold groupby_nunique_df. intros H.
  apply bind_Ok_inv in H. destruct H as [ks [Hk H]].
  apply bind_Ok_inv in H. destruct H as [vs [Hv _]].
  exists ks, vs. split; assumption.
Qed.

Lemma getcol_filter_rows_inv (l : cell) (m : list bool) (df : DataFrame)
    (c : list cell) :
  getcol l (filter_rows m df) = Ok c -> exists c', getcol l df = Ok c'.
Proof.
  rewrite getcol_filter_rows. intros H.
  apply bind_Ok_inv in H. destruct H as [c' [Hc' _]]. exists c'. exact Hc'.
Qed.

(** X7.  The region aggregator returns a table only if the totals table
    has one GRE and one ESCOLA column and the coordinator table has one
    GRE column, one ESCOLA column and a boolean TEM_COORDENADOR column.
    The totals table is read first: without GRE column the failure is
    [KeyError] on GRE, and with GRE but without ESCOLA column it is
    [KeyError] on ESCOLA, whatever the coordinator table is. *)
Theorem agg_por_gre_requires (df_coord df_total : DataFrame) :
  ((exists r, agg_por_gre df_coord df_total = Ok r) ->
   has_once GRE df_total = true /\ has_once ESCOLA df_total = true /\
   bool_column TEM_COORDENADOR df_coord = true /\
   has_once GRE df_coord = true /\ has_once ESCOLA df_coord = true) /\
  (has_label GRE df_total = false ->
   agg_por_gre df_coord df_total = Err (KeyError GRE)) /\
  (has_once GRE df_total = true -> has_label ESCOLA df_total = false ->
   agg_por_gre df_coord df_total = Err (KeyError ESCOLA)).
Proof.
  split; [|split].
  - intros [r H]. unfold agg_por_gre in H.
    apply bind_Ok_inv in H. destruct H as [totais [Ht H]].
    apply bind_Ok_inv in H. destruct H as [tem [Htem H]].
    apply bind_Ok_inv in H. destruct H as [mask [Hmask H]].
    apply bind_Ok_inv in H. destruct H as [com [Hc _]].
    apply groupby_nunique_df_inv in Ht. destruct Ht as [gt [et [Hgt Het]]].
    apply groupby_nunique_df_inv in Hc. destruct Hc as [gc [ec [Hgc Hec]]].
    apply getcol_filter_rows_inv in Hgc, Hec.
    rewrite !has_once_iff, bool_column_iff.
    repeat split; eauto.
  - intros H. apply has_label_false in H.
    unfold agg_por_gre, groupby_nunique_df.
    rewrite (getcol_absent _ _ H). reflexivity.
  - intros Hg He. apply has_once_iff in Hg. destruct Hg as [gt Hgt].
    apply has_label_false in He.
    unfold agg_por_gre, groupby_nunique_df.
    rewrite Hgt. cbn [bind]. rewrite (getcol_absent _ _ He). reflexivity.
Qed.

(** ** The hub aggregator *)

Lemma py_eq_true (a v : cell) : py_eq a v = true <-> a = v /\ v <> NA.
Proof.
  unfold py_eq. rewrite andb_true_iff, cell_eqb_eq, negb_true_iff. split.
  - intros [Hna E]. subst v. split; [reflexivity|].
    intros E. subst a. discriminate.
  - intros [E Hna]. subst v. split; [|reflexivity].
    destruct a; try reflexivity. congruence.
Qed.

Lemma filter_by_eq_mask_In {A} (a : list cell) (v : cell) (l : list A) (x : A) :
  In x (filter_by (eq_mask a v) l) <-> In (v, x) (combine a l) /\ v <> NA.
Proof.
  revert l. induction a as [|g a IH]; intros [|y l]; simpl; try tauto.
  specialize (IH l). destruct (py_eq g v) eqn:E.
  - apply py_eq_true in E. destruct E as [-> Hna]. simpl. rewrite IH.
    split.
    + intros [-> | [H _]]; split; auto.
    + intros [[H | H] _]; [left; congruence | right; tauto].
  - rewrite IH. split.
    + intros [H Hna]. split; [right; exact H | exact Hna].
    + intros [[H | H] Hna]; [|tauto].
      exfalso. injection H as -> ->.
      assert (py_eq v v = true) by (apply py_eq_true; tauto). congruence.
Qed.

Lemma filter_by_eq_and_mask_In {A} (a tem : list cell) (mask : list bool)
    (v : cell) (l : list A) (x : A) :
  as_mask tem = Ok mask ->
  (In x (filter_by (and_mask (eq_mask a v) mask) l) <->
   In (v, x, Bool true) (combine (combine a l) tem) /\ v <> NA).
Proof.
  revert mask a l. induction tem as [|t tem IH]; simpl; intros mask a l H.
  - injection H as <-. destruct a, l; simpl; tauto.
  - destruct t as [| | |b]; try discriminate.
    apply bind_Ok_inv in H. destruct H as [m [Hm H]]. injection H as <-.
    destruct a as [|g a]; [simpl; tauto|].
    destruct l as [|y l]; [simpl; tauto|].
    specialize (IH m a l Hm). simpl.
    destruct (py_eq g v) eqn:E, b; simpl; rewrite IH.
    + apply py_eq_true in E. destruct E as [-> Hna]. split.
      * intros [-> | [H _]]; split; auto.
      * intros [[H | H] _]; [left; congruence | right; tauto].
    + split; [tauto|]. intros [[H | H] Hna]; [discriminate | tauto].
    + split; [tauto|]. intros [[H | H] Hna]; [|tauto].
      exfalso. injection H as -> ->.
      assert (py_eq v v = true) by (apply py_eq_true; tauto). congruence.
    + split; [tauto|]. intros [[H | H] Hna]; [discriminate | tauto].
Qed.

(** X8.  The hub aggregator yields one row for each hub that the totals
    table lists under the selected region, and no other row; the row
    carries the number of distinct schools of that region and hub in the
    totals table, the number of distinct flagged schools of that region
    and hub in the coordinator table, and their ratio times 100. *)
Theorem agg_por_polo_rows
    (df_coord df_total : DataFrame) (gre : cell)
    (gt pt et tc gc pc ec : list cell) (mask : list bool) :
  getcol GRE df_total = Ok gt ->
  getcol POLO df_total = Ok pt ->
  getcol ESCOLA df_total = Ok et ->
  getcol TEM_COORDENADOR df_coord = Ok tc ->
  as_mask tc = Ok mask ->
  getcol GRE df_coord = Ok gc ->
  getcol POLO df_coord = Ok pc ->
  getcol ESCOLA df_coord = Ok ec ->
  exists r,
    agg_por_polo df_coord df_total gre = Ok r /\
    NoDup (map chave r) /\
    (forall k, In k (map chave r) <->
       k <> NA /\ gre <> NA /\
       exists e, In (gre, (k, e)) (combine gt (combine pt et))) /\
    forall row, In row r ->
      distinct_where
        (fun e => In (gre, (chave row, e)) (combine gt (combine pt et)))
        (total_escolas row) /\
      distinct_where
        (fun e => In (gre, (chave row, e), Bool true)
                     (combine (combine gc (combine pc ec)) tc))
        (escolas_com_coord row) /\
      perc_com_coord row = perc_of (escolas_com_coord row) (total_escolas row).
Proof.
  intros Hgt Hpt Het Htc Hm Hgc Hpc Hec.
  rewrite (agg_por_polo_eq _ _ gre _ _ _ _ _ _ _ _
             Hgt Hpt Het Htc Hm Hgc Hpc Hec).
  rewrite resumo_rows_groupby.
  set (kv_t := filter_by (eq_mask gt gre) (combine pt et)).
  set (kv_c := filter_by (and_mask (eq_mask gc gre) mask) (combine pc ec)).
  set (mk := fun k : cell => mkAgg k _ _ _).
  assert (Hperm : Permutation
            (map chave (sort_by_perc (map mk (group_keys (map fst kv_t)))))
            (group_keys (map fst kv_t))).
  { rewrite (Permutation_map chave (sort_by_perc_perm _)).
    rewrite map_map. simpl. rewrite map_id. reflexivity. }
  assert (Hkey : forall k, In k (group_keys (map fst kv_t)) <->
            k <> NA /\ gre <> NA /\
            exists e, In (gre, (k, e)) (combine gt (combine pt et))).
  { intros k. rewrite group_keys_In, in_map_iff. split.
    - intros [[[k' e] [E H]] Hna]. simpl in E. subst k'.
      apply filter_by_eq_mask_In in H. destruct H as [H Hg].
      split; [exact Hna|]. split; [exact Hg|]. exists e. exact H.
    - intros [Hna [Hg [e H]]]. split; [|exact Hna].
      exists (k, e). split; [reflexivity|].
      apply filter_by_eq_mask_In. split; assumption. }
  eexists. split; [reflexivity|]. split; [|split].
  - apply (Permutation_NoDup (l := group_keys (map fst kv_t)));
      [symmetry; exact Hperm | apply group_keys_NoDup].
  - intros k. rewrite <- Hkey. split; apply Permutation_in;
      [exact Hperm | symmetry; exact Hperm].
  - intros row Hrow.
    apply (Permutation_in _ (sort_by_perc_perm _)) in Hrow.
    apply in_map_iff in Hrow. destruct Hrow as [k [<- Hk]].
    apply Hkey in Hk. destruct Hk as [_ [Hg _]].
    cbn [chave total_escolas escolas_com_coord perc_com_coord].
    split; [|split].
    + apply nunique_distinct_where. intros e. rewrite group_of_In.
      unfold kv_t. rewrite filter_by_eq_mask_In. tauto.
    + apply nunique_distinct_where. intros e. rewrite group_of_In.
      unfold kv_c. rewrite (filter_by_eq_and_mask_In gc tc mask _ _ _ Hm).
      tauto.
    + apply perc_of_eq.
Qed.

Lemma filter_by_eq_mask_none {A} (a : list cell) (v : cell) (l : list A) :
  v = NA \/ ~ In v a -> filter_by (eq_mask a v) l = [].
Proof.
  intros H. destruct (filter_by (eq_mask a v) l) as [|x xs] eqn:E;
    [reflexivity|].
  exfalso. assert (Hx : In x (filter_by (eq_mask a v) l))
    by (rewrite E; left; reflexivity).
  apply filter_by_eq_mask_In in Hx. destruct Hx as [Hin Hna].
  destruct H as [H | H]; [contradiction|].
  apply H. apply (in_combine_l _ _ _ _ Hin).
Qed.

(** X9.  For a region that the totals table does not list, or for a
    missing region, the hub aggregator returns an empty table and raises
    nothing. *)
Theorem agg_por_polo_unknown_region
    (df_coord df_total : DataFrame) (gre : cell)
    (gt pt et tc gc pc ec : list cell) (mask : list bool) :
  getcol GRE df_total = Ok gt ->
  getcol POLO df_total = Ok pt ->
  getcol ESCOLA df_total = Ok et ->
  getcol TEM_COORDENADOR df_coord = Ok tc ->
  as_mask tc = Ok mask ->
  getcol GRE df_coord = Ok gc ->
  getcol POLO df_coord = Ok pc ->
  getcol ESCOLA df_coord = Ok ec ->
  gre = NA \/ ~ In gre gt ->
  agg_por_polo df_coord df_total gre = Ok [].
Proof.
  intros Hgt Hpt Het Htc Hm Hgc Hpc Hec Hno.
  rewrite (agg_por_polo_eq _ _ gre _ _ _ _ _ _ _ _
             Hgt Hpt Het Htc Hm Hgc Hpc Hec).
  rewrite (filter_by_eq_mask_none gt gre _ Hno). reflexivity.
Qed.

(* ================================================================= *)
(** ** The record status summarizer, continued *)

Lemma status_do_polo_two (mapa : list (cell * bool)) (escola : list cell)
    (c : cell) :
  In c (status_do_polo mapa escola) ->
  c = Com_Coordenador \/ c = Sem_Coordenador.
Proof.
  unfold status_do_polo. rewrite map_map. intros H.
  apply in_map_iff in H. destruct H as [e [<- _]].
  unfold map_dict. destruct (find _ mapa) as [p|]; simpl.
  - destruct (snd p); auto.
  - auto.
Qed.

Lemma unique_two_labels (l : list cell) :
  (forall c, In c l -> c = Com_Coordenador \/ c = Sem_Coordenador) ->
  unique l = [] \/ unique l = [Com_Coordenador] \/
  unique l = [Sem_Coordenador] \/
  unique l = [Com_Coordenador; Sem_Coordenador] \/
  unique l = [Sem_Coordenador; Com_Coordenador].
Proof.
  induction l as [|x l IH]; intros H; [left; reflexivity|].
  assert (Hx : x = Com_Coordenador \/ x = Sem_Coordenador)
    by (apply H; left; reflexivity).
  assert (Hl : forall c, In c l -> c = Com_Coordenador \/ c = Sem_Coordenador)
    by (intros c Hc; apply H; right; exact Hc).
  specialize (IH Hl). cbn [unique].
  destruct Hx as [-> | ->];
    destruct IH as [E | [E | [E | [E | E]]]]; rewrite E; vm_compute; auto 6.
Qed.

Lemma group_keys_two_labels (l : list cell) :
  (forall c, In c l -> c = Com_Coordenador \/ c = Sem_Coordenador) ->
  group_keys l = [] \/ group_keys l = [Com_Coordenador] \/
  group_keys l = [Sem_Coordenador] \/
  group_keys l = [Com_Coordenador; Sem_Coordenador].
Proof.
  intros H. unfold group_keys. rewrite dropna_all_present.
  - destruct (unique_two_labels l H) as [E | [E | [E | [E | E]]]];
      rewrite E; vm_compute; auto 6.
  - intros c Hc. destruct (H c Hc) as [-> | ->]; discriminate.
Qed.

Lemma count_cell_pos (l : list cell) (k : cell) :
  In k l -> 1 <= count_cell l k.
Proof.
  unfold count_cell. induction l as [|x l IH]; simpl; [tauto|].
  intros [-> | H].
  - rewrite cell_eqb_refl. simpl. lia.
  - destruct (cell_eqb k x); simpl; [lia | apply IH; exact H].
Qed.

Lemma count_cell_le (l : list cell) (k : cell) : count_cell l k <= length l.
Proof. apply filter_length_le. Qed.

Lemma pct_pos (a b : nat) :
  0 < a -> 0 < b ->
  (0 < inject_Z (Z.of_nat a) / inject_Z (Z.of_nat b) * 100)%Q.
Proof.
  intros Ha Hb. destruct a as [|a]; [lia|]. destruct b as [|b]; [lia|].
  unfold Qlt, Qdiv, Qmult, Qinv, inject_Z. cbn [Qnum Qden].
  rewrite !Nat2Z.inj_succ.
  destruct (Z.succ (Z.of_nat b)) eqn:E; try lia.
  cbn [Qnum Qden]. lia.
Qed.

Lemma sum_qtd_status (mapa : list (cell * bool)) (escola : list cell) :
  sum_qtd (groupby_size (status_do_polo mapa escola)) = length escola.
Proof.
  rewrite sum_qtd_groupby_size, dropna_all_present
    by (apply status_do_polo_present).
  apply status_do_polo_length.
Qed.

(** X10.  The summary of the record status summarizer has at most two
    rows: "Com Coordenador", "Sem Coordenador", or the former followed by
    the latter; a status without record has no row, so every count is at
    least 1. *)
Theorem resumo_status_polo_groups
    (df_coord df_total : DataFrame) (gre polo : cell)
    (gt pt et ec tc : list cell) (flags : list bool) :
  getcol GRE df_total = Ok gt ->
  getcol POLO df_total = Ok pt ->
  getcol ESCOLA df_total = Ok et ->
  length (positions TEM_COORDENADOR (columns df_total)) <= 1 ->
  length (positions STATUS_COORDENADOR (columns df_total)) <= 1 ->
  getcol ESCOLA df_coord = Ok ec ->
  getcol TEM_COORDENADOR df_coord = Ok tc ->
  as_mask tc = Ok flags ->
  exists resumo registros,
    resumo_status_polo df_coord df_total gre polo = Ok (resumo, registros) /\
    (map status resumo = [] \/
     map status resumo = [Com_Coordenador] \/
     map status resumo = [Sem_Coordenador] \/
     map status resumo = [Com_Coordenador; Sem_Coordenador]) /\
    forall row, In row resumo -> 1 <= qtd_registros row.
Proof.
  intros Hgt Hpt Het Htem1 Hst1 Hec Htc Hfl.
  rewrite (resumo_status_polo_eq _ _ gre polo _ _ _ _ _ _
             Hgt Hpt Het Htem1 Hst1 Hec Htc Hfl).
  set (st := status_do_polo _ _).
  eexists. eexists. split; [reflexivity|]. split.
  - rewrite map_map. cbn [status]. unfold groupby_size. rewrite map_map.
    cbn [fst]. rewrite map_id. apply group_keys_two_labels.
    intros c. apply status_do_polo_two.
  - intros row Hrow. apply in_map_iff in Hrow.
    destruct Hrow as [p [<- Hp]]. cbn [qtd_registros].
    unfold groupby_size in Hp. apply in_map_iff in Hp.
    destruct Hp as [k [<- Hk]]. cbn [snd].
    apply group_keys_In in Hk. apply (count_cell_pos st k). tauto.
Qed.

(** X11.  The percentage of a row of the summary is its count divided by
    the number of records of the selected region and hub, times 100; it
    is finite, greater than 0 and at most 100. *)
Theorem resumo_status_polo_percentual
    (df_coord df_total : DataFrame) (gre polo : cell)
    (gt pt et ec tc : list cell) (flags : list bool) :
  getcol GRE df_total = Ok gt ->
  getcol POLO df_total = Ok pt ->
  getcol ESCOLA df_total = Ok et ->
  length (positions TEM_COORDENADOR (columns df_total)) <= 1 ->
  length (positions STATUS_COORDENADOR (columns df_total)) <= 1 ->
  getcol ESCOLA df_coord = Ok ec ->
  getcol TEM_COORDENADOR df_coord = Ok tc ->
  as_mask tc = Ok flags ->
  exists resumo registros,
    resumo_status_polo df_coord df_total gre polo = Ok (resumo, registros) /\
    forall row, In row resumo ->
      exists q,
        percentual row = FFin q /\
        q = (inject_Z (Z.of_nat (qtd_registros row))
             / inject_Z (Z.of_nat (count_region_hub gt pt gre polo)) * 100)%Q /\
        (0 < q)%Q /\ (q <= 100)%Q.
Proof.
  intros Hgt Hpt Het Htem1 Hst1 Hec Htc Hfl.
  rewrite (resumo_status_polo_eq _ _ gre polo _ _ _ _ _ _
             Hgt Hpt Het Htem1 Hst1 Hec Htc Hfl).
  set (m := and_mask (eq_mask gt gre) (eq_mask pt polo)).
  set (mapa := groupby_max (combine ec flags)).
  assert (Hn : length (filter_by m et) = count_region_hub gt pt gre polo).
  { rewrite (filter_by_getcol_length _ _ _ m Het).
    apply registros_do_polo_count; assumption. }
  rewrite sum_qtd_status, Hn.
  set (st := status_do_polo mapa (filter_by m et)).
  eexists. eexists. split; [reflexivity|].
  intros row Hrow. apply in_map_iff in Hrow.
  destruct Hrow as [p [<- Hp]]. cbn [qtd_registros percentual].
  unfold groupby_size in Hp. apply in_map_iff in Hp.
  destruct Hp as [k [<- Hk]]. cbn [snd].
  apply group_keys_In in Hk. destruct Hk as [Hk _].
  pose proof (count_cell_pos st k Hk) as H1.
  pose proof (count_cell_le st k) as H2.
  unfold st in H2 at 2. rewrite status_do_polo_length, Hn in H2.
  fold (count_cell st k).
  rewrite perc_of_eq. unfold perc_of.
  destruct (count_region_hub gt pt gre polo) as [|n] eqn:En; [lia|].
  eexists. split; [reflexivity|]. split; [reflexivity|]. split.
  - apply pct_pos; lia.
  - apply pct_le_100; [discriminate | exact H2].
Qed.

Lemma existsb_group_flags (e : cell) (ec : list cell) (flags : list bool) :
  existsb (fun b => b) (group_of e (combine ec flags)) =
  existsb (fun p => cell_eqb e (fst p) && cell_eqb (snd p) (Bool true))
          (combine ec (map Bool flags)).
Proof.
  unfold group_of. revert flags.
  induction ec as [|x ec IH]; intros [|b flags]; simpl; try reflexivity.
  destruct (cell_eqb e x); simpl; rewrite IH; [|reflexivity].
  destruct b; reflexivity.
Qed.

(** The flag that the summarizer looks up for a school is the disjunction
    of the flags of the rows of the coordinator table that name it. *)
Lemma map_dict_groupby_max (ec tc : list cell) (flags : list bool) (e : cell) :
  as_mask tc = Ok flags ->
  fillna (Bool false) (map_dict (groupby_max (combine ec flags)) e) =
  Bool (escola_com_coordenador ec tc e).
Proof.
  intros Hfl. rewrite (as_mask_map_Bool _ _ Hfl).
  unfold escola_com_coordenador. rewrite <- existsb_group_flags.
  unfold map_dict, groupby_max.
  rewrite (find_keyed (fun k => existsb (fun b => b)
                                  (group_of k (combine ec flags)))).
  destruct (existsb (cell_eqb e) (group_keys (map fst (combine ec flags))))
    eqn:E.
  - apply existsb_cell_eqb in E. apply group_keys_In in E.
    destruct E as [_ Hna]. destruct e; try reflexivity. congruence.
  - cbn [fillna]. destruct e; cbn [isna negb andb]; try reflexivity;
      (rewrite group_of_absent; [reflexivity|]);
      intros Hin;
      (assert (Hk : In _ (group_keys (map fst (combine ec flags))))
         by (apply group_keys_In; split; [exact Hin | discriminate]));
      apply existsb_cell_eqb in Hk; congruence.
Qed.

Lemma status_do_polo_eq (ec tc : list cell) (flags : list bool)
    (escola : list cell) :
  as_mask tc = Ok flags ->
  status_do_polo (groupby_max (combine ec flags)) escola =
  map (fun e => if escola_com_coordenador ec tc e
                then Com_Coordenador else Sem_Coordenador) escola.
Proof.
  intros Hfl. unfold status_do_polo. rewrite map_map. apply map_ext.
  intros e. rewrite (map_dict_groupby_max ec tc flags e Hfl).
  apply status_of_Bool.
Qed.

(** The columns of the table of records that the summarizer returns. *)
Lemma resumo_status_polo_registros
    (df_coord df_total : DataFrame) (gre polo : cell)
    (gt pt et ec tc : list cell) (flags : list bool) :
  getcol GRE df_total = Ok gt ->
  getcol POLO df_total = Ok pt ->
  getcol ESCOLA df_total = Ok et ->
  length (positions TEM_COORDENADOR (columns df_total)) <= 1 ->
  length (positions STATUS_COORDENADOR (columns df_total)) <= 1 ->
  getcol ESCOLA df_coord = Ok ec ->
  getcol TEM_COORDENADOR df_coord = Ok tc ->
  as_mask tc = Ok flags ->
  let m := and_mask (eq_mask gt gre) (eq_mask pt polo) in
  exists resumo registros,
    resumo_status_polo df_coord df_total gre polo = Ok (resumo, registros) /\
    resumo = map (fun p => mkStatus (fst p) (snd p)
                    (perc_of (snd p) (length (filter_by m et))))
                 (groupby_size
                    (map (fun e => if escola_com_coordenador ec tc e
                                   then Com_Coordenador else Sem_Coordenador)
                         (filter_by m et))) /\
    getcol TEM_COORDENADOR registros =
      Ok (map (fun e => Bool (escola_com_coordenador ec tc e))
              (filter_by m et)) /\
    getcol STATUS_COORDENADOR registros =
      Ok (map (fun e => if escola_com_coordenador ec tc e
                        then Com_Coordenador else Sem_Coordenador)
              (filter_by m et)) /\
    forall l, l <> TEM_COORDENADOR -> l <> STATUS_COORDENADOR ->
      getcol l registros = getcol l (filter_rows m df_total).
Proof.
  intros Hgt Hpt Het Htem1 Hst1 Hec Htc Hfl m.
  rewrite (resumo_status_polo_eq _ _ gre polo _ _ _ _ _ _
             Hgt Hpt Het Htem1 Hst1 Hec Htc Hfl).
  fold m. set (mapa := groupby_max (combine ec flags)).
  set (tem := map (fun e => fillna (Bool false) (map_dict mapa e))
                  (filter_by m et)).
  assert (Hlen : length tem = length (rows (filter_rows m df_total))).
  { unfold tem. rewrite length_map.
    apply (filter_by_getcol_length _ _ _ m Het). }
  assert (Hlen' : length (status_do_polo mapa (filter_by m et))
                  = length (rows (setcol TEM_COORDENADOR tem
                                         (filter_rows m df_total)))).
  { rewrite setcol_rows_length by exact Hlen.
    rewrite status_do_polo_length.
    apply (filter_by_getcol_length _ _ _ m Het). }
  eexists. eexists. split; [reflexivity|]. split; [|split; [|split]].
  - rewrite sum_qtd_status. unfold mapa.
    rewrite (status_do_polo_eq ec tc flags _ Hfl).
    apply map_ext. intros p. rewrite perc_of_eq. reflexivity.
  - rewrite getcol_setcol_other by (reflexivity || exact Hlen').
    rewrite getcol_setcol_same by (exact Hlen || exact Htem1).
    f_equal. unfold tem. apply map_ext. intros e.
    apply (map_dict_groupby_max ec tc flags e Hfl).
  - rewrite getcol_setcol_same.
    + f_equal. apply (status_do_polo_eq ec tc flags _ Hfl).
    + exact Hlen'.
    + rewrite positions_setcol_other by reflexivity. exact Hst1.
  - intros l Ht Hs.
    rewrite getcol_setcol_other
      by (exact Hlen' || (apply cell_eqb_neq; exact Hs)).
    apply getcol_setcol_other; [apply cell_eqb_neq; exact Ht | exact Hlen].
Qed.

Lemma positions_singleton_In_gen (l : cell) (cols : list cell) (i : nat) :
  In i (positions l cols) -> In l cols.
Proof.
  intros H. apply positions_In in H. destruct H as [Hi Hn].
  rewrite <- Hn. apply nth_In. exact Hi.
Qed.

Lemma escola_com_coordenador_true (ec tc : list cell) (e : cell) :
  escola_com_coordenador ec tc e = true <->
  e <> NA /\ In (e, Bool true) (combine ec tc).
Proof.
  unfold escola_com_coordenador.
  rewrite andb_true_iff, negb_true_iff, existsb_exists. split.
  - intros [Hna [[x t] [Hin H]]]. simpl in H.
    apply andb_true_iff in H. destruct H as [H1 H2].
    apply cell_eqb_eq in H1, H2. subst x t. split; [|exact Hin].
    intros E. subst e. discriminate.
  - intros [Hna Hin]. split.
    + destruct e; try reflexivity. congruence.
    + exists (e, Bool true). split; [exact Hin|]. simpl.
      rewrite cell_eqb_refl. reflexivity.
Qed.

(** X12.  In the table of records that the summarizer returns, the flag of
    a record is true exactly when its school is present and some row of
    the coordinator table names that school with a true flag (a school
    that the coordinator table does not list gets false), and the status
    of the record is the label of that flag. *)
Theorem resumo_status_polo_flags
    (df_coord df_total : DataFrame) (gre polo : cell)
    (gt pt et ec tc : list cell) (flags : list bool) :
  getcol GRE df_total = Ok gt ->
  getcol POLO df_total = Ok pt ->
  getcol ESCOLA df_total = Ok et ->
  length (positions TEM_COORDENADOR (columns df_total)) <= 1 ->
  length (positions STATUS_COORDENADOR (columns df_total)) <= 1 ->
  getcol ESCOLA df_coord = Ok ec ->
  getcol TEM_COORDENADOR df_coord = Ok tc ->
  as_mask tc = Ok flags ->
  exists resumo registros escola tem,
    resumo_status_polo df_coord df_total gre polo = Ok (resumo, registros) /\
    getcol ESCOLA registros = Ok escola /\
    getcol TEM_COORDENADOR registros = Ok (map Bool tem) /\
    getcol STATUS_COORDENADOR registros =
      Ok (map (fun b : bool => if b then Com_Coordenador else Sem_Coordenador)
              tem) /\
    length tem = length escola /\
    forall i e b, nth_error escola i = Some e -> nth_error tem i = Some b ->
      (b = true <-> e <> NA /\ In (e, Bool true) (combine ec tc)).
Proof.
  intros Hgt Hpt Het Htem1 Hst1 Hec Htc Hfl.
  destruct (resumo_status_polo_registros df_coord df_total gre polo
              _ _ _ _ _ _ Hgt Hpt Het Htem1 Hst1 Hec Htc Hfl)
    as [resumo [registros [Hret [_ [Ht [Hs Hother]]]]]].
  set (m := and_mask (eq_mask gt gre) (eq_mask pt polo)) in *.
  exists resumo, registros, (filter_by m et),
    (map (escola_com_coordenador ec tc) (filter_by m et)).
  split; [exact Hret|]. split; [|split; [|split; [|split]]].
  - rewrite Hother by discriminate.
    rewrite getcol_filter_rows, Het. reflexivity.
  - rewrite Ht, map_map. reflexivity.
  - rewrite Hs, map_map. reflexivity.
  - apply length_map.
  - intros i e b He Hb. rewrite nth_error_map, He in Hb.
    injection Hb as <-. apply escola_com_coordenador_true.
Qed.

(** X13.  The table of records is the slice of the totals table for the
    selected region and hub, with its rows and all its other columns
    unchanged, plus the two columns TEM_COORDENADOR and
    STATUS_COORDENADOR. *)
Theorem resumo_status_polo_keeps_columns
    (df_coord df_total : DataFrame) (gre polo : cell)
    (gt pt et ec tc : list cell) (flags : list bool) :
  getcol GRE df_total = Ok gt ->
  getcol POLO df_total = Ok pt ->
  getcol ESCOLA df_total = Ok et ->
  length (positions TEM_COORDENADOR (columns df_total)) <= 1 ->
  length (positions STATUS_COORDENADOR (columns df_total)) <= 1 ->
  getcol ESCOLA df_coord = Ok ec ->
  getcol TEM_COORDENADOR df_coord = Ok tc ->
  as_mask tc = Ok flags ->
  exists resumo registros slice,
    resumo_status_polo df_coord df_total gre polo = Ok (resumo, registros) /\
    registros_do_polo df_total gre polo = Ok slice /\
    length (rows registros) = length (rows slice) /\
    (forall l, l <> TEM_COORDENADOR -> l <> STATUS_COORDENADOR ->
       getcol l registros = getcol l slice) /\
    (forall l, In l (columns registros) <->
       In l (columns df_total) \/ l = TEM_COORDENADOR
       \/ l = STATUS_COORDENADOR).
Proof.
  intros Hgt Hpt Het Htem1 Hst1 Hec Htc Hfl.
  destruct (resumo_status_polo_registros df_coord df_total gre polo
              _ _ _ _ _ _ Hgt Hpt Het Htem1 Hst1 Hec Htc Hfl)
    as [resumo [registros [Hret [_ [Ht [Hs Hother]]]]]].
  set (m := and_mask (eq_mask gt gre) (eq_mask pt polo)) in *.
  exists resumo, registros, (filter_rows m df_total).
  split; [exact Hret|]. split; [apply registros_do_polo_eq; assumption|].
  split; [|split; [exact Hother|]].
  - rewrite <- (getcol_length _ _ _ Ht), length_map.
    apply (filter_by_getcol_length _ _ _ m Het).
  - pose proof Hret as Heq.
    rewrite (resumo_status_polo_eq _ _ gre polo _ _ _ _ _ _
               Hgt Hpt Het Htem1 Hst1 Hec Htc Hfl) in Heq.
    injection Heq as _ <-. intros l.
    rewrite !setcol_columns. cbn [filter_rows columns].
    fold m.
    destruct (positions TEM_COORDENADOR (columns df_total)) as [|i ps] eqn:E1.
    + rewrite positions_app_other by reflexivity.
      destruct (positions STATUS_COORDENADOR (columns df_total))
        as [|j qs] eqn:E2.
      * rewrite !in_app_iff. simpl. intuition congruence.
      * rewrite in_app_iff. simpl.
        assert (HS : In STATUS_COORDENADOR (columns df_total)).
        { apply (positions_singleton_In_gen _ _ j). rewrite E2. left.
          reflexivity. }
        split; [intuition congruence|].
        intros [H | [H | H]]; [left; exact H | right; left; congruence |].
        left. rewrite H. exact HS.
    + assert (HT : In TEM_COORDENADOR (columns df_total)).
      { apply (positions_singleton_In_gen _ _ i). rewrite E1. left.
        reflexivity. }
      destruct (positions STATUS_COORDENADOR (columns df_total))
        as [|j qs] eqn:E2.
      * rewrite in_app_iff. simpl. split; [intuition congruence|].
        intros [H | [H | H]]; [left; exact H | | right; left; congruence].
        left. rewrite H. exact HT.
      * assert (HS : In STATUS_COORDENADOR (columns df_total)).
        { apply (positions_singleton_In_gen _ _ j). rewrite E2. left.
          reflexivity. }
        split; [auto|]. intros [H | [H | H]]; [exact H | |]; rewrite H;
          assumption.
Qed.

(** ** The figures of the block "Resumo do Polo" *)

Lemma count_cell_labels (f : cell -> bool) (escola : list cell) :
  count_cell (map (fun e => if f e then Com_Coordenador else Sem_Coordenador)
                  escola) Com_Coordenador
  = length (filter f escola).
Proof.
  unfold count_cell. induction escola as [|e l IH]; simpl; [reflexivity|].
  destruct (f e); simpl; rewrite IH; reflexivity.
Qed.

Lemma filter_partition_length {A} (f : A -> bool) (l : list A) :
  length (filter f l) + length (filter (fun x => negb (f x)) l) = length l.
Proof.
  induction l as [|x l IH]; simpl; [reflexivity|].
  destruct (f x); simpl; lia.
Qed.

Lemma com_coord_sum (st : list cell) :
  (forall c, In c st -> c = Com_Coordenador \/ c = Sem_Coordenador) ->
  list_sum (map snd (filter (fun p => py_eq (fst p) Com_Coordenador)
                            (groupby_size st)))
  = count_cell st Com_Coordenador.
Proof.
  intros H.
  assert (Habs : ~ In Com_Coordenador (group_keys st) ->
                 count_cell st Com_Coordenador = 0).
  { intros Hno. apply count_cell_absent. intros Hin. apply Hno.
    apply group_keys_In. split; [exact Hin | discriminate]. }
  unfold groupby_size, count_cell in *.
  destruct (group_keys_two_labels st H) as [E | [E | [E | E]]];
    rewrite E in *; cbn [map filter fst snd list_sum fold_right];
    change (py_eq Com_Coordenador Com_Coordenador) with true;
    change (py_eq Sem_Coordenador Com_Coordenador) with false;
    cbn [map filter fst snd list_sum fold_right].
  - symmetry. apply Habs. simpl. tauto.
  - lia.
  - symmetry. apply Habs. simpl. intros [H1 | []]. discriminate.
  - lia.
Qed.

Lemma com_coord_rows (h : cell * nat -> fval) (g : list (cell * nat)) :
  list_sum (map qtd_registros
              (filter (fun r => py_eq (status r) Com_Coordenador)
                      (map (fun p => mkStatus (fst p) (snd p) (h p)) g)))
  = list_sum (map snd (filter (fun p => py_eq (fst p) Com_Coordenador) g)).
Proof.
  induction g as [|p g IH]; [reflexivity|]. simpl.
  destruct (py_eq (fst p) Com_Coordenador); simpl; rewrite IH; reflexivity.
Qed.

(** X14.  The three figures that the report shows for a hub are the number
    of records of the selected region and hub, the number of those records
    whose school has a coordinator according to the coordinator table, and
    the number of the remaining records. *)
Theorem resumo_do_polo_figures
    (df_coord df_total : DataFrame) (gre polo : cell)
    (gt pt et ec tc : list cell) (flags : list bool) :
  getcol GRE df_total = Ok gt ->
  getcol POLO df_total = Ok pt ->
  getcol ESCOLA df_total = Ok et ->
  length (positions TEM_COORDENADOR (columns df_total)) <= 1 ->
  length (positions STATUS_COORDENADOR (columns df_total)) <= 1 ->
  getcol ESCOLA df_coord = Ok ec ->
  getcol TEM_COORDENADOR df_coord = Ok tc ->
  as_mask tc = Ok flags ->
  exists resumo registros escola,
    resumo_status_polo df_coord df_total gre polo = Ok (resumo, registros) /\
    getcol ESCOLA registros = Ok escola /\
    length escola = count_region_hub gt pt gre polo /\
    resumo_do_polo resumo =
      (Z.of_nat (length escola),
       Z.of_nat (length (filter (escola_com_coordenador ec tc) escola)),
       Z.of_nat (length (filter (fun e => negb (escola_com_coordenador ec tc e))
                                escola))).
Proof.
  intros Hgt Hpt Het Htem1 Hst1 Hec Htc Hfl.
  destruct (resumo_status_polo_registros df_coord df_total gre polo
              _ _ _ _ _ _ Hgt Hpt Het Htem1 Hst1 Hec Htc Hfl)
    as [resumo [registros [Hret [Hres [_ [_ Hother]]]]]].
  set (m := and_mask (eq_mask gt gre) (eq_mask pt polo)) in *.
  set (lab := fun e => if escola_com_coordenador ec tc e
                       then Com_Coordenador else Sem_Coordenador) in *.
  exists resumo, registros, (filter_by m et).
  split; [exact Hret|]. split; [|split].
  - rewrite Hother by discriminate.
    rewrite getcol_filter_rows, Het. reflexivity.
  - rewrite (filter_by_getcol_length _ _ _ m Het).
    apply registros_do_polo_count; assumption.
  - assert (Htwo : forall c, In c (map lab (filter_by m et)) ->
                     c = Com_Coordenador \/ c = Sem_Coordenador).
    { intros c Hc. apply in_map_iff in Hc. destruct Hc as [e [<- _]].
      unfold lab. destruct (escola_com_coordenador ec tc e); auto. }
    assert (Htot : list_sum (map qtd_registros resumo)
                   = length (filter_by m et)).
    { rewrite Hres, map_map. cbn [qtd_registros].
      change (list_sum (map (fun p => snd p)
                            (groupby_size (map lab (filter_by m et)))))
        with (sum_qtd (groupby_size (map lab (filter_by m et)))).
      rewrite sum_qtd_groupby_size, dropna_all_present, length_map;
        [reflexivity|].
      intros c Hc. destruct (Htwo c Hc) as [-> | ->]; discriminate. }
    assert (Hcom : list_sum (map qtd_registros
                     (filter (fun r => py_eq (status r) Com_Coordenador)
                             resumo))
                   = length (filter (escola_com_coordenador ec tc)
                                    (filter_by m et))).
    { rewrite Hres.
      rewrite <- (count_cell_labels (escola_com_coordenador ec tc)).
      fold lab. rewrite <- (com_coord_sum _ Htwo).
      apply com_coord_rows. }
    unfold resumo_do_polo. rewrite Htot, Hcom.
    pose proof (filter_partition_length (escola_com_coordenador ec tc)
                  (filter_by m et)) as Hp.
    f_equal. lia.
Qed.

(* ================================================================= *)
(** ** The detail table builder, continued *)

Lemma merge_left_on_disjoint_rows (key : cell) (left right : DataFrame)
    (i : nat) (rcols : list cell) :
  positions key (columns left) = [i] ->
  columns right = key :: rcols ->
  ~ In key rcols ->
  (forall c, In c rcols -> ~ In c (columns left)) ->
  NoDup (map (fun r => nth 0 r NA) (rows right)) ->
  merge_left_on key left right =
  Ok (mkDF (columns left ++ rcols)
        (map (fun row =>
                fit (length (columns left)) row ++
                match find (fun r => cell_eqb (nth i row NA) (nth 0 r NA))
                           (rows right) with
                | Some r => drop_nth 0 (fit (S (length rcols)) r)
                | None => repeat NA (length rcols)
                end)
             (rows left))).
Proof.
  intros Hi Hr Hk Hdis Hnd. unfold merge_left_on. rewrite Hi, Hr.
  assert (Hp : positions key (key :: rcols) = [0]).
  { unfold positions. simpl. rewrite cell_eqb_refl. f_equal.
    apply positions_from_nil.
    destruct (existsb (cell_eqb key) rcols) eqn:E; [|reflexivity].
    apply existsb_cell_eqb in E. contradiction. }
  rewrite Hp. cbn [drop_nth].
  rewrite (map_renamer_id _ _ (columns left)).
  - rewrite (map_renamer_id _ _ rcols).
    + rewrite !suffix_dups_same. cbn [orb].
      rewrite (left_join_unique _ _ _ _ Hnd), map_map. reflexivity.
    + intros c Hc. apply andb_false_iff. left.
      destruct (existsb (cell_eqb c) (columns left)) eqn:E; [|reflexivity].
      apply existsb_cell_eqb in E. exfalso. exact (Hdis c Hc E).
  - intros c Hc. apply andb_false_iff. right.
    destruct (existsb (cell_eqb c) rcols) eqn:E; [|reflexivity].
    apply existsb_cell_eqb in E. exfalso. exact (Hdis c E Hc).
Qed.

Lemma find_by_first (rowfn : cell -> list cell) (e : cell) (ks : list cell) :
  (forall k, nth 0 (rowfn k) NA = k) ->
  find (fun r => cell_eqb e (nth 0 r NA)) (map rowfn ks) =
  if existsb (cell_eqb e) ks then Some (rowfn e) else None.
Proof.
  intros H. induction ks as [|k ks IH]; simpl; [reflexivity|].
  rewrite H. destruct (cell_eqb e k) eqn:E; simpl.
  - apply cell_eqb_eq in E. subst k. reflexivity.
  - exact IH.
Qed.

Lemma primeiro_da_escola_keys (es vals : list cell) (e : cell) :
  (if existsb (cell_eqb e) (group_keys es)
   then first_valid (group_of e (combine es vals)) else NA)
  = primeiro_da_escola es vals e.
Proof.
  unfold primeiro_da_escola.
  destruct (existsb (cell_eqb e) (group_keys es)) eqn:E.
  - apply existsb_cell_eqb in E. apply group_keys_In in E.
    destruct E as [_ Hna]. destruct e; try reflexivity. congruence.
  - destruct e; cbn [isna]; try reflexivity;
      (rewrite group_of_absent; [reflexivity|]);
      intros Hin; apply in_map_iff in Hin;
      destruct Hin as [[x v] [Ex Hin]]; simpl in Ex; subst x;
      apply in_combine_l in Hin;
      (assert (Hk : In _ (group_keys es))
         by (apply group_keys_In; split; [exact Hin | discriminate]));
      apply existsb_cell_eqb in Hk; congruence.
Qed.

Lemma nth_app_fit_left (n i : nat) (row x : list cell) :
  i < n -> nth i (fit n row ++ x) NA = nth i row NA.
Proof.
  intros H. rewrite app_nth1 by (rewrite length_fit; exact H).
  apply nth_fit. exact H.
Qed.

Lemma nth_app_fit_right (n k : nat) (row x : list cell) :
  nth (k + n) (fit n row ++ x) NA = nth k x NA.
Proof.
  rewrite app_nth2 by (rewrite length_fit; lia).
  rewrite length_fit. f_equal. lia.
Qed.

(** The auxiliary table, explicitly. *)
Lemma aux_por_escola_eq (df_coord : DataFrame)
    (es inep co tc st : list cell) (flags : list bool) :
  getcol ESCOLA df_coord = Ok es ->
  getcol INEP df_coord = Ok inep ->
  getcol COORDENADOR df_coord = Ok co ->
  getcol TEM_COORDENADOR df_coord = Ok tc ->
  as_mask tc = Ok flags ->
  getcol STATUS_COORDENADOR df_coord = Ok st ->
  aux_por_escola df_coord =
  Ok (mkDF (ESCOLA :: aux_values)
        (map (fun k =>
                [k;
                 first_valid (group_of k (combine es inep));
                 first_valid (group_of k (combine es co));
                 Bool (existsb (fun b => b) (group_of k (combine es flags)));
                 first_valid (group_of k (combine es st))])
             (group_keys es))).
Proof.
  intros Hes Hin Hco Htc Hm Hst. unfold aux_por_escola.
  rewrite Hes. cbn [bind]. rewrite Hin. cbn [bind]. rewrite Hco. cbn [bind].
  rewrite Htc. cbn [bind]. rewrite Hm. cbn [bind]. rewrite Hst. reflexivity.
Qed.

(** The detail table, column by column. *)
Lemma detalhe_escolas_table
    (df_coord df_total : DataFrame) (gre polo : cell)
    (gt pt et es inep co tc st : list cell) (flags : list bool) :
  getcol GRE df_total = Ok gt ->
  getcol POLO df_total = Ok pt ->
  getcol ESCOLA df_total = Ok et ->
  totals_table_ok df_total = true ->
  getcol ESCOLA df_coord = Ok es ->
  getcol INEP df_coord = Ok inep ->
  getcol COORDENADOR df_coord = Ok co ->
  getcol TEM_COORDENADOR df_coord = Ok tc ->
  as_mask tc = Ok flags ->
  getcol STATUS_COORDENADOR df_coord = Ok st ->
  let m := and_mask (eq_mask gt gre) (eq_mask pt polo) in
  exists t,
    detalhe_escolas df_coord df_total gre polo = Ok t /\
    getcol GRE t = Ok (filter_by m gt) /\
    getcol POLO t = Ok (filter_by m pt) /\
    getcol ESCOLA t = Ok (filter_by m et) /\
    getcol INEP t = Ok (map (primeiro_da_escola es inep) (filter_by m et)) /\
    getcol COORDENADOR t =
      Ok (map (fun e => fillna (Str Sem_informacao)
                               (primeiro_da_escola es co e))
              (filter_by m et)) /\
    getcol STATUS_COORDENADOR t =
      Ok (map (fun e => fillna Sem_Coordenador (primeiro_da_escola es st e))
              (filter_by m et)).
Proof.
  intros Hgt Hpt Het Ht Hes Hinep Hco Htc Hfl Hst m.
  unfold totals_table_ok in Ht.
  repeat (let H := fresh "H" in
          apply andb_true_iff in Ht; destruct Ht as [Ht H]).
  apply negb_true_iff in H, H0, H1, H2.
  apply has_label_false in H, H0, H1, H2.
  rename H into Hno_st, H0 into Hno_tem, H1 into Hno_co, H2 into Hno_in.
  clear Ht H3 H4.
  destruct (getcol_inv _ _ _ Hgt) as [ig [Hig [Hig_lt Egt]]].
  destruct (getcol_inv _ _ _ Hpt) as [ip [Hip [Hip_lt Ept]]].
  destruct (getcol_inv _ _ _ Het) as [ie [Hie [Hie_lt Eet]]].
  unfold detalhe_escolas.
  rewrite (registros_do_polo_eq df_total gre polo _ _ Hgt Hpt).
  cbn [bind]. fold m.
  rewrite (aux_por_escola_eq _ _ _ _ _ _ _ Hes Hinep Hco Htc Hfl Hst).
  cbn [bind].
  set (rowfn := fun k : cell => [k; _; _; _; _]).
  set (reg := filter_rows m df_total).
  rewrite (merge_left_on_disjoint_rows ESCOLA reg
             (mkDF (ESCOLA :: aux_values) (map rowfn (group_keys es)))
             ie aux_values).
  2: exact Hie.
  2: reflexivity.
  2: simpl; intuition discriminate.
  2: intros c [<- | [<- | [<- | [<- | []]]]]; assumption.
  2: { cbn [rows]. rewrite map_map. cbn [nth]. rewrite map_id.
       apply group_keys_NoDup. }
  cbn [bind rows]. change (columns reg) with (columns df_total).
  set (cols := columns df_total ++ aux_values).
  set (n := length (columns df_total)).
  set (tail := fun e : cell =>
         match find (fun r => cell_eqb e (nth 0 r NA))
                    (map rowfn (group_keys es)) with
         | Some r => drop_nth 0 (fit (S (length aux_values)) r)
         | None => repeat NA (length aux_values)
         end).
  set (rws := map _ (rows reg)).
  assert (Erws : rws = map (fun row => fit n row ++ tail (nth ie row NA))
                           (rows reg)) by reflexivity.
  clearbody rws.
  assert (Htail : forall e,
            tail e = [primeiro_da_escola es inep e;
                      primeiro_da_escola es co e;
                      (if existsb (cell_eqb e) (group_keys es)
                       then Bool (existsb (fun b => b)
                                    (group_of e (combine es flags)))
                       else NA);
                      primeiro_da_escola es st e]).
  { intros e. unfold tail.
    rewrite (find_by_first rowfn e (group_keys es)) by reflexivity.
    rewrite <- !primeiro_da_escola_keys.
    destruct (existsb (cell_eqb e) (group_keys es)); reflexivity. }
  assert (Pst : positions STATUS_COORDENADOR cols = [S (S (S n))]).
  { unfold cols. rewrite positions_app_right by exact Hno_st. reflexivity. }
  assert (Pco : positions COORDENADOR cols = [S n]).
  { unfold cols. rewrite positions_app_right by exact Hno_co. reflexivity. }
  assert (Pin : positions INEP cols = [n]).
  { unfold cols. rewrite positions_app_right by exact Hno_in. reflexivity. }
  assert (Pg : positions GRE cols = [ig]).
  { unfold cols. rewrite positions_app_left by reflexivity. exact Hig. }
  assert (Pp : positions POLO cols = [ip]).
  { unfold cols. rewrite positions_app_left by reflexivity. exact Hip. }
  assert (Pe : positions ESCOLA cols = [ie]).
  { unfold cols. rewrite positions_app_left by reflexivity. exact Hie. }
  set (merged := mkDF cols rws).
  (* the columns of the merged table *)
  assert (Mleft : forall i, i < n ->
            map (fun r => nth i r NA) rws
            = filter_by m (map (fun r => nth i r NA) (rows df_total))).
  { intros i Hi. rewrite Erws, map_map, filter_by_map.
    apply map_ext. intros row. apply nth_app_fit_left. exact Hi. }
  assert (Mesc : map (fun r => nth ie r NA) rws = filter_by m et).
  { rewrite Eet. apply Mleft. exact Hie_lt. }
  assert (Mright : forall k,
            map (fun r => nth (k + n) r NA) rws
            = map (fun e => nth k (tail e) NA) (filter_by m et)).
  { intros k. rewrite Eet, filter_by_map, map_map, Erws, map_map.
    apply map_ext. intros row. apply nth_app_fit_right. }
  rewrite (getcol_of_positions STATUS_COORDENADOR merged _ Pst).
  cbn [bind].
  set (st' := map (fillna Sem_Coordenador) _).
  assert (Hlst : length st' = length (rows merged)).
  { unfold st'. rewrite !length_map. reflexivity. }
  assert (C1 : columns (setcol STATUS_COORDENADOR st' merged) = cols).
  { rewrite setcol_columns. change (columns merged) with cols.
    rewrite Pst. reflexivity. }
  rewrite (getcol_setcol_other STATUS_COORDENADOR COORDENADOR st' merged)
    by (reflexivity || exact Hlst).
  rewrite (getcol_of_positions COORDENADOR merged _ Pco). cbn [bind].
  set (co' := map (fillna (Str Sem_informacao)) _).
  assert (Hlco : length co'
                 = length (rows (setcol STATUS_COORDENADOR st' merged))).
  { rewrite setcol_rows_length by exact Hlst.
    unfold co'. rewrite !length_map. reflexivity. }
  set (final := setcol COORDENADOR co' _).
  assert (C2 : columns final = cols).
  { unfold final. rewrite setcol_columns, C1, Pco. reflexivity. }
  assert (Hlabels : colunas_finais final =
            [GRE; POLO; ESCOLA; INEP; COORDENADOR; STATUS_COORDENADOR]).
  { unfold colunas_finais, has_label. rewrite C2.
    assert (Hex : forall l i, positions l cols = [i] ->
                              existsb (cell_eqb l) cols = true).
    { intros l i Hl. apply existsb_cell_eqb.
      apply (positions_singleton_In _ _ _ Hl). }
    rewrite (Hex _ _ Pg), (Hex _ _ Pp), (Hex _ _ Pin). reflexivity. }
  rewrite Hlabels. unfold select. cbn [select_positions]. rewrite C2.
  rewrite Pg, Pp, Pe, Pin, Pco, Pst. cbn [bind app].
  (* the columns of the final table, by position *)
  assert (Fother : forall l i, positions l cols = [i] ->
            cell_eqb l COORDENADOR = false ->
            cell_eqb l STATUS_COORDENADOR = false ->
            map (fun r => nth i r NA) (rows final)
            = map (fun r => nth i r NA) rws).
  { intros l i Pl N1 N2.
    assert (E : getcol l final = getcol l merged).
    { unfold final. rewrite getcol_setcol_other by assumption.
      apply getcol_setcol_other; assumption. }
    rewrite (getcol_of_positions l final i) in E by (rewrite C2; exact Pl).
    rewrite (getcol_of_positions l merged i Pl) in E.
    injection E as E. exact E. }
  assert (Fst : map (fun r => nth (S (S (S n))) r NA) (rows final) = st').
  { assert (E : getcol STATUS_COORDENADOR final = Ok st').
    { unfold final. rewrite getcol_setcol_other by (reflexivity || exact Hlco).
      apply getcol_setcol_same; [exact Hlst|].
      change (columns merged) with cols. rewrite Pst. simpl. lia. }
    rewrite (getcol_of_positions STATUS_COORDENADOR final (S (S (S n)))) in E
      by (rewrite C2; exact Pst).
    injection E as E. exact E. }
  assert (Fco : map (fun r => nth (S n) r NA) (rows final) = co').
  { assert (E : getcol COORDENADOR final = Ok co').
    { unfold final. apply getcol_setcol_same; [exact Hlco|].
      rewrite C1, Pco. simpl. lia. }
    rewrite (getcol_of_positions COORDENADOR final (S n)) in E
      by (rewrite C2; exact Pco).
    injection E as E. exact E. }
  assert (Hcols_t :
            map (fun i => nth i cols NA) [ig; ip; ie; n; S n; S (S (S n))]
            = [GRE; POLO; ESCOLA; INEP; COORDENADOR; STATUS_COORDENADOR]).
  { assert (Hnth : forall l i, positions l cols = [i] -> nth i cols NA = l).
    { intros l i Hl. apply (positions_In l). rewrite Hl. left. reflexivity. }
    cbn [map].
    rewrite (Hnth _ _ Pg), (Hnth _ _ Pp), (Hnth _ _ Pe), (Hnth _ _ Pin),
      (Hnth _ _ Pco), (Hnth _ _ Pst). reflexivity. }
  eexists. split; [reflexivity|].
  unfold getcol. cbn [columns rows]. rewrite Hcols_t.
  change (positions GRE
            [GRE; POLO; ESCOLA; INEP; COORDENADOR; STATUS_COORDENADOR])
    with [0].
  change (positions POLO
            [GRE; POLO; ESCOLA; INEP; COORDENADOR; STATUS_COORDENADOR])
    with [1].
  change (positions ESCOLA
            [GRE; POLO; ESCOLA; INEP; COORDENADOR; STATUS_COORDENADOR])
    with [2].
  change (positions INEP
            [GRE; POLO; ESCOLA; INEP; COORDENADOR; STATUS_COORDENADOR])
    with [3].
  change (positions COORDENADOR
            [GRE; POLO; ESCOLA; INEP; COORDENADOR; STATUS_COORDENADOR])
    with [4].
  change (positions STATUS_COORDENADOR
            [GRE; POLO; ESCOLA; INEP; COORDENADOR; STATUS_COORDENADOR])
    with [5].
  cbv beta iota. rewrite !map_map. cbn [map nth].
  repeat split; f_equal.
  - rewrite (Fother GRE ig Pg) by reflexivity.
    rewrite Egt. apply Mleft. exact Hig_lt.
  - rewrite (Fother POLO ip Pp) by reflexivity.
    rewrite Ept. apply Mleft. exact Hip_lt.
  - rewrite (Fother ESCOLA ie Pe) by reflexivity. exact Mesc.
  - rewrite (Fother INEP n Pin) by reflexivity.
    pose proof (Mright 0) as M. cbn [Nat.add] in M. rewrite M.
    apply map_ext. intros e. rewrite Htail. reflexivity.
  - rewrite Fco. unfold co'. change (rows merged) with rws.
    pose proof (Mright 1) as M. cbn [Nat.add] in M. rewrite M, map_map.
    apply map_ext. intros e. rewrite Htail. reflexivity.
  - rewrite Fst. unfold st'. change (rows merged) with rws.
    pose proof (Mright 3) as M. cbn [Nat.add] in M. rewrite M, map_map.
    apply map_ext. intros e. rewrite Htail. reflexivity.
Qed.

Lemma filter_by_region_values (a : list cell) (v : cell) (m2 : list bool) :
  Forall (fun g => g = v) (filter_by (and_mask (eq_mask a v) m2) a).
Proof.
  revert m2. induction a as [|g a IH]; intros [|b m2]; simpl;
    try constructor.
  destruct (py_eq g v) eqn:E; simpl.
  - destruct b; [constructor|]; try apply IH.
    apply py_eq_true in E. tauto.
  - apply IH.
Qed.

Lemma filter_by_hub_values (a : list cell) (v : cell) (m1 : list bool) :
  Forall (fun g => g = v) (filter_by (and_mask m1 (eq_mask a v)) a).
Proof.
  revert m1. induction a as [|g a IH]; intros [|b m1]; simpl;
    try constructor.
  destruct (py_eq g v) eqn:E; simpl.
  - destruct b; simpl; [constructor|]; try apply IH.
    apply py_eq_true in E. tauto.
  - rewrite andb_false_r. apply IH.
Qed.

(** X15.  In the detail table, every row carries the selected region and
    hub; the schools are those of the records of the totals table for
    that region and hub, in their order; the identifier, the coordinator
    name and the status of a row are the first present value that the
    coordinator table holds for the school of the row, the name
    defaulting to "Sem informação" and the status to "Sem Coordenador". *)
Theorem detalhe_escolas_contents
    (df_coord df_total : DataFrame) (gre polo : cell)
    (gt pt et es inep co tc st : list cell) (flags : list bool) :
  getcol GRE df_total = Ok gt ->
  getcol POLO df_total = Ok pt ->
  getcol ESCOLA df_total = Ok et ->
  totals_table_ok df_total = true ->
  getcol ESCOLA df_coord = Ok es ->
  getcol INEP df_coord = Ok inep ->
  getcol COORDENADOR df_coord = Ok co ->
  getcol TEM_COORDENADOR df_coord = Ok tc ->
  as_mask tc = Ok flags ->
  getcol STATUS_COORDENADOR df_coord = Ok st ->
  exists t slice gres polos escola,
    detalhe_escolas df_coord df_total gre polo = Ok t /\
    registros_do_polo df_total gre polo = Ok slice /\
    getcol ESCOLA slice = Ok escola /\
    getcol GRE t = Ok gres /\ Forall (fun g => g = gre) gres /\
    getcol POLO t = Ok polos /\ Forall (fun p => p = polo) polos /\
    getcol ESCOLA t = Ok escola /\
    getcol INEP t = Ok (map (primeiro_da_escola es inep) escola) /\
    getcol COORDENADOR t =
      Ok (map (fun e => fillna (Str Sem_informacao)
                               (primeiro_da_escola es co e)) escola) /\
    getcol STATUS_COORDENADOR t =
      Ok (map (fun e => fillna Sem_Coordenador (primeiro_da_escola es st e))
              escola).
Proof.
  intros Hgt Hpt Het Ht Hes Hinep Hco Htc Hfl Hst.
  destruct (detalhe_escolas_table df_coord df_total gre polo
              _ _ _ _ _ _ _ _ _
              Hgt Hpt Het Ht Hes Hinep Hco Htc Hfl Hst)
    as [t [Hret [Hg [Hp [He [Hi [Hc Hs]]]]]]].
  set (m := and_mask (eq_mask gt gre) (eq_mask pt polo)) in *.
  exists t, (filter_rows m df_total), (filter_by m gt), (filter_by m pt),
    (filter_by m et).
  split; [exact Hret|].
  split; [apply registros_do_polo_eq; assumption|].
  split; [rewrite getcol_filter_rows, Het; reflexivity|].
  split; [exact Hg|]. split; [apply filter_by_region_values|].
  split; [exact Hp|]. split; [apply filter_by_hub_values|].
  repeat split; assumption.
Qed.

Lemma primeiro_da_escola_absent (es vals : list cell) (e : cell) :
  e = NA \/ ~ In e es -> primeiro_da_escola es vals e = NA.
Proof.
  unfold primeiro_da_escola. intros [-> | H]; [reflexivity|].
  destruct (isna e); [reflexivity|].
  rewrite group_of_absent; [reflexivity|].
  intros Hin. apply in_map_iff in Hin. destruct Hin as [[x v] [Ex Hin]].
  simpl in Ex. subst x. apply in_combine_l in Hin. contradiction.
Qed.

(** X16.  A record whose school is missing, or does not occur in the
    coordinator table, appears in the detail table without identifier,
    with the coordinator name "Sem informação" and with the status
    "Sem Coordenador". *)
Theorem detalhe_escolas_unknown_school
    (df_coord df_total : DataFrame) (gre polo : cell)
    (gt pt et es inep co tc st : list cell) (flags : list bool) :
  getcol GRE df_total = Ok gt ->
  getcol POLO df_total = Ok pt ->
  getcol ESCOLA df_total = Ok et ->
  totals_table_ok df_total = true ->
  getcol ESCOLA df_coord = Ok es ->
  getcol INEP df_coord = Ok inep ->
  getcol COORDENADOR df_coord = Ok co ->
  getcol TEM_COORDENADOR df_coord = Ok tc ->
  as_mask tc = Ok flags ->
  getcol STATUS_COORDENADOR df_coord = Ok st ->
  exists t escola ineps nomes estados,
    detalhe_escolas df_coord df_total gre polo = Ok t /\
    getcol ESCOLA t = Ok escola /\
    getcol INEP t = Ok ineps /\
    getcol COORDENADOR t = Ok nomes /\
    getcol STATUS_COORDENADOR t = Ok estados /\
    forall i e, nth_error escola i = Some e -> e = NA \/ ~ In e es ->
      nth_error ineps i = Some NA /\
      nth_error nomes i = Some (Str Sem_informacao) /\
      nth_error estados i = Some Sem_Coordenador.
Proof.
  intros Hgt Hpt Het Ht Hes Hinep Hco Htc Hfl Hst.
  destruct (detalhe_escolas_table df_coord df_total gre polo
              _ _ _ _ _ _ _ _ _
              Hgt Hpt Het Ht Hes Hinep Hco Htc Hfl Hst)
    as [t [Hret [_ [_ [He [Hi [Hc Hs]]]]]]].
  do 5 eexists. split; [exact Hret|]. split; [exact He|].
  split; [exact Hi|]. split; [exact Hc|]. split; [exact Hs|].
  intros i e Hnth Habs. rewrite !nth_error_map, Hnth. cbn [option_map].
  rewrite !(primeiro_da_escola_absent es _ e Habs). repeat split.
Qed.

Lemma no_flag_when_absent (e : cell) (es tc : list cell) :
  ~ In e es ->
  existsb (fun p => cell_eqb e (fst p) && cell_eqb (snd p) (Bool true))
          (combine es tc) = false.
Proof.
  intros H.
  destruct (existsb _ (combine es tc)) eqn:E; [|reflexivity].
  exfalso. apply existsb_exists in E. destruct E as [[x t] [Hin Hx]].
  simpl in Hx. apply andb_true_iff in Hx. destruct Hx as [Hx _].
  apply cell_eqb_eq in Hx. subst x. apply in_combine_l in Hin. contradiction.
Qed.

Lemma status_single_row (es tc : list cell) (flags : list bool) (e : cell) :
  NoDup es -> as_mask tc = Ok flags ->
  fillna Sem_Coordenador
    (primeiro_da_escola es (map status_of tc) e)
  = if escola_com_coordenador es tc e
    then Com_Coordenador else Sem_Coordenador.
Proof.
  intros Hnd Hfl. unfold primeiro_da_escola, escola_com_coordenador.
  destruct (isna e) eqn:Hna; [reflexivity|]. cbn [negb andb].
  revert tc flags Hfl. induction Hnd as [|x es Hx Hnd IH]; intros tc flags Hfl.
  - reflexivity.
  - destruct tc as [|c tc]; [reflexivity|].
    simpl in Hfl. destruct c as [| | |b]; try discriminate.
    apply bind_Ok_inv in Hfl. destruct Hfl as [fl [Hfl _]].
    unfold group_of. cbn [combine map filter fst snd existsb].
    destruct (cell_eqb e x) eqn:E.
    + apply cell_eqb_eq in E. subst x.
      rewrite (no_flag_when_absent e es tc Hx), orb_false_r.
      cbn [map snd]. unfold first_valid.
      destruct b; reflexivity.
    + cbn [andb orb]. apply (IH tc fl Hfl).
Qed.

(** X17.  When no school occurs twice in the coordinator table, and the
    status labels of that table are those of its flags (as the loader
    writes them), the status column of the detail table is the status
    column of the table of records that the summarizer returns. *)
Theorem detalhe_escolas_agrees_with_resumo
    (df_coord df_total : DataFrame) (gre polo : cell)
    (gt pt et es inep co tc : list cell) (flags : list bool) :
  getcol GRE df_total = Ok gt ->
  getcol POLO df_total = Ok pt ->
  getcol ESCOLA df_total = Ok et ->
  totals_table_ok df_total = true ->
  getcol ESCOLA df_coord = Ok es ->
  getcol INEP df_coord = Ok inep ->
  getcol COORDENADOR df_coord = Ok co ->
  getcol TEM_COORDENADOR df_coord = Ok tc ->
  as_mask tc = Ok flags ->
  getcol STATUS_COORDENADOR df_coord = Ok (map status_of tc) ->
  NoDup es ->
  exists t resumo registros estados,
    detalhe_escolas df_coord df_total gre polo = Ok t /\
    resumo_status_polo df_coord df_total gre polo = Ok (resumo, registros) /\
    getcol STATUS_COORDENADOR t = Ok estados /\
    getcol STATUS_COORDENADOR registros = Ok estados.
Proof.
  intros Hgt Hpt Het Ht Hes Hinep Hco Htc Hfl Hst Hnd.
  destruct (detalhe_escolas_table df_coord df_total gre polo
              _ _ _ _ _ _ _ _ _
              Hgt Hpt Het Ht Hes Hinep Hco Htc Hfl Hst)
    as [t [Hret [_ [_ [_ [_ [_ Hs]]]]]]].
  assert (H1 : length (positions TEM_COORDENADOR (columns df_total)) <= 1
               /\ length (positions STATUS_COORDENADOR (columns df_total)) <= 1).
  { unfold totals_table_ok in Ht.
    repeat (let H := fresh "H" in
            apply andb_true_iff in Ht; destruct Ht as [Ht H]).
    apply negb_true_iff in H, H0. apply has_label_false in H, H0.
    apply positions_nil in H, H0. rewrite H, H0. simpl. lia. }
  destruct H1 as [Htem1 Hst1].
  destruct (resumo_status_polo_registros df_coord df_total gre polo
              _ _ _ _ _ _ Hgt Hpt Het Htem1 Hst1 Hes Htc Hfl)
    as [resumo [registros [Hres [_ [_ [Hs' _]]]]]].
  exists t, resumo, registros. eexists.
  split; [exact Hret|]. split; [exact Hres|]. split; [exact Hs|].
  rewrite Hs'. f_equal. apply map_ext. intros e.
  symmetry. apply (status_single_row es tc flags e Hnd Hfl).
Qed.

(* ================================================================= *)
(** ** The totals table loader *)

Lemma positions_from_NoDup (i : nat) (l : cell) (cols : list cell) :
  NoDup (positions_from i l cols).
Proof.
  revert i. induction cols as [|c cols IH]; intros i; simpl; [constructor|].
  destruct (cell_eqb l c); [|apply IH].
  constructor; [|apply IH].
  intros H. apply positions_from_In in H. lia.
Qed.

Lemma positions_unique (l : cell) (cols : list cell) (i : nat) :
  i < length cols ->
  (forall j, j < length cols -> (nth j cols NA = l <-> j = i)) ->
  positions l cols = [i].
Proof.
  intros Hi H.
  assert (Hin : In i (positions l cols)).
  { apply positions_complete; [exact Hi | apply H; auto]. }
  assert (Hall : forall p, In p (positions l cols) -> p = i).
  { intros p Hp. apply positions_In in Hp. destruct Hp as [Hp Hn].
    apply (H p Hp). exact Hn. }
  pose proof (positions_from_NoDup 0 l cols) as Hnd.
  fold (positions l cols) in Hnd.
  destruct (positions l cols) as [|a [|b ps]].
  - destruct Hin.
  - f_equal. apply Hall. left. reflexivity.
  - exfalso. apply NoDup_cons_iff in Hnd. destruct Hnd as [Hn _].
    apply Hn. rewrite (Hall a), (Hall b); simpl; auto.
Qed.

Lemma load_data_totais_inv
    (str_ok : list cell -> bool) (upper : pystr -> pystr)
    (raw df : DataFrame) :
  load_data_totais str_ok upper raw = Some df ->
  df = mkDF (map (fun l => str_label upper (str_label strip l)) (columns raw))
            (rows raw).
Proof.
  unfold load_data_totais. destruct (str_ok (columns raw)); [|discriminate].
  destruct (str_ok (map (str_label strip) (columns raw))); [|discriminate].
  intros H. injection H as <-. rewrite map_map. reflexivity.
Qed.

Lemma nth_normalised (upper : pystr -> pystr) (cols : list cell) (j : nat) :
  nth j (map (fun l => str_label upper (str_label strip l)) cols) NA
  = str_label upper (str_label strip (nth j cols NA)).
Proof.
  exact (map_nth (fun l => str_label upper (str_label strip l)) cols NA j).
Qed.

(** X18.  The totals table loader leaves the rows as they are, and a
    column can afterwards be read under the trimmed, upper-cased form of
    its header: if exactly one header has that form, the lookup yields
    the values of that column. *)
Theorem load_data_totais_lookup
    (str_ok : list cell -> bool) (upper : pystr -> pystr)
    (raw df : DataFrame) (L : cell) (i : nat) :
  load_data_totais str_ok upper raw = Some df ->
  i < length (columns raw) ->
  (forall j, j < length (columns raw) ->
     (str_label upper (str_label strip (nth j (columns raw) NA)) = L
      <-> j = i)) ->
  rows df = rows raw /\
  length (columns df) = length (columns raw) /\
  getcol L df = Ok (map (fun r => nth i r NA) (rows raw)).
Proof.
  intros H Hi Huniq. apply load_data_totais_inv in H. subst df.
  cbn [rows columns]. split; [reflexivity|]. split; [apply length_map|].
  apply (getcol_of_positions L
           (mkDF (map (fun l => str_label upper (str_label strip l))
                      (columns raw)) (rows raw)) i).
  cbn [columns]. apply positions_unique.
  - rewrite length_map. exact Hi.
  - intros j Hj. rewrite length_map in Hj. rewrite nth_normalised.
    apply Huniq. exact Hj.
Qed.

(** X19.  When two headers of the totals sheet have the same trimmed,
    upper-cased form "GRE", the loaded table has two GRE columns and the
    region aggregator, which groups by that label, fails on it. *)
Theorem load_data_totais_collision
    (str_ok : list cell -> bool) (upper : pystr -> pystr)
    (raw df : DataFrame) (i j : nat) :
  load_data_totais str_ok upper raw = Some df ->
  i <> j ->
  i < length (columns raw) -> j < length (columns raw) ->
  str_label upper (str_label strip (nth i (columns raw) NA)) = GRE ->
  str_label upper (str_label strip (nth j (columns raw) NA)) = GRE ->
  forall df_coord, agg_por_gre df_coord df = Err (NotASeries GRE).
Proof.
  intros H Hij Hi Hj Hni Hnj df_coord.
  apply load_data_totais_inv in H.
  assert (Hg : getcol GRE df = Err (NotASeries GRE)).
  { subst df. apply (getcol_two_positions GRE _ i j Hij); cbn [columns];
      try (rewrite length_map; assumption);
      rewrite nth_normalised; assumption. }
  unfold agg_por_gre, groupby_nunique_df.
  rewrite Hg. reflexivity.
Qed.

(* ================================================================= *)
(** ** The completion calculator, continued *)

Lemma has_label_positions (l : cell) (df : DataFrame) :
  has_label l df =
  match positions l (columns df) with [] => false | _ => true end.
Proof.
  unfold has_label, positions. generalize 0.
  induction (columns df) as [|c cols IH]; intros k; simpl; [reflexivity|].
  destruct (cell_eqb l c); [reflexivity|]. apply IH.
Qed.

(** X20.  With a boolean TEM_COORDENADOR column in the coordinator table,
    the completion calculator returns a value exactly when the totals
    table has one ESCOLA column and the coordinator table has an ESCOLA
    column.  The value is a single number exactly when, moreover, the
    coordinator table has one ESCOLA column only or the totals table has
    no school; otherwise, the coordinator table having several ESCOLA
    columns, it is a Series with one percentage for each of them. *)
Theorem calcular_percentual_returns_iff (df_coord df_total : DataFrame) :
  bool_column TEM_COORDENADOR df_coord = true ->
  ((exists v, calcular_percentual_conclusao_diretores df_coord df_total = Ok v)
   <->
   has_once ESCOLA df_total = true /\ has_label ESCOLA df_coord = true) /\
  ((exists x, calcular_percentual_conclusao_diretores df_coord df_total
              = Ok (Float x))
   <->
   has_once ESCOLA df_total = true /\ has_label ESCOLA df_coord = true /\
   (has_once ESCOLA df_coord = true \/
    exists et, getcol ESCOLA df_total = Ok et /\ nunique et = 0)).
Proof.
  intros Hb. apply bool_column_iff in Hb. destruct Hb as [tc [m [Htc Hm]]].
  unfold calcular_percentual_conclusao_diretores.
  rewrite Htc. unfold getitem, has_once, getcol.
  rewrite !has_label_positions.
  cbn [filter_rows columns rows].
  destruct (positions ESCOLA (columns df_total)) as [|i [|j ps]];
    cbn [bind]; try rewrite Hm; cbn [bind nunique_of length Nat.eqb].
  - split; split; try (intros [v H]; discriminate);
      intros [H _]; discriminate.
  - set (total := nunique (map (fun r => nth i r NA) (rows df_total))).
    destruct (positions ESCOLA (columns df_coord)) as [|i' [|j' ps']];
      cbn [bind nunique_of length Nat.eqb].
    + split; split; try (intros [v H]; discriminate);
        intros [_ [H _]]; discriminate H.
    + split; split.
      * intros _. split; reflexivity.
      * intros _. destruct (Nat.eqb total 0); eexists; reflexivity.
      * intros _. split; [reflexivity|]. split; [reflexivity|].
        left. reflexivity.
      * intros _. destruct (Nat.eqb total 0); eexists; reflexivity.
    + destruct (Nat.eqb total 0) eqn:Ez.
      * apply Nat.eqb_eq in Ez. split; split.
        -- intros _. split; reflexivity.
        -- intros _. eexists. reflexivity.
        -- intros _. split; [reflexivity|]. split; [reflexivity|].
           right. eexists. split; [reflexivity | exact Ez].
        -- intros _. eexists. reflexivity.
      * apply Nat.eqb_neq in Ez. split; split.
        -- intros _. split; reflexivity.
        -- intros _. eexists. reflexivity.
        -- intros [x H]. discriminate.
        -- intros [_ [_ [H | [et [Het Hz]]]]]; [discriminate|].
           injection Het as <-. contradiction.
  - destruct (positions ESCOLA (columns df_coord)) as [|i' [|j' ps']];
      cbn [bind]; split; split; try (intros [v H]; discriminate);
      intros [H _]; discriminate.
Qed.

(* ================================================================= *)
(** ** The further properties on the worked tables *)

Lemma exemplo_colunas :
  getcol GRE Examples.df_total = Ok Casos.gre_t /\
  getcol POLO Examples.df_total = Ok Casos.polo_t /\
  getcol ESCOLA Examples.df_total = Ok Casos.escola_t /\
  getcol GRE Examples.df_coord = Ok Casos.gre_c /\
  getcol POLO Examples.df_coord = Ok Casos.polo_c /\
  getcol ESCOLA Examples.df_coord = Ok Casos.escola_c /\
  getcol INEP Examples.df_coord = Ok Casos.inep_c /\
  getcol COORDENADOR Examples.df_coord = Ok Casos.coordenador_c /\
  getcol TEM_COORDENADOR Examples.df_coord = Ok Casos.tem_c /\
  getcol STATUS_COORDENADOR Examples.df_coord
    = Ok (map status_of Casos.tem_c).
Proof. repeat split; vm_compute; reflexivity. Qed.

Lemma exemplo_sem_derivadas :
  length (positions TEM_COORDENADOR (columns Examples.df_total)) <= 1 /\
  length (positions STATUS_COORDENADOR (columns Examples.df_total)) <= 1.
Proof. split; vm_compute; lia. Qed.


Lemma load_data_coordenadores_errors_witness :
  load_data_coordenadores lower_latin1 Casos.sheet_vazia = Err IndexError /\
  load_data_coordenadores lower_latin1 Casos.sheet_sem_coordenador
    = Err (KeyError COORDENADOR) /\
  load_data_coordenadores lower_latin1 Casos.sheet_dois_nomes
    = Err (NotASeries COORDENADOR).
Proof.
  split; [|split].
  - apply (load_data_coordenadores_errors lower_latin1 Casos.sheet_vazia).
    reflexivity.
  - apply (load_data_coordenadores_errors lower_latin1
             Casos.sheet_sem_coordenador).
    + discriminate.
    + vm_compute. intuition discriminate.
  - apply (proj2 (proj2 (load_data_coordenadores_errors lower_latin1
                           Casos.sheet_dois_nomes))
             _ _ 1 2 eq_refl); vm_compute; (lia || reflexivity).
Defined.

Lemma load_data_coordenadores_passes_through_witness :
  S (length (rows Examples.df_coord)) = length (rows Examples.raw_coord) /\
  getcol GRE Examples.df_coord
  = getcol GRE (mkDF (cabecalho Examples.raw_coord)
                     (tl (rows Examples.raw_coord))).
Proof.
  destruct (load_data_coordenadores_passes_through lower_latin1
              Examples.raw_coord Examples.df_coord) as [Hlen Hcols].
  - vm_compute. reflexivity.
  - split; [exact Hlen|]. apply Hcols; discriminate.
Defined.

Lemma load_data_coordenadores_status_witness :
  exists flags,
    getcol TEM_COORDENADOR Examples.df_coord = Ok (map Bool flags) /\
    getcol STATUS_COORDENADOR Examples.df_coord =
      Ok (map (fun b : bool => if b then Com_Coordenador else Sem_Coordenador)
              flags).
Proof.
  apply (load_data_coordenadores_status lower_latin1 Examples.raw_coord).
  - vm_compute. reflexivity.
  - vm_compute. lia.
Defined.

Lemma tem_coordenador_ignores_padding_witness :
  tem_coordenador lower_latin1
    (Str ([32%N; 9%N] ++ py "Ana" ++ [160%N; 10%N]))
  = tem_coordenador lower_latin1 (Str (py "Ana")).
Proof.
  apply (tem_coordenador_ignores_padding lower_latin1); reflexivity.
Defined.

Lemma agg_por_gre_row_values_witness :
  exists r,
    agg_por_gre Examples.df_coord Examples.df_total = Ok r /\
    forall row, In row r ->
      perc_com_coord row = perc_of (escolas_com_coord row) (total_escolas row).
Proof.
  destruct exemplo_colunas
    as [Hgt [_ [Het [Hgc [_ [Hec [_ [_ [Htc _]]]]]]]]].
  destruct (agg_por_gre_row_values Examples.df_coord Examples.df_total
              _ _ _ _ _ Casos.flags_c Hgt Het Htc eq_refl Hgc Hec)
    as [r [Hr Hrows]].
  exists r. split; [exact Hr|]. intros row Hrow. apply (Hrows row Hrow).
Defined.

Lemma agg_por_gre_requires_witness :
  has_once GRE Examples.df_total = true /\
  agg_por_gre Examples.df_coord Examples.df_total_sem_gre
    = Err (KeyError GRE).
Proof.
  split.
  - apply (agg_por_gre_requires Examples.df_coord Examples.df_total).
    eexists. vm_compute. reflexivity.
  - apply (agg_por_gre_requires Examples.df_coord
             Examples.df_total_sem_gre). reflexivity.
Defined.

Lemma agg_por_polo_rows_witness :
  exists r,
    agg_por_polo Examples.df_coord Examples.df_total (Examples.txt "R1")
      = Ok r /\
    (In (Examples.txt "P1") (map chave r)) /\
    ~ In (Examples.txt "P9") (map chave r).
Proof.
  destruct exemplo_colunas
    as [Hgt [Hpt [Het [Hgc [Hpc [Hec [_ [_ [Htc _]]]]]]]]].
  destruct (agg_por_polo_rows Examples.df_coord Examples.df_total
              (Examples.txt "R1") _ _ _ _ _ _ _ Casos.flags_c
              Hgt Hpt Het Htc eq_refl Hgc Hpc Hec)
    as [r [Hr [_ [Hkeys _]]]].
  exists r. split; [exact Hr|]. split.
  - apply Hkeys. split; [discriminate|]. split; [discriminate|].
    exists (Examples.txt "A"). vm_compute. auto.
  - intros H. apply Hkeys in H. destruct H as [_ [_ [e H]]].
    vm_compute in H. intuition discriminate.
Defined.

Lemma agg_por_polo_unknown_region_witness :
  agg_por_polo Examples.df_coord Examples.df_total (Examples.txt "R9") = Ok [].
Proof.
  destruct exemplo_colunas
    as [Hgt [Hpt [Het [Hgc [Hpc [Hec [_ [_ [Htc _]]]]]]]]].
  apply (agg_por_polo_unknown_region Examples.df_coord Examples.df_total
           (Examples.txt "R9") _ _ _ _ _ _ _ Casos.flags_c
           Hgt Hpt Het Htc eq_refl Hgc Hpc Hec).
  right. vm_compute. intuition discriminate.
Defined.

Lemma resumo_status_polo_groups_witness :
  exists resumo registros,
    resumo_status_polo Examples.df_coord Examples.df_total
      (Examples.txt "R1") (Examples.txt "P1") = Ok (resumo, registros) /\
    forall row, In row resumo -> 1 <= qtd_registros row.
Proof.
  destruct exemplo_colunas
    as [Hgt [Hpt [Het [_ [_ [Hec [_ [_ [Htc _]]]]]]]]].
  destruct (resumo_status_polo_groups Examples.df_coord Examples.df_total
              (Examples.txt "R1") (Examples.txt "P1")
              _ _ _ _ _ Casos.flags_c Hgt Hpt Het
              (proj1 exemplo_sem_derivadas) (proj2 exemplo_sem_derivadas)
              Hec Htc eq_refl)
    as [resumo [registros [Hr [_ Hq]]]].
  exists resumo, registros. split; assumption.
Defined.

Lemma resumo_status_polo_percentual_witness :
  exists resumo registros,
    resumo_status_polo Examples.df_coord Examples.df_total
      (Examples.txt "R1") (Examples.txt "P1") = Ok (resumo, registros) /\
    forall row, In row resumo ->
      exists q, percentual row = FFin q /\ (0 < q)%Q /\ (q <= 100)%Q.
Proof.
  destruct exemplo_colunas
    as [Hgt [Hpt [Het [_ [_ [Hec [_ [_ [Htc _]]]]]]]]].
  destruct (resumo_status_polo_percentual Examples.df_coord Examples.df_total
              (Examples.txt "R1") (Examples.txt "P1")
              _ _ _ _ _ Casos.flags_c Hgt Hpt Het
              (proj1 exemplo_sem_derivadas) (proj2 exemplo_sem_derivadas)
              Hec Htc eq_refl)
    as [resumo [registros [Hr Hq]]].
  exists resumo, registros. split; [exact Hr|].
  intros row Hrow. destruct (Hq row Hrow) as [q [H1 [_ [H2 H3]]]].
  exists q. repeat split; assumption.
Defined.

Lemma resumo_status_polo_flags_witness :
  exists resumo registros escola tem,
    resumo_status_polo Examples.df_coord Examples.df_total
      (Examples.txt "R1") (Examples.txt "P1") = Ok (resumo, registros) /\
    getcol ESCOLA registros = Ok escola /\
    getcol TEM_COORDENADOR registros = Ok (map Bool tem) /\
    length tem = length escola.
Proof.
  destruct exemplo_colunas
    as [Hgt [Hpt [Het [_ [_ [Hec [_ [_ [Htc _]]]]]]]]].
  destruct (resumo_status_polo_flags Examples.df_coord Examples.df_total
              (Examples.txt "R1") (Examples.txt "P1")
              _ _ _ _ _ Casos.flags_c Hgt Hpt Het
              (proj1 exemplo_sem_derivadas) (proj2 exemplo_sem_derivadas)
              Hec Htc eq_refl)
    as [resumo [registros [escola [tem [Hr [He [Ht [_ [Hl _]]]]]]]]].
  exists resumo, registros, escola, tem. repeat split; assumption.
Defined.

Lemma resumo_status_polo_keeps_columns_witness :
  exists resumo registros slice,
    resumo_status_polo Examples.df_coord Examples.df_total
      (Examples.txt "R1") (Examples.txt "P1") = Ok (resumo, registros) /\
    registros_do_polo Examples.df_total
      (Examples.txt "R1") (Examples.txt "P1") = Ok slice /\
    getcol (Examples.txt "TURMA") registros
    = getcol (Examples.txt "TURMA") slice.
Proof.
  destruct exemplo_colunas
    as [Hgt [Hpt [Het [_ [_ [Hec [_ [_ [Htc _]]]]]]]]].
  destruct (resumo_status_polo_keeps_columns
              Examples.df_coord Examples.df_total
              (Examples.txt "R1") (Examples.txt "P1")
              _ _ _ _ _ Casos.flags_c Hgt Hpt Het
              (proj1 exemplo_sem_derivadas) (proj2 exemplo_sem_derivadas)
              Hec Htc eq_refl)
    as [resumo [registros [slice [Hr [Hs [_ [Hcols _]]]]]]].
  exists resumo, registros, slice. split; [exact Hr|]. split; [exact Hs|].
  apply Hcols; discriminate.
Defined.

Lemma resumo_do_polo_figures_witness :
  exists resumo registros,
    resumo_status_polo Examples.df_coord Examples.df_total
      (Examples.txt "R1") (Examples.txt "P1") = Ok (resumo, registros) /\
    resumo_do_polo resumo = (4, 2, 2)%Z.
Proof.
  destruct exemplo_colunas
    as [Hgt [Hpt [Het [_ [_ [Hec [_ [_ [Htc _]]]]]]]]].
  destruct (resumo_do_polo_figures Examples.df_coord Examples.df_total
              (Examples.txt "R1") (Examples.txt "P1")
              _ _ _ _ _ Casos.flags_c Hgt Hpt Het
              (proj1 exemplo_sem_derivadas) (proj2 exemplo_sem_derivadas)
              Hec Htc eq_refl)
    as [resumo [registros [escola [Hr [He [_ Hfig]]]]]].
  exists resumo, registros. split; [exact Hr|].
  rewrite Hfig.
  assert (E : escola = map Examples.txt ["A"; "B"; "B"; "C"]%string).
  { vm_compute in Hr. injection Hr as _ <-.
    vm_compute in He. injection He as <-. reflexivity. }
  rewrite E. reflexivity.
Defined.

Lemma exemplo_totals_ok : totals_table_ok Examples.df_total = true.
Proof. reflexivity. Qed.

Lemma detalhe_escolas_contents_witness :
  exists t gres polos escola,
    detalhe_escolas Examples.df_coord Examples.df_total
      (Examples.txt "R1") (Examples.txt "P1") = Ok t /\
    getcol GRE t = Ok gres /\
    Forall (fun g => g = Examples.txt "R1") gres /\
    getcol POLO t = Ok polos /\
    Forall (fun p => p = Examples.txt "P1") polos /\
    getcol ESCOLA t = Ok escola /\
    getcol INEP t
      = Ok (map (primeiro_da_escola Casos.escola_c Casos.inep_c) escola).
Proof.
  destruct exemplo_colunas
    as [Hgt [Hpt [Het [_ [_ [Hec [Hic [Hcc [Htc Hsc]]]]]]]]].
  destruct (detalhe_escolas_contents Examples.df_coord Examples.df_total
              (Examples.txt "R1") (Examples.txt "P1")
              _ _ _ _ _ _ _ _ Casos.flags_c
              Hgt Hpt Het exemplo_totals_ok Hec Hic Hcc Htc eq_refl Hsc)
    as [t [slice [gres [polos [escola
          [Hr [_ [_ [Hg [Fg [Hp [Fp [He [Hi _]]]]]]]]]]]]]].
  exists t, gres, polos, escola. repeat split; assumption.
Defined.

Lemma detalhe_escolas_unknown_school_witness :
  exists t escola nomes estados,
    detalhe_escolas Examples.df_coord Examples.df_total
      (Examples.txt "R1") (Examples.txt "P1") = Ok t /\
    getcol ESCOLA t = Ok escola /\
    getcol COORDENADOR t = Ok nomes /\
    getcol STATUS_COORDENADOR t = Ok estados /\
    nth_error escola 3 = Some (Examples.txt "C") /\
    nth_error nomes 3 = Some (Str Sem_informacao) /\
    nth_error estados 3 = Some Sem_Coordenador.
Proof.
  destruct exemplo_colunas
    as [Hgt [Hpt [Het [_ [_ [Hec [Hic [Hcc [Htc Hsc]]]]]]]]].
  destruct (detalhe_escolas_unknown_school Examples.df_coord Examples.df_total
              (Examples.txt "R1") (Examples.txt "P1")
              _ _ _ _ _ _ _ _ Casos.flags_c
              Hgt Hpt Het exemplo_totals_ok Hec Hic Hcc Htc eq_refl Hsc)
    as [t [escola [ineps [nomes [estados [Hr [He [_ [Hn [Hs Hdef]]]]]]]]]].
  assert (E : nth_error escola 3 = Some (Examples.txt "C")).
  { pose proof Hr as Hr'. vm_compute in Hr'. injection Hr' as <-.
    vm_compute in He. injection He as <-. reflexivity. }
  exists t, escola, nomes, estados.
  split; [exact Hr|]. split; [exact He|]. split; [exact Hn|].
  split; [exact Hs|]. split; [exact E|].
  apply (Hdef 3 _ E). right. vm_compute. intuition discriminate.
Defined.

Lemma detalhe_escolas_agrees_with_resumo_witness :
  exists t resumo registros estados,
    detalhe_escolas Examples.df_coord Examples.df_total
      (Examples.txt "R1") (Examples.txt "P1") = Ok t /\
    resumo_status_polo Examples.df_coord Examples.df_total
      (Examples.txt "R1") (Examples.txt "P1") = Ok (resumo, registros) /\
    getcol STATUS_COORDENADOR t = Ok estados /\
    getcol STATUS_COORDENADOR registros = Ok estados.
Proof.
  destruct exemplo_colunas
    as [Hgt [Hpt [Het [_ [_ [Hec [Hic [Hcc [Htc Hsc]]]]]]]]].
  apply (detalhe_escolas_agrees_with_resumo Examples.df_coord Examples.df_total
           (Examples.txt "R1") (Examples.txt "P1")
           _ _ _ _ _ _ _ Casos.flags_c
           Hgt Hpt Het exemplo_totals_ok Hec Hic Hcc Htc eq_refl Hsc).
  repeat constructor; simpl; intuition discriminate.
Defined.

(** With a school listed twice the two tables can disagree: the detail
    table shows the status of the first row of school B, the summary the
    disjunction of its flags. *)
Example detalhe_escolas_differs_from_resumo :
  exists t resumo registros e1 e2,
    detalhe_escolas Casos.df_coord_repetida Examples.df_total_cenario
      (Examples.txt "R1") (Examples.txt "P1") = Ok t /\
    resumo_status_polo Casos.df_coord_repetida Examples.df_total_cenario
      (Examples.txt "R1") (Examples.txt "P1") = Ok (resumo, registros) /\
    getcol STATUS_COORDENADOR t = Ok e1 /\
    getcol STATUS_COORDENADOR registros = Ok e2 /\
    nth_error e1 1 = Some Sem_Coordenador /\
    nth_error e2 1 = Some Com_Coordenador.
Proof.
  do 5 eexists.
  split; [vm_compute; reflexivity|]. split; [vm_compute; reflexivity|].
  split; [vm_compute; reflexivity|]. split; [vm_compute; reflexivity|].
  split; reflexivity.
Qed.

Lemma load_data_totais_lookup_witness :
  exists df,
    load_data_totais Casos.header_of_strings Casos.upper_latin1 Casos.raw_total
      = Some df /\
    rows df = rows Casos.raw_total /\
    getcol GRE df = Ok [Examples.txt "R1"; Examples.txt "R1"].
Proof.
  eexists. split; [vm_compute; reflexivity|].
  destruct (load_data_totais_lookup Casos.header_of_strings Casos.upper_latin1
              Casos.raw_total _ GRE 0 eq_refl) as [Hrows [_ Hcol]].
  - vm_compute. lia.
  - intros j Hj. vm_compute in Hj.
    destruct j as [|[|[|j]]]; try lia; vm_compute;
      split; (discriminate || reflexivity || lia || (intros; exfalso; congruence)).
  - split; [exact Hrows | exact Hcol].
Defined.

Lemma load_data_totais_collision_witness :
  exists df,
    load_data_totais Casos.header_of_strings Casos.upper_latin1
      Casos.raw_total_dup = Some df /\
    agg_por_gre Examples.df_coord df = Err (NotASeries GRE).
Proof.
  eexists. split; [vm_compute; reflexivity|].
  apply (load_data_totais_collision Casos.header_of_strings Casos.upper_latin1
           Casos.raw_total_dup _ 0 1 eq_refl);
    try (vm_compute; lia); try (vm_compute; reflexivity);
    discriminate.
Defined.

Lemma calcular_percentual_returns_iff_witness :
  (exists x,
     calcular_percentual_conclusao_diretores Examples.df_coord Examples.df_total
     = Ok (Float x)) /\
  (exists v,
     calcular_percentual_conclusao_diretores
       Casos.df_coord_duas_escolas Examples.df_total = Ok v) /\
  ~ (exists x,
       calcular_percentual_conclusao_diretores
         Casos.df_coord_duas_escolas Examples.df_total = Ok (Float x)).
Proof.
  split; [|split].
  - destruct (calcular_percentual_returns_iff
                Examples.df_coord Examples.df_total) as [_ [_ H]];
      [vm_compute; reflexivity|].
    apply H. split; [vm_compute; reflexivity|].
    split; [vm_compute; reflexivity|]. left. vm_compute. reflexivity.
  - destruct (calcular_percentual_returns_iff
                Casos.df_coord_duas_escolas Examples.df_total) as [[_ H] _];
      [vm_compute; reflexivity|].
    apply H. split; vm_compute; reflexivity.
  - intros Hx.
    destruct (calcular_percentual_returns_iff
                Casos.df_coord_duas_escolas Examples.df_total) as [_ [H _]];
      [vm_compute; reflexivity|].
    destruct (H Hx) as [_ [_ [Ho | [et [Het Hz]]]]].
    + vm_compute in Ho. discriminate Ho.
    + vm_compute in Het. injection Het as <-. vm_compute in Hz.
      discriminate Hz.
Defined.

(* ================================================================= *)
(** ** The two aggregators together *)

Lemma f_geb_perc_of_zero (c t : nat) : f_geb (perc_of c t) (FFin 0) = true.
Proof.
  destruct t as [|t], c as [|c]; try reflexivity;
    cbn [perc_of f_geb]; apply Qle_bool_iff; apply pct_nonneg.
Qed.

Lemma f_geb_100_perc_of (c t : nat) :
  t <> 0 -> (f_geb (FFin 100) (perc_of c t) = true <-> c <= t).
Proof.
  intros Ht. destruct t as [|t]; [congruence|].
  cbn [perc_of f_geb]. rewrite Qle_bool_iff. apply pct_le_100. discriminate.
Qed.

(** X21.  The percentage of a row of the region aggregator is never NaN
    and never negative; for a region with at least one school in the
    totals table it is at most 100 exactly when the row has no more
    schools with coordinator than schools in total. *)
Theorem agg_por_gre_perc_range
    (df_coord df_total : DataFrame)
    (gt et tc gc ec : list cell) (mask : list bool) :
  getcol GRE df_total = Ok gt ->
  getcol ESCOLA df_total = Ok et ->
  getcol TEM_COORDENADOR df_coord = Ok tc ->
  as_mask tc = Ok mask ->
  getcol GRE df_coord = Ok gc ->
  getcol ESCOLA df_coord = Ok ec ->
  exists r,
    agg_por_gre df_coord df_total = Ok r /\
    forall row, In row r ->
      f_geb (perc_com_coord row) (FFin 0) = true /\
      (total_escolas row <> 0 ->
       (f_geb (FFin 100) (perc_com_coord row) = true
        <-> escolas_com_coord row <= total_escolas row)).
Proof.
  intros Hgt Het Htc Hm Hgc Hec.
  rewrite (agg_por_gre_eq _ _ _ _ _ _ _ _ Hgt Het Htc Hm Hgc Hec).
  eexists. split; [reflexivity|]. intros row Hrow.
  apply (Permutation_in _ (sort_by_perc_perm _)) in Hrow.
  apply in_map_iff in Hrow. destruct Hrow as [k [<- _]].
  cbn [total_escolas escolas_com_coord perc_com_coord].
  rewrite perc_of_eq. split.
  - apply f_geb_perc_of_zero.
  - apply f_geb_100_perc_of.
Qed.

Lemma In_combine3 {A B C} (a : list A) (b : list B) (c : list C)
    (x : A) (z : C) :
  length b = length a ->
  In (x, z) (combine a c) -> exists y, In (x, (y, z)) (combine a (combine b c)).
Proof.
  revert b c. induction a as [|u a IH]; intros [|v b] [|w c] Hlen H;
    simpl in *; try contradiction; try discriminate.
  destruct H as [H | H].
  - injection H as -> ->. exists v. left. reflexivity.
  - destruct (IH b c) as [y Hy]; [lia | exact H |].
    exists y. right. exact Hy.
Qed.

Lemma nunique_le_sum_groups (l : list cell) (kv : list (cell * cell)) :
  (forall e, In e l -> e <> NA ->
     exists k, k <> NA /\ In (k, e) kv) ->
  nunique l <=
  list_sum (map (fun k => nunique (group_of k kv)) (group_keys (map fst kv))).
Proof.
  intros H. unfold nunique at 1.
  rewrite <- (length_flat_map (fun k => unique (dropna (group_of k kv)))).
  apply NoDup_incl_length; [apply unique_NoDup|].
  intros e He. rewrite unique_In, dropna_In in He. destruct He as [He Hna].
  destruct (H e He Hna) as [k [Hk Hin]].
  apply in_flat_map. exists k. split.
  - apply group_keys_In. split; [|exact Hk].
    apply in_map_iff. exists (k, e). split; [reflexivity | exact Hin].
  - rewrite unique_In, dropna_In. split; [|exact Hna].
    apply group_of_In. exact Hin.
Qed.

(** X22.  The hub table of a region accounts for every school of that
    region: when every record of the region in the totals table has a
    hub, the number of schools in the region's row of the region
    aggregator is at most the sum of the numbers of schools over the rows
    of the hub aggregator for that region. *)
Theorem agg_por_polo_covers_gre
    (df_coord df_total : DataFrame) (gre : cell)
    (gt pt et tc gc pc ec : list cell) (mask : list bool) :
  getcol GRE df_total = Ok gt ->
  getcol POLO df_total = Ok pt ->
  getcol ESCOLA df_total = Ok et ->
  getcol TEM_COORDENADOR df_coord = Ok tc ->
  as_mask tc = Ok mask ->
  getcol GRE df_coord = Ok gc ->
  getcol POLO df_coord = Ok pc ->
  getcol ESCOLA df_coord = Ok ec ->
  (forall p e, In (gre, (p, e)) (combine gt (combine pt et)) -> p <> NA) ->
  exists rg rp,
    agg_por_gre df_coord df_total = Ok rg /\
    agg_por_polo df_coord df_total gre = Ok rp /\
    forall row, In row rg -> chave row = gre ->
      total_escolas row <= list_sum (map total_escolas rp).
Proof.
  intros Hgt Hpt Het Htc Hm Hgc Hpc Hec Hhub.
  rewrite (agg_por_gre_eq _ _ _ _ _ _ _ _ Hgt Het Htc Hm Hgc Hec).
  rewrite (agg_por_polo_eq _ _ gre _ _ _ _ _ _ _ _
             Hgt Hpt Het Htc Hm Hgc Hpc Hec).
  rewrite resumo_rows_groupby.
  set (kv_t := filter_by (eq_mask gt gre) (combine pt et)).
  eexists. eexists. split; [reflexivity|]. split; [reflexivity|].
  intros row Hrow Hk.
  apply (Permutation_in _ (sort_by_perc_perm _)) in Hrow.
  apply in_map_iff in Hrow. destruct Hrow as [k [<- Hkey]].
  cbn [chave] in Hk. subst k. cbn [total_escolas].
  apply group_keys_In in Hkey. destruct Hkey as [_ Hna].
  rewrite (Permutation_list_sum
             (Permutation_map total_escolas (sort_by_perc_perm _))).
  rewrite map_map. cbn [total_escolas].
  apply nunique_le_sum_groups. intros e He _.
  apply group_of_In in He.
  destruct (In_combine3 gt pt et gre e) as [p Hp].
  - rewrite (getcol_length _ _ _ Hpt), (getcol_length _ _ _ Hgt).
    reflexivity.
  - exact He.
  - exists p. split; [apply (Hhub p e Hp)|].
    unfold kv_t. apply filter_by_eq_mask_In. split; assumption.
Qed.

Lemma agg_por_gre_perc_range_witness :
  exists r,
    agg_por_gre Examples.df_coord Examples.df_total = Ok r /\
    forall row, In row r ->
      f_geb (perc_com_coord row) (FFin 0) = true.
Proof.
  destruct exemplo_colunas
    as [Hgt [_ [Het [Hgc [_ [Hec [_ [_ [Htc _]]]]]]]]].
  destruct (agg_por_gre_perc_range Examples.df_coord Examples.df_total
              _ _ _ _ _ Casos.flags_c Hgt Het Htc eq_refl Hgc Hec)
    as [r [Hr Hrows]].
  exists r. split; [exact Hr|]. intros row Hrow. apply (Hrows row Hrow).
Defined.

Lemma agg_por_polo_covers_gre_witness :
  exists rg rp,
    agg_por_gre Examples.df_coord Examples.df_total = Ok rg /\
    agg_por_polo Examples.df_coord Examples.df_total (Examples.txt "R1")
      = Ok rp /\
    forall row, In row rg -> chave row = Examples.txt "R1" ->
      total_escolas row <= list_sum (map total_escolas rp).
Proof.
  destruct exemplo_colunas
    as [Hgt [Hpt [Het [Hgc [Hpc [Hec [_ [_ [Htc _]]]]]]]]].
  apply (agg_por_polo_covers_gre Examples.df_coord Examples.df_total
           (Examples.txt "R1") _ _ _ _ _ _ _ Casos.flags_c
           Hgt Hpt Het Htc eq_refl Hgc Hpc Hec).
  intros p e H. vm_compute in H.
  intuition (try discriminate; match goal with
                               | E : (_, _) = (_, _) |- _ =>
                                   injection E as <- <-; discriminate
                               end).
Defined.
